(** * The movie catalog service: routes/movies.py and schemas/movies.py

    A shallow embedding of the five request handlers of [routes/movies.py]
    and of the request schemas of [schemas/movies.py], together with the
    properties the service's specification states about them.

    - Python [int] is [Z]; [float] is the binary64 type [PrimFloat.float];
      [str] is [string]; [None] is an [option].
    - A [datetime.date] is its proleptic Gregorian ordinal
      ([date.toordinal()]), so that comparing dates and adding a
      [timedelta] of days are comparison and addition of ordinals.
    - A table is the list of its rows in insertion order.
    - A handler runs in a database session: an error-and-state monad whose
      state holds the committed tables and the tables of the open
      transaction. *)

From Stdlib Require Import PrimFloat.
From Stdlib Require Import ZArith List String Ascii Bool Lia.
From Stdlib Require Import DecimalString QArith Qround.
From Stdlib Require Import Sorting.Sorted Sorting.Permutation.
Import ListNotations.

Local Open Scope string_scope.
Local Open Scope list_scope.
Local Open Scope Z_scope.

(** ** Python values *)

(** [str(n)] for an [int]. *)
Definition str_of_int (n : Z) : string := NilZero.string_of_int (Z.to_int n).

(** What a handler or a validator can raise. *)
Inductive Exception : Type :=
| HTTPException (status_code : Z) (detail : string)
| ValueError (msg : string)
| OverflowError
| AttributeError
| ZeroDivisionError
| MultipleResultsFound
| InvalidRequestError
| IntegrityError.

(** *** datetime.date *)

Definition date := Z.

(** [date.min.toordinal()] and [date.max.toordinal()]. *)
Definition date_min : date := 1.
Definition date_max : date := 3652059.

(** [d + timedelta(days=n)]: raises [OverflowError] outside
    [date.min .. date.max]. *)
Definition date_add_days (d : date) (n : Z) : Exception + date :=
  let o := d + n in
  if (date_min <=? o) && (o <=? date_max) then inr o else inl OverflowError.

(** [datetime._ord2ymd]. *)
Definition days_before_month (leap : bool) (month : Z) : Z :=
  let base := nth (Z.to_nat month)
                  [0; 0; 31; 59; 90; 120; 151; 181; 212; 243; 273; 304; 334] 0 in
  if (2 <? month) && leap then base + 1 else base.

Definition days_in_month (leap : bool) (month : Z) : Z :=
  let base := nth (Z.to_nat month)
                  [0; 31; 28; 31; 30; 31; 30; 31; 31; 30; 31; 30; 31] 0 in
  if (month =? 2) && leap then base + 1 else base.

Definition ord2ymd (n : Z) : Z * Z * Z :=
  let n := n - 1 in
  let n400 := n / 146097 in
  let n := n mod 146097 in
  let n100 := n / 36524 in
  let n := n mod 36524 in
  let n4 := n / 1461 in
  let n := n mod 1461 in
  let n1 := n / 365 in
  let n := n mod 365 in
  let year := n400 * 400 + 1 + n100 * 100 + n4 * 4 + n1 in
  if (n1 =? 4) || (n100 =? 4) then (year - 1, 12, 31)
  else
    let leapyear := (n1 =? 3) && (negb (n4 =? 24) || (n100 =? 3)) in
    let month := Z.shiftr (n + 50) 5 in
    let preceding := days_before_month leapyear month in
    if n <? preceding
    then
      let month := month - 1 in
      let preceding := preceding - days_in_month leapyear month in
      (year, month, n - preceding + 1)
    else (year, month, n - preceding + 1).

(** ["%0*d"]: a non-negative number padded with zeros to [width] digits. *)
Definition zero_pad (width : nat) (n : Z) : string :=
  let s := str_of_int n in
  (String.concat "" (repeat "0" (width - String.length s)%nat) ++ s)%string.

(** [str(d)], that is [d.isoformat()]. *)
Definition isoformat (d : date) : string :=
  let '(y, m, dd) := ord2ymd d in
  (zero_pad 4 y ++ "-" ++ zero_pad 2 m ++ "-" ++ zero_pad 2 dd)%string.

(** ** The database models

    [database.models] is not among the sources.  The rows below carry the
    columns the handlers and the response schemas use. *)

(** Modelled from the spec: [MovieStatusEnum] is declared in
    [database.models]; the spec lists released, post-production and in
    production. *)
Inductive MovieStatusEnum : Type := Released | PostProduction | InProduction.

(** Modelled from the spec: [CountryModel], with the columns of
    [CountrySchema]. *)
Module CountryModel.
Record t : Type := mk { id : Z; code : string; name : option string }.
End CountryModel.

(** Modelled from the spec: a row of [GenreModel], [ActorModel] or
    [LanguageModel], with the columns of [GenreSchema], [ActorSchema] and
    [LanguageSchema]. *)
Module NamedModel.
Record t : Type := mk { id : Z; name : string }.
End NamedModel.

(** The [model] argument of [get_or_create]. *)
Inductive Lookup : Type := GenreModel | ActorModel | LanguageModel.

(** Modelled from the spec: [MovieModel], with the columns of
    [MovieDetailSchema].  A column holds [None] once [None] has been
    assigned to the attribute; the country is held by its key. *)
Module MovieModel.
Record t : Type := mk {
  id : Z;
  name : option string;
  date : option date;
  score : option float;
  overview : option string;
  status : option MovieStatusEnum;
  budget : option float;
  revenue : option float;
  country_id : Z
}.
End MovieModel.

(** The tables: the four lookup tables, the movies, and the three
    association tables of (movie id, related id) link rows. *)
Record Tables : Type := mkTables {
  movies : list MovieModel.t;
  countries : list CountryModel.t;
  genres : list NamedModel.t;
  actors : list NamedModel.t;
  languages : list NamedModel.t;
  movies_genres : list (Z * Z);
  movies_actors : list (Z * Z);
  movies_languages : list (Z * Z)
}.

Definition empty_tables : Tables := mkTables [] [] [] [] [] [] [] [].

Definition lookup_table (model : Lookup) (t : Tables) : list NamedModel.t :=
  match model with
  | GenreModel => genres t
  | ActorModel => actors t
  | LanguageModel => languages t
  end.

Definition link_table (model : Lookup) (t : Tables) : list (Z * Z) :=
  match model with
  | GenreModel => movies_genres t
  | ActorModel => movies_actors t
  | LanguageModel => movies_languages t
  end.

Definition set_movies (ms : list MovieModel.t) (t : Tables) : Tables :=
  mkTables ms (countries t) (genres t) (actors t) (languages t)
           (movies_genres t) (movies_actors t) (movies_languages t).

Definition set_countries (cs : list CountryModel.t) (t : Tables) : Tables :=
  mkTables (movies t) cs (genres t) (actors t) (languages t)
           (movies_genres t) (movies_actors t) (movies_languages t).

Definition set_lookup_table (model : Lookup) (rows : list NamedModel.t)
           (t : Tables) : Tables :=
  match model with
  | GenreModel =>
      mkTables (movies t) (countries t) rows (actors t) (languages t)
               (movies_genres t) (movies_actors t) (movies_languages t)
  | ActorModel =>
      mkTables (movies t) (countries t) (genres t) rows (languages t)
               (movies_genres t) (movies_actors t) (movies_languages t)
  | LanguageModel =>
      mkTables (movies t) (countries t) (genres t) (actors t) rows
               (movies_genres t) (movies_actors t) (movies_languages t)
  end.

Definition set_link_table (model : Lookup) (rows : list (Z * Z))
           (t : Tables) : Tables :=
  match model with
  | GenreModel =>
      mkTables (movies t) (countries t) (genres t) (actors t) (languages t)
               rows (movies_actors t) (movies_languages t)
  | ActorModel =>
      mkTables (movies t) (countries t) (genres t) (actors t) (languages t)
               (movies_genres t) rows (movies_languages t)
  | LanguageModel =>
      mkTables (movies t) (countries t) (genres t) (actors t) (languages t)
               (movies_genres t) (movies_actors t) rows
  end.

(** The key an autoincrement column gives the next inserted row. *)
Definition next_id (ids : list Z) : Z := 1 + fold_right Z.max 0 ids.

(** ** Statements of the unit of work *)

(** The UPDATE of the row with the key of [row]. *)
Definition update_rows (row : MovieModel.t) (ms : list MovieModel.t)
  : list MovieModel.t :=
  map (fun m => if MovieModel.id m =? MovieModel.id row then row else m) ms.

Inductive Statement : Type :=
| InsertCountry (row : CountryModel.t)
| InsertLookup (model : Lookup) (row : NamedModel.t)
| InsertMovie (row : MovieModel.t)
| InsertLink (model : Lookup) (link : Z * Z)
| UpdateMovie (row : MovieModel.t)
| DeleteMovie (movie_id : Z).

Definition delete_links (movie_id : Z) (links : list (Z * Z)) : list (Z * Z) :=
  filter (fun l => negb (fst l =? movie_id)) links.

(** Modelled from the spec: what deleting a movie removes is decided by
    the relationships of [database.models]; the spec has the movie and its
    link rows removed, and the shared rows and the country kept. *)
Definition delete_movie_rows (movie_id : Z) (t : Tables) : Tables :=
  mkTables
    (filter (fun m => negb (MovieModel.id m =? movie_id)) (movies t))
    (countries t) (genres t) (actors t) (languages t)
    (delete_links movie_id (movies_genres t))
    (delete_links movie_id (movies_actors t))
    (delete_links movie_id (movies_languages t)).

Definition apply_statement (stmt : Statement) (t : Tables) : Tables :=
  match stmt with
  | InsertCountry row => set_countries (countries t ++ [row]) t
  | InsertLookup model row =>
      set_lookup_table model (lookup_table model t ++ [row]) t
  | InsertMovie row => set_movies (movies t ++ [row]) t
  | InsertLink model link =>
      set_link_table model (link_table model t ++ [link]) t
  | UpdateMovie row => set_movies (update_rows row (movies t)) t
  | DeleteMovie movie_id => delete_movie_rows movie_id t
  end.

(** ** The session

    [committed] is what the store holds; [working] is what the statements
    of the open transaction see; [pending] is the unit of work: what
    [db.add], [db.delete] and attribute assignment have registered and
    the next flush will execute.  When the handler leaves by an exception
    the session is closed and only [committed] remains. *)
Record Session : Type := mkSession {
  committed : Tables;
  working : Tables;
  pending : list Statement
}.

Definition M (A : Type) : Type := Session -> (Exception + A) * Session.

Definition ret {A} (a : A) : M A := fun s => (inr a, s).

Definition raise {A} (e : Exception) : M A := fun s => (inl e, s).

Definition bind {A B} (m : M A) (f : A -> M B) : M B :=
  fun s =>
    match m s with
    | (inl e, s') => (inl e, s')
    | (inr a, s') => f a s'
    end.

Declare Scope session_scope.
Delimit Scope session_scope with session.
Bind Scope session_scope with M.

Notation "x <- m ;; k" := (bind m (fun x => k))
  (at level 61, m at next level, right associativity) : session_scope.
Notation "m ;; k" := (bind m (fun _ => k))
  (at level 61, right associativity) : session_scope.

Local Open Scope session_scope.

(** A SELECT: it reads the open transaction. *)
Definition query {A} (f : Tables -> A) : M A := fun s => (inr (f (working s)), s).

(** Registering a statement with the unit of work. *)
Definition register (stmt : Statement) : M unit :=
  fun s => (inr tt, mkSession (committed s) (working s) (pending s ++ [stmt])).

(** [db.commit()] after the flush: the open transaction becomes the store. *)
Definition publish : M unit :=
  fun s => (inr tt, mkSession (working s) (working s) (pending s)).

(** One request: the handler runs in a fresh session over the store, and
    the store afterwards is what the session committed. *)
Definition request {A} (handler : M A) (store : Tables)
  : (Exception + A) * Tables :=
  let (r, s) := handler (mkSession store store []) in (r, committed s).

(** [a // b]. *)
Definition floordiv (a b : Z) : M Z :=
  if b =? 0 then raise ZeroDivisionError else ret (a / b).

(** ** GET /movies/ *)

Module MovieListResponse.
Record t : Type := mk {
  movies : list MovieModel.t;
  prev_page : option string;
  next_page : option string;
  total_pages : Z;
  total_items : Z
}.
End MovieListResponse.

(** [ORDER BY id DESC]. *)
Fixpoint insert_desc (m : MovieModel.t) (ms : list MovieModel.t)
  : list MovieModel.t :=
  match ms with
  | [] => [m]
  | m' :: rest =>
      if MovieModel.id m' <? MovieModel.id m then m :: ms
      else m' :: insert_desc m rest
  end.

Definition order_by_desc_id (ms : list MovieModel.t) : list MovieModel.t :=
  fold_right insert_desc [] ms.

(** [select(func.count(MovieModel.id))]. *)
Definition count_movies : M Z :=
  query (fun t => Z.of_nat (List.length (movies t))).

(** [select(MovieModel).order_by(desc(MovieModel.id)).offset(o).limit(n)]. *)
Definition select_movies_page (offset limit : Z) : M (list MovieModel.t) :=
  query (fun t =>
    firstn (Z.to_nat limit) (skipn (Z.to_nat offset) (order_by_desc_id (movies t)))).

Definition page_link (page per_page : Z) : string :=
  ("/theater/movies/?page=" ++ str_of_int page
     ++ "&per_page=" ++ str_of_int per_page)%string.

Definition no_movies_found {A} : M A :=
  raise (HTTPException 404 "No movies found.").

Definition get_movies (page per_page : Z) : M MovieListResponse.t :=
  total_items <- count_movies ;;
  if total_items =? 0 then no_movies_found
  else
    total_pages <- floordiv (total_items + per_page - 1) per_page ;;
    if page >? total_pages then no_movies_found
    else
      let offset := (page - 1) * per_page in
      movies <- select_movies_page offset per_page ;;
      match movies with
      | [] => no_movies_found
      | _ :: _ =>
          let prev_page :=
            if page >? 1 then Some (page_link (page - 1) per_page) else None in
          let next_page :=
            if page <? total_pages then Some (page_link (page + 1) per_page)
            else None in
          ret (MovieListResponse.mk movies prev_page next_page
                                    total_pages total_items)
      end.

(** The spec's total_pages: the ceiling of total_items / per_page. *)
Definition spec_total_pages (total_items per_page : Z) : Z :=
  Qceiling (inject_Z total_items / inject_Z per_page).

(** ** The request schemas (schemas/movies.py) *)

Module MovieCreateSchema.
Record t : Type := mk {
  name : string;
  date : date;
  score : float;
  overview : string;
  status : MovieStatusEnum;
  budget : float;
  revenue : float;
  country : string;
  genres : list string;
  actors : list string;
  languages : list string
}.
End MovieCreateSchema.

(** [MovieCreateSchema.date_validation]; [today] is [date.today()]. *)
Definition date_validation (today value : date) : Exception + date :=
  match date_add_days today 365 with
  | inl e => inl e
  | inr max_date =>
      if value >? max_date
      then inl (ValueError "The date must not be more than one year in the future.")
      else inr value
  end.

(** An [Optional] field of a request body: left out of the body, or set
    by it, to a value or to [null].  The payloads that pass the validation
    of [MovieUpdateSchema] are among the values of the record below. *)
Inductive Field (A : Type) : Type :=
| NotSet
| IsSet (value : option A).
Arguments NotSet {A}.
Arguments IsSet {A} value.

(** [date: Optional[date] = None] in the body of [MovieUpdateSchema]: the
    class attribute [date] is bound to [None] before the annotation is
    evaluated, so the annotation is [Optional[None]] and the field takes
    [null] and no date.  A set field holds no value of the empty type. *)
Definition null_only (value : option Empty_set) : option date :=
  match value with
  | Some nothing => match nothing with end
  | None => None
  end.

Module MovieUpdateSchema.
Record t : Type := mk {
  name : Field string;
  date : Field Empty_set;
  score : Field float;
  overview : Field string;
  status : Field MovieStatusEnum;
  budget : Field float;
  revenue : Field float
}.
End MovieUpdateSchema.

(** One (key, value) item of [movie_update.dict(exclude_unset=True)]. *)
Inductive Item : Type :=
| item_name (value : option string)
| item_date (value : option date)
| item_score (value : option float)
| item_overview (value : option string)
| item_status (value : option MovieStatusEnum)
| item_budget (value : option float)
| item_revenue (value : option float).

Definition item_of {A} (key : option A -> Item) (f : Field A) : list Item :=
  match f with
  | NotSet => []
  | IsSet value => [key value]
  end.

(** [movie_update.dict(exclude_unset=True).items()], in field order. *)
Definition dict_exclude_unset (u : MovieUpdateSchema.t) : list Item :=
  item_of item_name (MovieUpdateSchema.name u)
  ++ item_of (fun value => item_date (null_only value))
             (MovieUpdateSchema.date u)
  ++ item_of item_score (MovieUpdateSchema.score u)
  ++ item_of item_overview (MovieUpdateSchema.overview u)
  ++ item_of item_status (MovieUpdateSchema.status u)
  ++ item_of item_budget (MovieUpdateSchema.budget u)
  ++ item_of item_revenue (MovieUpdateSchema.revenue u).

(** [setattr(movie, key, value)]. *)
Definition setattr (m : MovieModel.t) (i : Item) : MovieModel.t :=
  let '(MovieModel.mk id name date score overview status budget revenue country_id) := m in
  match i with
  | item_name v =>
      MovieModel.mk id v date score overview status budget revenue country_id
  | item_date v =>
      MovieModel.mk id name v score overview status budget revenue country_id
  | item_score v =>
      MovieModel.mk id name date v overview status budget revenue country_id
  | item_overview v =>
      MovieModel.mk id name date score v status budget revenue country_id
  | item_status v =>
      MovieModel.mk id name date score overview v budget revenue country_id
  | item_budget v =>
      MovieModel.mk id name date score overview status v revenue country_id
  | item_revenue v =>
      MovieModel.mk id name date score overview status budget v country_id
  end.

(** The loaded movie: the row with the relations the [selectinload]
    options fetch. *)
Module MovieDetail.
Record t : Type := mk {
  movie : MovieModel.t;
  country : option CountryModel.t;
  genres : list NamedModel.t;
  actors : list NamedModel.t;
  languages : list NamedModel.t
}.
End MovieDetail.

Definition related (model : Lookup) (t : Tables) (movie_id : Z)
  : list NamedModel.t :=
  flat_map
    (fun l =>
       if fst l =? movie_id
       then filter (fun r => NamedModel.id r =? snd l) (lookup_table model t)
       else [])
    (link_table model t).

Definition load_movie (t : Tables) (m : MovieModel.t) : MovieDetail.t :=
  MovieDetail.mk m
    (find (fun c => CountryModel.id c =? MovieModel.country_id m) (countries t))
    (related GenreModel t (MovieModel.id m))
    (related ActorModel t (MovieModel.id m))
    (related LanguageModel t (MovieModel.id m)).

(** [MovieModel.name == name, MovieModel.date == date] in a WHERE clause:
    a NULL column matches nothing. *)
Definition name_date_is (name : string) (d : date) (m : MovieModel.t) : bool :=
  match MovieModel.name m, MovieModel.date m with
  | Some n', Some d' => String.eqb n' name && (d' =? d)
  | _, _ => false
  end.

(** [model.name == name]. *)
Definition has_name (name : string) (r : NamedModel.t) : bool :=
  String.eqb (NamedModel.name r) name.

(** The name column of a lookup table. *)
Definition names (rows : list NamedModel.t) : list string :=
  map NamedModel.name rows.

(** [MovieModel(name=movie.name, ..., country=country)] with the key the
    insert gives it. *)
Definition new_movie_row (movie : MovieCreateSchema.t) (movie_id : Z)
           (country : CountryModel.t) : MovieModel.t :=
  MovieModel.mk movie_id
    (Some (MovieCreateSchema.name movie))
    (Some (MovieCreateSchema.date movie))
    (Some (MovieCreateSchema.score movie))
    (Some (MovieCreateSchema.overview movie))
    (Some (MovieCreateSchema.status movie))
    (Some (MovieCreateSchema.budget movie))
    (Some (MovieCreateSchema.revenue movie))
    (CountryModel.id country).

(** The link rows of a movie to the rows of a relationship list. *)
Definition links_to (movie_id : Z) (items : list NamedModel.t)
  : list (Z * Z) :=
  map (fun obj => (movie_id, NamedModel.id obj)) items.

(** ** The handlers that write (routes/movies.py) *)

Section Handlers.

(** [pycountry.countries.get(alpha_3=code)]: the name of the entry of
    the ISO 3166 reference table, or [None]. *)
Variable pycountry_countries_get : string -> option string.

(** The constraints the schema of [database.models] declares: whether
    the tables accept an INSERT or an UPDATE. *)
Variable constraints : Tables -> Statement -> bool.

(** A DELETE is not checked: the movie goes together with the link rows
    that reference it. *)
Definition accepted (t : Tables) (stmt : Statement) : bool :=
  match stmt with
  | DeleteMovie _ => true
  | _ => constraints t stmt
  end.

Fixpoint run_statements (stmts : list Statement) (t : Tables)
  : option Tables :=
  match stmts with
  | [] => Some t
  | stmt :: rest =>
      if accepted t stmt then run_statements rest (apply_statement stmt t)
      else None
  end.

(** [await db.flush()]: the unit of work is executed in the open
    transaction. *)
Definition flush : M unit :=
  fun s =>
    match run_statements (pending s) (working s) with
    | Some t => (inr tt, mkSession (committed s) t [])
    | None => (inl IntegrityError, s)
    end.

(** [await db.commit()]. *)
Definition commit : M unit := flush ;; publish.

(** [await db.refresh(movie)]. *)
Definition refresh (movie_id : Z) : M unit :=
  row <- query (fun t =>
           find (fun m => MovieModel.id m =? movie_id) (movies t)) ;;
  match row with
  | Some _ => ret tt
  | None => raise InvalidRequestError
  end.

(** [result.scalar_one_or_none()]. *)
Definition scalar_one_or_none {A} (rows : list A) : M (option A) :=
  match rows with
  | [] => ret None
  | [row] => ret (Some row)
  | _ :: _ :: _ => raise MultipleResultsFound
  end.

(** The integers the database driver binds as the parameter of a
    statement: those of the engine's INTEGER, 64 bits with a sign.  The
    path parameter [movie_id: int] has no bound of its own, and binding
    an [int] outside this range raises [OverflowError] before the
    statement is run.  The ids a handler reads back from a row
    ([new_movie.id], [movie.id]) are ids the engine has stored. *)
Definition key_min : Z := - 2 ^ 63.
Definition key_max : Z := 2 ^ 63 - 1.

Definition in_key_range (n : Z) : bool := (key_min <=? n) && (n <=? key_max).

Definition bind_parameter (n : Z) : M unit :=
  if in_key_range n then ret tt else raise OverflowError.

(** The query [get_movie], [delete_movie] and [update_movie] share:
    [.where(MovieModel.id == movie_id)] with [movie_id] as its
    parameter. *)
Definition select_movie (movie_id : Z) : M (option MovieDetail.t) :=
  bind_parameter movie_id ;;
  rows <- query (fun t =>
            map (load_movie t)
                (filter (fun m => MovieModel.id m =? movie_id) (movies t))) ;;
  scalar_one_or_none rows.

Definition movie_not_found {A} : M A :=
  raise (HTTPException 404 "Movie with the given ID was not found.").

(** *** GET /movies/{movie_id}/ *)
Definition get_movie (movie_id : Z) : M MovieDetail.t :=
  movie <- select_movie movie_id ;;
  match movie with
  | None => movie_not_found
  | Some movie => ret movie
  end.

(** *** POST /movies/ *)

(** [country = CountryModel(code=code, name=name); db.add(country)]. *)
Definition add_country (code name : string) : M CountryModel.t :=
  ids <- query (fun t => map CountryModel.id (countries t)) ;;
  let country := CountryModel.mk (next_id ids) code (Some name) in
  register (InsertCountry country) ;;
  ret country.

(** [obj = model(name=name); db.add(obj)]. *)
Definition add_lookup (model : Lookup) (name : string) : M NamedModel.t :=
  ids <- query (fun t => map NamedModel.id (lookup_table model t)) ;;
  let obj := NamedModel.mk (next_id ids) name in
  register (InsertLookup model obj) ;;
  ret obj.

Fixpoint get_or_create_loop (model : Lookup) (name_list : list string)
         (items : list NamedModel.t) : M (list NamedModel.t) :=
  match name_list with
  | [] => ret items
  | name :: name_list =>
      obj <- query (fun t =>
               find (has_name name) (lookup_table model t)) ;;
      obj <- match obj with
             | Some obj => ret obj
             | None =>
                 obj <- add_lookup model name ;;
                 flush ;;
                 ret obj
             end ;;
      get_or_create_loop model name_list (items ++ [obj])
  end.

Definition get_or_create (model : Lookup) (name_list : list string)
  : M (list NamedModel.t) :=
  get_or_create_loop model name_list [].

Fixpoint register_links (model : Lookup) (movie_id : Z)
         (items : list NamedModel.t) : M unit :=
  match items with
  | [] => ret tt
  | obj :: items =>
      register (InsertLink model (movie_id, NamedModel.id obj)) ;;
      register_links model movie_id items
  end.

(** [new_movie = MovieModel(...); db.add(new_movie)]. *)
Definition add_movie (movie : MovieCreateSchema.t) (country : CountryModel.t)
           (genres actors languages : list NamedModel.t) : M MovieModel.t :=
  ids <- query (fun t => map MovieModel.id (movies t)) ;;
  let new_movie := new_movie_row movie (next_id ids) country in
  register (InsertMovie new_movie) ;;
  register_links GenreModel (MovieModel.id new_movie) genres ;;
  register_links ActorModel (MovieModel.id new_movie) actors ;;
  register_links LanguageModel (MovieModel.id new_movie) languages ;;
  ret new_movie.

Definition already_exists (movie : MovieCreateSchema.t) : string :=
  ("A movie with the name '" ++ MovieCreateSchema.name movie
     ++ "' and release date '" ++ isoformat (MovieCreateSchema.date movie)
     ++ "' already exists.")%string.

Definition post_movie (movie : MovieCreateSchema.t)
  : M (option MovieDetail.t) :=
  existing_movie <- query (fun t =>
    find (name_date_is (MovieCreateSchema.name movie)
                       (MovieCreateSchema.date movie)) (movies t)) ;;
  match existing_movie with
  | Some _ => raise (HTTPException 409 (already_exists movie))
  | None =>
      country <- query (fun t =>
        find (fun c => String.eqb (CountryModel.code c)
                                  (MovieCreateSchema.country movie))
             (countries t)) ;;
      country <- match country with
                 | Some country => ret country
                 | None =>
                     match pycountry_countries_get
                             (MovieCreateSchema.country movie) with
                     | None => raise AttributeError
                     | Some country_name =>
                         country <- add_country
                                      (MovieCreateSchema.country movie)
                                      country_name ;;
                         flush ;;
                         ret country
                     end
                 end ;;
      genres <- get_or_create GenreModel (MovieCreateSchema.genres movie) ;;
      actors <- get_or_create ActorModel (MovieCreateSchema.actors movie) ;;
      languages <- get_or_create LanguageModel
                                 (MovieCreateSchema.languages movie) ;;
      new_movie <- add_movie movie country genres actors languages ;;
      commit ;;
      refresh (MovieModel.id new_movie) ;;
      query (fun t =>
        option_map (load_movie t)
          (find (fun m => MovieModel.id m =? MovieModel.id new_movie)
                (movies t)))
  end.

(** *** DELETE /movies/{movie_id}/ *)
Definition delete_movie (movie_id : Z) : M unit :=
  movie <- select_movie movie_id ;;
  match movie with
  | None => movie_not_found
  | Some movie =>
      register (DeleteMovie (MovieModel.id (MovieDetail.movie movie))) ;;
      commit
  end.

(** *** PATCH /movies/{movie_id}/

    Assigning an attribute of the loaded movie makes the unit of work hold
    its UPDATE, which the commit flushes. *)
Definition update_movie (movie_id : Z) (movie_update : MovieUpdateSchema.t)
  : M string :=
  movie <- select_movie movie_id ;;
  match movie with
  | None => movie_not_found
  | Some movie =>
      let update_data := dict_exclude_unset movie_update in
      let movie := fold_left setattr update_data (MovieDetail.movie movie) in
      match update_data with
      | [] => ret tt
      | _ :: _ => register (UpdateMovie movie)
      end ;;
      commit ;;
      refresh (MovieModel.id movie) ;;
      ret "Movie updated successfully."
  end.

(** *** What the handlers are specified to do *)

(** What [get_or_create] has done when it returns [items] for
    [name_list] over a lookup table [table], having inserted the rows
    [created]: every name is resolved to the first row of that name,
    and a row was created only for a name the table did not hold. *)
Definition resolved (table : list NamedModel.t) (name_list : list string)
           (created items : list NamedModel.t) : Prop :=
  Forall2 (fun name obj => find (has_name name) (table ++ created) = Some obj)
          name_list items
  /\ Forall (fun obj => ~ In (NamedModel.name obj) (names table)
                        /\ In (NamedModel.name obj) name_list) created
  /\ NoDup (names created).

(** How the country of a create request is resolved over the countries
    [table]: the first row with the code, or a new row named by the
    reference table. *)
Definition country_resolved (table : list CountryModel.t) (code : string)
           (created : list CountryModel.t) (country : CountryModel.t)
  : Prop :=
  (find (fun c => String.eqb (CountryModel.code c) code) table = Some country
   /\ created = [])
  \/ (find (fun c => String.eqb (CountryModel.code c) code) table = None
      /\ exists name,
          pycountry_countries_get code = Some name
          /\ country = CountryModel.mk (next_id (map CountryModel.id table))
                                       code (Some name)
          /\ created = [country]).

(** What a successful create request has done to the store. *)
Definition post_movie_effect (movie : MovieCreateSchema.t)
           (store store' : Tables) (detail : MovieDetail.t) : Prop :=
  exists (country : CountryModel.t) (new_countries : list CountryModel.t)
         (new_genres new_actors new_languages : list NamedModel.t)
         (genres_ actors_ languages_ : list NamedModel.t),
    let new_movie :=
      new_movie_row movie (next_id (map MovieModel.id (movies store)))
                    country in
    find (name_date_is (MovieCreateSchema.name movie)
                       (MovieCreateSchema.date movie)) (movies store) = None
    /\ country_resolved (countries store) (MovieCreateSchema.country movie)
                        new_countries country
    /\ resolved (genres store) (MovieCreateSchema.genres movie)
                new_genres genres_
    /\ resolved (actors store) (MovieCreateSchema.actors movie)
                new_actors actors_
    /\ resolved (languages store) (MovieCreateSchema.languages movie)
                new_languages languages_
    /\ store'
       = mkTables
           (movies store ++ [new_movie])
           (countries store ++ new_countries)
           (genres store ++ new_genres)
           (actors store ++ new_actors)
           (languages store ++ new_languages)
           (movies_genres store
            ++ links_to (MovieModel.id new_movie) genres_)
           (movies_actors store
            ++ links_to (MovieModel.id new_movie) actors_)
           (movies_languages store
            ++ links_to (MovieModel.id new_movie) languages_)
    /\ detail = load_movie store' new_movie.

(** The names a create request gives for a lookup model. *)
Definition requested (movie : MovieCreateSchema.t) (model : Lookup)
  : list string :=
  match model with
  | GenreModel => MovieCreateSchema.genres movie
  | ActorModel => MovieCreateSchema.actors movie
  | LanguageModel => MovieCreateSchema.languages movie
  end.

(** The rows of a lookup model a loaded movie holds. *)
Definition loaded (detail : MovieDetail.t) (model : Lookup)
  : list NamedModel.t :=
  match model with
  | GenreModel => MovieDetail.genres detail
  | ActorModel => MovieDetail.actors detail
  | LanguageModel => MovieDetail.languages detail
  end.

(** The spec's partial update of one field: an absent field keeps the
    prior value, a present field takes the value of the payload. *)
Definition spec_field {A} (f : Field A) (prior : option A) : option A :=
  match f with
  | NotSet => prior
  | IsSet value => value
  end.

(** The spec's partial update of a movie. *)
Definition spec_partial_update (u : MovieUpdateSchema.t) (m : MovieModel.t)
  : MovieModel.t :=
  MovieModel.mk
    (MovieModel.id m)
    (spec_field (MovieUpdateSchema.name u) (MovieModel.name m))
    (match MovieUpdateSchema.date u with
     | NotSet => MovieModel.date m
     | IsSet value => null_only value
     end)
    (spec_field (MovieUpdateSchema.score u) (MovieModel.score m))
    (spec_field (MovieUpdateSchema.overview u) (MovieModel.overview m))
    (spec_field (MovieUpdateSchema.status u) (MovieModel.status m))
    (spec_field (MovieUpdateSchema.budget u) (MovieModel.budget m))
    (spec_field (MovieUpdateSchema.revenue u) (MovieModel.revenue m))
    (MovieModel.country_id m).

(** The schema rejects some statement. *)
Definition rejecting : Prop := exists t stmt, constraints t stmt = false.

(** Why a create request fails: the (name, date) pair is taken; or the
    country code is in neither the countries table nor the reference
    table; or the schema rejects a statement. *)
Definition post_movie_failure (movie : MovieCreateSchema.t) (store : Tables)
           (e : Exception) : Prop :=
  (e = HTTPException 409 (already_exists movie)
   /\ exists m,
       find (name_date_is (MovieCreateSchema.name movie)
                          (MovieCreateSchema.date movie)) (movies store)
       = Some m)
  \/ (e = AttributeError
      /\ find (fun c => String.eqb (CountryModel.code c)
                                   (MovieCreateSchema.country movie))
              (countries store) = None
      /\ pycountry_countries_get (MovieCreateSchema.country movie) = None)
  \/ (e = IntegrityError /\ rejecting).

End Handlers.

(** ** What the list, the keys and the references are *)

(** [ORDER BY id DESC]: no row is before a row with a larger id. *)
Definition id_desc (a b : MovieModel.t) : Prop :=
  MovieModel.id b <= MovieModel.id a.

(** The rows of page [page]: [OFFSET (page - 1) * per_page LIMIT per_page]
    of the movies by descending id. *)
Definition page_slice (store : Tables) (page per_page : Z)
  : list MovieModel.t :=
  firstn (Z.to_nat per_page)
         (skipn (Z.to_nat ((page - 1) * per_page))
                (order_by_desc_id (movies store))).

(** The response to a page within range. *)
Definition page_response (store : Tables) (page per_page : Z)
  : MovieListResponse.t :=
  let total_items := Z.of_nat (List.length (movies store)) in
  let total_pages := (total_items + per_page - 1) / per_page in
  MovieListResponse.mk
    (page_slice store page per_page)
    (if page >? 1 then Some (page_link (page - 1) per_page) else None)
    (if page <? total_pages then Some (page_link (page + 1) per_page)
     else None)
    total_pages total_items.

(** The pair a create request looks for before it inserts. *)
Definition name_date (m : MovieModel.t) : option string * option date :=
  (MovieModel.name m, MovieModel.date m).

(** The primary keys: the ids of each table are distinct. *)
Definition primary_keys (t : Tables) : Prop :=
  NoDup (map MovieModel.id (movies t))
  /\ NoDup (map CountryModel.id (countries t))
  /\ forall model, NoDup (map NamedModel.id (lookup_table model t)).

(** The foreign keys: a movie references a country row, and a link row a
    movie and a row of its lookup table. *)
Definition references_hold (t : Tables) : Prop :=
  (forall m, In m (movies t) ->
             In (MovieModel.country_id m) (map CountryModel.id (countries t)))
  /\ forall model l,
      In l (link_table model t) ->
      In (fst l) (map MovieModel.id (movies t))
      /\ In (snd l) (map NamedModel.id (lookup_table model t)).

(** ** A sample catalog *)

(** A reference table that knows one code. *)
Definition iso3166 (code : string) : option string :=
  if String.eqb code "USA" then Some "United States" else None.

(** A schema without constraints. *)
Definition no_constraints (_ : Tables) (_ : Statement) : bool := true.

(** A schema whose lookup names hold at most ten characters. *)
Definition short_names (_ : Tables) (stmt : Statement) : bool :=
  match stmt with
  | InsertLookup _ row => (String.length (NamedModel.name row) <=? 10)%nat
  | _ => true
  end.

Definition dune : MovieCreateSchema.t :=
  MovieCreateSchema.mk "Dune" 739933 90%float "Arrakis." Released
    165000000%float 400000000%float "USA" ["Sci-Fi"] ["Zendaya"] ["English"].

Definition solaris : MovieCreateSchema.t :=
  MovieCreateSchema.mk "Solaris" 720000 81%float "An ocean." Released
    1000000%float 0%float "USA" ["Sci-Fi"; "Drama"] [] [].

Definition only_score (value : float) : MovieUpdateSchema.t :=
  MovieUpdateSchema.mk NotSet NotSet (IsSet (Some value)) NotSet NotSet NotSet
                       NotSet.

Definition usa : CountryModel.t :=
  CountryModel.mk 1 "USA" (Some "United States").

Definition sci_fi : NamedModel.t := NamedModel.mk 1 "Sci-Fi".
Definition drama : NamedModel.t := NamedModel.mk 2 "Drama".
Definition zendaya : NamedModel.t := NamedModel.mk 1 "Zendaya".
Definition english : NamedModel.t := NamedModel.mk 1 "English".

(** The movies that creating [dune] in an empty store, and [solaris]
    next, answer with. *)
Definition dune_detail : MovieDetail.t :=
  MovieDetail.mk (new_movie_row dune 1 usa) (Some usa)
    [sci_fi] [zendaya] [english].

Definition solaris_detail : MovieDetail.t :=
  MovieDetail.mk (new_movie_row solaris 2 usa) (Some usa)
    [sci_fi; drama] [] [].

(** The stores after these two requests. *)
Definition catalog1 : Tables :=
  mkTables [new_movie_row dune 1 usa] [usa] [sci_fi] [zendaya] [english]
           [(1, 1)] [(1, 1)] [(1, 1)].

Definition catalog2 : Tables :=
  mkTables [new_movie_row dune 1 usa; new_movie_row solaris 2 usa]
           [usa] [sci_fi; drama] [zendaya] [english]
           [(1, 1); (2, 1); (2, 2)] [(1, 1)] [(1, 1)].

(** [catalog2] after the score of the first movie has been set to 55,
    and after the first movie has been deleted. *)
Definition catalog2_rescored : Tables :=
  set_movies
    [setattr (new_movie_row dune 1 usa) (item_score (Some 55%float));
     new_movie_row solaris 2 usa]
    catalog2.

Definition catalog2_without_dune : Tables :=
  mkTables [new_movie_row solaris 2 usa]
           [usa] [sci_fi; drama] [zendaya] [english]
           [(2, 1); (2, 2)] [] [].

(** The two pages of [catalog2] at one movie a page. *)
Definition first_page : MovieListResponse.t :=
  MovieListResponse.mk [new_movie_row solaris 2 usa]
    None (Some "/theater/movies/?page=2&per_page=1") 2 2.

Definition second_page : MovieListResponse.t :=
  MovieListResponse.mk [new_movie_row dune 1 usa]
    (Some "/theater/movies/?page=1&per_page=1") None 2 2.

(** A payload whose country code the reference table does not know. *)
Definition tenet : MovieCreateSchema.t :=
  MovieCreateSchema.mk "Tenet" 737664 78%float "Inversion." Released
    1%float 1%float "XXX" ["Sci-Fi"] [] [].

(** A catalog that holds [dune] with another country, and no row for
    the code "USA". *)
Definition france : CountryModel.t := CountryModel.mk 1 "FRA" (Some "France").

Definition catalog_france : Tables :=
  mkTables [new_movie_row dune 1 france] [france] [sci_fi] [zendaya] [english]
           [(1, 1)] [(1, 1)] [(1, 1)].

(** A second movie released on the day of [dune], the catalog of the
    two, and the payload that gives a movie the name of [dune]. *)
Definition arrakis : MovieCreateSchema.t :=
  MovieCreateSchema.mk "Arrakis" 739933 70%float "Sand." Released
    1000000%float 0%float "USA" ["Sci-Fi"] [] [].

Definition catalog_same_day : Tables :=
  mkTables [new_movie_row dune 1 usa; new_movie_row arrakis 2 usa]
           [usa] [sci_fi] [zendaya] [english]
           [(1, 1); (2, 1)] [(1, 1)] [(1, 1)].

Definition as_dune : MovieUpdateSchema.t :=
  MovieUpdateSchema.mk (IsSet (Some "Dune")) NotSet NotSet NotSet NotSet
                       NotSet NotSet.

(** [catalog1] in a fresh session, and the session after
    [get_or_create] has resolved "Sci-Fi" and "Drama". *)
Definition session1 : Session := mkSession catalog1 catalog1 [].

Definition session1_genres : Session :=
  mkSession catalog1 (set_lookup_table GenreModel [sci_fi; drama] catalog1) [].

(** * Properties *)

(** ** Dates *)

Example isoformat_epoch : isoformat 719163 = "1970-01-01".
Proof. reflexivity. Qed.

Example isoformat_leap_day : isoformat 738945 = "2024-02-29".
Proof. reflexivity. Qed.

(** ** Pagination *)

Lemma ceiling_quotient (a b : Z) :
  0 < b -> (a + b - 1) / b = - ((- a) / b).
Proof.
  intros Hb.
  assert (Hne : b <> 0) by lia.
  pose proof (Z.div_mod (- a) b Hne) as H3.
  pose proof (Z.mod_pos_bound (- a) b Hb) as H4.
  symmetry.
  apply (Z.div_unique (a + b - 1) b _ (b - 1 - (- a) mod b)).
  - left. lia.
  - rewrite Z.mul_opp_r. lia.
Qed.

Lemma spec_total_pages_floordiv (total_items per_page : Z) :
  0 < per_page ->
  spec_total_pages total_items per_page
  = (total_items + per_page - 1) / per_page.
Proof.
  intros Hp. rewrite ceiling_quotient by assumption.
  unfold spec_total_pages, Qceiling, Qfloor.
  destruct per_page as [|p|p]; try lia.
  unfold Qdiv, Qinv, Qmult, Qopp, inject_Z; simpl.
  rewrite Z.mul_1_r. reflexivity.
Qed.

(** The total is bracketed by the pages: one page fewer does not hold it. *)
Lemma total_pages_bracket (total_items per_page : Z) :
  0 < per_page ->
  let total_pages := (total_items + per_page - 1) / per_page in
  (total_pages - 1) * per_page < total_items <= total_pages * per_page.
Proof.
  intros Hp total_pages. subst total_pages.
  assert (Hne : per_page <> 0) by lia.
  pose proof (Z.div_mod (total_items + per_page - 1) per_page Hne) as H1.
  pose proof (Z.mod_pos_bound (total_items + per_page - 1) per_page Hp) as H2.
  set (q := (total_items + per_page - 1) / per_page) in *.
  set (r := (total_items + per_page - 1) mod per_page) in *.
  replace ((q - 1) * per_page) with (per_page * q - per_page) by ring.
  replace (q * per_page) with (per_page * q) by ring.
  lia.
Qed.

Lemma insert_desc_length (m : MovieModel.t) (ms : list MovieModel.t) :
  List.length (insert_desc m ms) = S (List.length ms).
Proof.
  induction ms as [|m' rest IH]; simpl; [reflexivity|].
  destruct (MovieModel.id m' <? MovieModel.id m); simpl; congruence.
Qed.

Lemma order_by_desc_id_length (ms : list MovieModel.t) :
  List.length (order_by_desc_id ms) = List.length ms.
Proof.
  induction ms as [|m rest IH]; simpl; [reflexivity|].
  rewrite insert_desc_length. congruence.
Qed.

(** A page within range holds at least one row. *)
Lemma page_slice_not_empty (ms : list MovieModel.t) (page per_page : Z) :
  1 <= page -> 0 < per_page ->
  page <= (Z.of_nat (List.length ms) + per_page - 1) / per_page ->
  firstn (Z.to_nat per_page)
         (skipn (Z.to_nat ((page - 1) * per_page)) (order_by_desc_id ms)) <> [].
Proof.
  intros Hpage Hp Hle Hnil.
  apply (f_equal (@List.length _)) in Hnil.
  rewrite length_firstn, length_skipn, order_by_desc_id_length in Hnil.
  simpl in Hnil.
  pose proof (total_pages_bracket (Z.of_nat (List.length ms)) per_page Hp) as Hb.
  simpl in Hb.
  assert (Hlt : (page - 1) * per_page < Z.of_nat (List.length ms)) by nia.
  assert (Hge : 0 <= (page - 1) * per_page) by nia.
  set (offset := (page - 1) * per_page) in *.
  lia.
Qed.

(** What [get_movies] returns, case by case. *)
Lemma get_movies_cases (store : Tables) (page per_page : Z) :
  1 <= page -> 0 < per_page ->
  let total_items := Z.of_nat (List.length (movies store)) in
  let total_pages := (total_items + per_page - 1) / per_page in
  (total_items = 0
   /\ request (get_movies page per_page) store
      = (inl (HTTPException 404 "No movies found."), store))
  \/ (total_items <> 0 /\ total_pages < page
      /\ request (get_movies page per_page) store
         = (inl (HTTPException 404 "No movies found."), store))
  \/ (total_items <> 0 /\ page <= total_pages
      /\ exists rows,
          request (get_movies page per_page) store
          = (inr (MovieListResponse.mk rows
                    (if page >? 1 then Some (page_link (page - 1) per_page)
                     else None)
                    (if page <? total_pages
                     then Some (page_link (page + 1) per_page) else None)
                    total_pages total_items), store)).
Proof.
  intros Hpage Hp total_items total_pages.
  unfold request, get_movies, bind, count_movies, select_movies_page, query,
    floordiv, no_movies_found, raise, ret; cbn [working committed fst snd].
  fold total_items.
  destruct (total_items =? 0) eqn:E0.
  - left. split; [lia | reflexivity].
  - right.
    destruct (per_page =? 0) eqn:Ep; [lia|]. cbn [working committed].
    fold total_pages.
    destruct (page >? total_pages) eqn:Egt.
    + left. split; [lia|]. split; [lia | reflexivity].
    + right. split; [lia|]. split; [lia|].
      cbn [working].
      pose proof (page_slice_not_empty (movies store) page per_page Hpage Hp)
        as Hne.
      fold total_items total_pages in Hne.
      destruct (firstn (Z.to_nat per_page)
                  (skipn (Z.to_nat ((page - 1) * per_page))
                     (order_by_desc_id (movies store)))) as [|row rows] eqn:Erows.
      * exfalso. apply Hne; [lia | reflexivity].
      * exists (row :: rows). reflexivity.
Qed.

(** C1. For a list request with total_items > 0, page >= 1, per_page in
    [1,20] and page <= total_pages, the handler answers, the answer's
    total_pages is the ceiling of total_items / per_page, prev_page is
    null exactly when page = 1, and next_page is null exactly when
    page = total_pages. *)
Theorem get_movies_pagination (store : Tables) (page per_page : Z) :
  let total_items := Z.of_nat (List.length (movies store)) in
  0 < total_items -> 1 <= page -> 1 <= per_page <= 20 ->
  page <= spec_total_pages total_items per_page ->
  exists response,
    request (get_movies page per_page) store = (inr response, store)
    /\ MovieListResponse.total_items response = total_items
    /\ MovieListResponse.total_pages response
       = spec_total_pages total_items per_page
    /\ (MovieListResponse.prev_page response = None <-> page = 1)
    /\ (MovieListResponse.next_page response = None
        <-> page = MovieListResponse.total_pages response).
Proof.
  intros total_items Htotal Hpage Hper Hle.
  rewrite spec_total_pages_floordiv in * by lia.
  pose proof (get_movies_cases store page per_page Hpage ltac:(lia)) as H.
  cbv zeta in H. fold total_items in H.
  destruct H as [H|[H|H]]; [lia | lia | ].
  destruct H as (_ & _ & rows & ->).
  eexists. split; [reflexivity|]. simpl.
  split; [reflexivity|]. split; [reflexivity|]. split.
  - destruct (page >? 1) eqn:E; split; intros; try discriminate; try lia;
      reflexivity.
  - destruct (page <? _) eqn:E; split; intros; try discriminate; try lia;
      reflexivity.
Qed.

(** C6. A list request (page >= 1, per_page in [1,20]) fails with 404
    exactly when there is no movie or the page exceeds total_pages, and it
    leaves the store as it was; page 999 with per_page 10 over five movies
    is a 404. *)
Theorem get_movies_not_found :
  (forall (store : Tables) (page per_page : Z),
      let total_items := Z.of_nat (List.length (movies store)) in
      1 <= page -> 1 <= per_page <= 20 ->
      (request (get_movies page per_page) store
       = (inl (HTTPException 404 "No movies found."), store)
       <-> total_items = 0
           \/ spec_total_pages total_items per_page < page)
      /\ ((exists e, fst (request (get_movies page per_page) store) = inl e)
          -> total_items = 0
             \/ spec_total_pages total_items per_page < page))
  /\ (forall store : Tables,
         List.length (movies store) = 5%nat ->
         request (get_movies 999 10) store
         = (inl (HTTPException 404 "No movies found."), store)).
Proof.
  assert (Hgen : forall (store : Tables) (page per_page : Z),
      let total_items := Z.of_nat (List.length (movies store)) in
      1 <= page -> 1 <= per_page <= 20 ->
      (request (get_movies page per_page) store
       = (inl (HTTPException 404 "No movies found."), store)
       <-> total_items = 0
           \/ spec_total_pages total_items per_page < page)
      /\ ((exists e, fst (request (get_movies page per_page) store) = inl e)
          -> total_items = 0
             \/ spec_total_pages total_items per_page < page)).
  { intros store page per_page total_items Hpage Hper.
    rewrite spec_total_pages_floordiv by lia.
    pose proof (get_movies_cases store page per_page Hpage ltac:(lia)) as H.
    cbv zeta in H. fold total_items in H.
    destruct H as [H|[H|H]].
    - destruct H as (H0 & ->). split; [split|]; auto.
    - destruct H as (H0 & Hlt & ->). split; [split|]; auto.
    - destruct H as (H0 & Hle & rows & ->). split; [split|].
      + discriminate.
      + lia.
      + intros [e He]. discriminate. }
  split; [exact Hgen|].
  intros store Hlen.
  apply (Hgen store 999 10); try lia.
  right. rewrite Hlen. vm_compute. reflexivity.
Qed.

(** ** The release-date validator *)

(** C9. While [date.today()] plus 365 days is a date, the validator fails
    with its descriptive [ValueError] exactly when the release date is
    more than 365 days after today, and otherwise returns the date: a
    date exactly 365 days ahead passes, and so does every date up to
    today. *)
Theorem date_validation_one_year (today : date) :
  date_min <= today -> today + 365 <= date_max ->
  (forall value,
      date_validation today value
      = inl (ValueError "The date must not be more than one year in the future.")
      <-> today + 365 < value)
  /\ (forall value,
         (exists e, date_validation today value = inl e) <-> today + 365 < value)
  /\ (forall value,
         date_validation today value = inr value <-> value <= today + 365)
  /\ date_validation today (today + 365) = inr (today + 365)
  /\ (forall value, value <= today -> date_validation today value = inr value).
Proof.
  intros Hmin Hmax.
  assert (Hadd : date_add_days today 365 = inr (today + 365)).
  { unfold date_add_days, date_min, date_max in *.
    destruct (1 <=? today + 365) eqn:E1; [|lia].
    destruct (today + 365 <=? 3652059) eqn:E2; [|lia].
    reflexivity. }
  assert (Hcases : forall value,
    (today + 365 < value
     /\ date_validation today value
        = inl (ValueError "The date must not be more than one year in the future."))
    \/ (value <= today + 365 /\ date_validation today value = inr value)).
  { intros value. unfold date_validation. rewrite Hadd.
    destruct (value >? today + 365) eqn:E; [left | right];
      (split; [lia | reflexivity]). }
  repeat split; intros.
  - destruct (Hcases value) as [[? _]|[_ E]]; [assumption | congruence].
  - destruct (Hcases value) as [[_ E]|[? _]]; [assumption | lia].
  - destruct H as [e He].
    destruct (Hcases value) as [[? _]|[_ E]]; [assumption | congruence].
  - destruct (Hcases value) as [[_ E]|[? _]]; [eauto | lia].
  - destruct (Hcases value) as [[_ E]|[? _]]; [congruence | assumption].
  - destruct (Hcases value) as [[? _]|[_ E]]; [lia | assumption].
  - destruct (Hcases (today + 365)) as [[? _]|[_ E]]; [lia | assumption].
  - destruct (Hcases value) as [[? _]|[_ E]]; [lia | assumption].
Qed.

(** ** Reading the tables *)

Lemma find_app {A} (f : A -> bool) (l1 l2 : list A) :
  find f (l1 ++ l2)
  = match find f l1 with Some x => Some x | None => find f l2 end.
Proof.
  induction l1 as [|a l1 IH]; simpl; [reflexivity|].
  destruct (f a); [reflexivity | exact IH].
Qed.

Lemma find_has_name_none (name : string) (rows : list NamedModel.t) :
  find (has_name name) rows = None <-> ~ In name (names rows).
Proof.
  unfold names, has_name. induction rows as [|r rows IH]; simpl.
  - tauto.
  - destruct (String.eqb_spec (NamedModel.name r) name) as [E|E].
    + split; [discriminate | intros H; exfalso; apply H; left; exact E].
    + rewrite IH. tauto.
Qed.

Lemma find_has_name_some (name : string) (rows : list NamedModel.t)
      (r : NamedModel.t) :
  find (has_name name) rows = Some r -> In r rows /\ NamedModel.name r = name.
Proof.
  intros H. apply find_some in H. destruct H as [Hin Hn].
  split; [assumption|]. unfold has_name in Hn.
  apply String.eqb_eq. exact Hn.
Qed.

Lemma lookup_table_set_same (model : Lookup) (rows : list NamedModel.t)
      (t : Tables) :
  lookup_table model (set_lookup_table model rows t) = rows.
Proof. destruct model; reflexivity. Qed.

Lemma set_lookup_table_twice (model : Lookup) (rows rows' : list NamedModel.t)
      (t : Tables) :
  set_lookup_table model rows' (set_lookup_table model rows t)
  = set_lookup_table model rows' t.
Proof. destruct model; reflexivity. Qed.

Lemma set_lookup_table_id (model : Lookup) (t : Tables) :
  set_lookup_table model (lookup_table model t) t = t.
Proof. destruct model, t; reflexivity. Qed.

Lemma next_id_fresh (ids : list Z) : ~ In (next_id ids) ids.
Proof.
  assert (H : forall i, In i ids -> i <= fold_right Z.max 0 ids).
  { induction ids as [|j ids IH]; simpl; [tauto|].
    intros i [->|Hi]; [lia|]. specialize (IH i Hi). lia. }
  intros Hin. apply H in Hin. unfold next_id in Hin. lia.
Qed.

(** ** Running a handler step by step *)

Lemma bind_inv {A B} (m : M A) (f : A -> M B) (s s' : Session)
      (r : Exception + B) :
  bind m f s = (r, s') ->
  (exists e, m s = (inl e, s') /\ r = inl e)
  \/ (exists a s1, m s = (inr a, s1) /\ f a s1 = (r, s')).
Proof.
  unfold bind. destruct (m s) as [[e|a] s1]; intros H.
  - left. exists e. inversion H; subst. auto.
  - right. exists a, s1. auto.
Qed.

Lemma query_inv {A} (f : Tables -> A) (s s' : Session) (r : Exception + A) :
  query f s = (r, s') -> r = inr (f (working s)) /\ s' = s.
Proof. unfold query. intros H. inversion H; auto. Qed.

Lemma register_inv (stmt : Statement) (s s' : Session) (r : Exception + unit) :
  register stmt s = (r, s') ->
  r = inr tt
  /\ s' = mkSession (committed s) (working s) (pending s ++ [stmt]).
Proof. unfold register. intros H. inversion H; auto. Qed.

Lemma ret_inv {A} (a : A) (s s' : Session) (r : Exception + A) :
  ret a s = (r, s') -> r = inr a /\ s' = s.
Proof. unfold ret. intros H. inversion H; auto. Qed.

Lemma raise_inv {A} (e : Exception) (s s' : Session) (r : Exception + A) :
  raise e s = (r, s') -> r = inl e /\ s' = s.
Proof. unfold raise. intros H. inversion H; auto. Qed.

(** Uses the equations between results that a step leaves behind. *)
Ltac settle :=
  repeat match goal with
    | H : _ /\ _ |- _ => destruct H
    | H : inl _ = inr _ |- _ => discriminate H
    | H : inr _ = inl _ |- _ => discriminate H
    | H : @inr _ _ _ = @inr _ _ _ |- _ => inversion H; clear H
    | H : @inl _ _ _ = @inl _ _ _ |- _ => inversion H; clear H
    | H : (_, _) = (_, _) |- _ => inversion H; clear H
    end; subst.

(** Splits a hypothesis [H : (x <- m ;; k) s = (r, s')] into the run of
    [m], as [Hm], and the run of [k], as [Hk]: two goals, the first for an
    exception raised by [m]. *)
Ltac split_bind H Hm Hk :=
  apply bind_inv in H;
  let e := fresh "e" in
  let a := fresh "a" in
  let s1 := fresh "s" in
  destruct H as [(e & Hm & Hk) | (a & s1 & Hm & Hk)];
  [try (match type of Hk with ?x = _ => is_var x; subst x end) | ].

(** Runs the statement of [H : m s = (r, s')]. *)
Ltac step H :=
  match type of H with
  | query _ _ = _ => apply query_inv in H; settle
  | register _ _ = _ => apply register_inv in H; settle
  | ret _ _ = _ => apply ret_inv in H; settle
  | raise _ _ = _ => apply raise_inv in H; settle
  end.

Section HandlerProperties.

Variable pycountry_countries_get : string -> option string.
Variable constraints : Tables -> Statement -> bool.

Lemma run_statements_none (stmts : list Statement) :
  forall t, run_statements constraints stmts t = None -> rejecting constraints.
Proof.
  induction stmts as [|stmt stmts IH]; intros t H; simpl in H; [discriminate|].
  destruct (accepted constraints t stmt) eqn:E; [eapply IH; eassumption|].
  exists t, stmt. destruct stmt; simpl in E; try exact E. discriminate.
Qed.

Lemma flush_inv (s s' : Session) (r : Exception + unit) :
  flush constraints s = (r, s') ->
  (r = inl IntegrityError /\ s' = s /\ rejecting constraints)
  \/ (exists t, run_statements constraints (pending s) (working s) = Some t
                /\ r = inr tt /\ s' = mkSession (committed s) t []).
Proof.
  unfold flush.
  destruct (run_statements constraints (pending s) (working s)) as [t|] eqn:E;
    intros H; inversion H; subst; [right; eauto | left].
  split; [reflexivity|]. split; [reflexivity|].
  eapply run_statements_none. eassumption.
Qed.

Lemma run_statements_app (l1 l2 : list Statement) (t : Tables) :
  run_statements constraints (l1 ++ l2) t
  = match run_statements constraints l1 t with
    | Some t1 => run_statements constraints l2 t1
    | None => None
    end.
Proof.
  revert t. induction l1 as [|stmt l1 IH]; intros t; simpl; [reflexivity|].
  destruct (accepted constraints t stmt); [apply IH | reflexivity].
Qed.

(** Flushed link rows are appended to their association table. *)
Lemma run_statements_links (model : Lookup) (links : list (Z * Z)) :
  forall (t t' : Tables),
    run_statements constraints (map (InsertLink model) links) t = Some t' ->
    t' = set_link_table model (link_table model t ++ links) t.
Proof.
  induction links as [|l links IH]; intros t t' H; simpl in H.
  - inversion H; subst. rewrite app_nil_r. destruct model, t'; reflexivity.
  - destruct (constraints t (InsertLink model l)); [|discriminate].
    apply IH in H. subst t'. simpl.
    destruct model; simpl; rewrite <- app_assoc; reflexivity.
Qed.

Lemma register_links_inv (model : Lookup) (movie_id : Z)
      (items : list NamedModel.t) :
  forall (s s' : Session) (r : Exception + unit),
    register_links model movie_id items s = (r, s') ->
    r = inr tt
    /\ s' = mkSession (committed s) (working s)
              (pending s
               ++ map (InsertLink model)
                      (map (fun obj => (movie_id, NamedModel.id obj)) items)).
Proof.
  induction items as [|obj items IH]; intros s s' r H; simpl in H.
  - step H. rewrite app_nil_r.
    match goal with |- context [committed ?x] => destruct x end; auto.
  - split_bind H Hreg Hrest; step Hreg.
    apply IH in Hrest. destruct Hrest as [-> ->]. simpl.
    rewrite <- app_assoc. auto.
Qed.

(** [obj = model(name=name); db.add(obj); await db.flush()]. *)
Lemma add_lookup_flush_inv (model : Lookup) (name : string)
      (s s' : Session) (r : Exception + NamedModel.t) :
  pending s = [] ->
  (obj <- add_lookup model name ;; flush constraints ;; ret obj) s = (r, s') ->
  let obj :=
    NamedModel.mk
      (next_id (map NamedModel.id (lookup_table model (working s)))) name in
  (r = inl IntegrityError /\ committed s' = committed s
   /\ rejecting constraints)
  \/ (r = inr obj
      /\ s' = mkSession (committed s)
               (set_lookup_table model
                  (lookup_table model (working s) ++ [obj]) (working s)) []).
Proof.
  intros Hp H obj.
  unfold add_lookup, bind, query, register, flush, ret in H.
  cbn [working pending committed] in H. rewrite Hp in H. simpl in H.
  fold obj in H.
  destruct (constraints (working s) (InsertLookup model obj)) eqn:E;
    inversion H; subst; [auto|].
  left. split; [reflexivity|]. split; [reflexivity|]. red. eauto.
Qed.

Lemma get_or_create_loop_inv (model : Lookup) :
  forall (name_list : list string) (items : list NamedModel.t)
         (s s' : Session) (r : Exception + list NamedModel.t),
    pending s = [] ->
    get_or_create_loop constraints model name_list items s = (r, s') ->
    committed s' = committed s
    /\ match r with
       | inl e => e = IntegrityError /\ rejecting constraints
       | inr items' =>
           pending s' = []
           /\ exists created objs,
               items' = items ++ objs
               /\ working s'
                  = set_lookup_table model
                      (lookup_table model (working s) ++ created) (working s)
               /\ resolved (lookup_table model (working s)) name_list
                           created objs
       end.
Proof.
  induction name_list as [|name name_list IH]; intros items s s' r Hp H;
    simpl in H.
  - step H. split; [reflexivity|]. split; [assumption|].
    exists [], []. rewrite !app_nil_r, set_lookup_table_id.
    repeat split; constructor.
  - split_bind H Hsel Hrest; step Hsel.
    fold (has_name name) in Hrest.
    destruct (find (has_name name) (lookup_table model (working s)))
      as [found|] eqn:Efind.
    + (* the name is in the table *)
      split_bind Hrest Hobj Hloop; step Hobj. rename Hloop into Hrest.
      apply IH in Hrest; [|assumption].
      destruct Hrest as [Hc Hr]. split; [assumption|].
      destruct r as [e|items']; [assumption|].
      destruct Hr as (Hp' & created & objs & -> & Hw & Hfa & Hcr & Hnd).
      split; [assumption|].
      exists created, (found :: objs). rewrite <- app_assoc.
      split; [reflexivity|]. split; [assumption|].
      split; [|split; [|assumption]].
      * constructor; [|assumption].
        rewrite find_app, Efind. reflexivity.
      * eapply Forall_impl; [|exact Hcr]. simpl. tauto.
    + (* a row is created for the name *)
      split_bind Hrest Hrun Hloop.
      * apply add_lookup_flush_inv in Hrun; [|assumption].
        destruct Hrun as [(E & Hc & Hrej)|[E _]]; [|discriminate].
        settle. auto.
      * apply add_lookup_flush_inv in Hrun; [|assumption].
        destruct Hrun as [(E & _)|[E Hs]]; [discriminate|].
        settle.
        apply IH in Hloop; [|reflexivity].
        cbn [committed working] in Hloop.
        destruct Hloop as [Hc Hr]. split; [assumption|].
        destruct r as [e|items']; [assumption|].
        destruct Hr as (Hp' & created & objs & -> & Hw & Hfa & Hcr & Hnd).
        split; [assumption|].
        rewrite lookup_table_set_same, set_lookup_table_twice in *.
        set (table := lookup_table model (working s)) in *.
        set (obj := NamedModel.mk (next_id (map NamedModel.id table)) name)
          in *.
        exists (obj :: created), (obj :: objs).
        rewrite <- !app_assoc in *. simpl in *.
        split; [reflexivity|]. split; [assumption|].
        apply find_has_name_none in Efind.
        assert (Hnames : forall o, In o created ->
                  ~ In (NamedModel.name o) (names table)
                  /\ NamedModel.name o <> name).
        { intros o Ho.
          rewrite Forall_forall in Hcr. destruct (Hcr o Ho) as [Hn _].
          unfold names in Hn. rewrite map_app, in_app_iff in Hn.
          simpl in Hn. split; [tauto|]. intros E. apply Hn. right. left.
          symmetry. exact E. }
        split; [|split].
        -- constructor; [|assumption].
           rewrite find_app.
           replace (find (has_name name) table) with (@None NamedModel.t)
             by (symmetry; apply find_has_name_none; exact Efind).
           simpl. unfold has_name at 1. simpl. rewrite String.eqb_refl.
           reflexivity.
        -- constructor; [simpl; tauto|].
           rewrite Forall_forall in *. intros o Ho.
           destruct (Hcr o Ho) as [_ Hin]. destruct (Hnames o Ho).
           split; [assumption | right; assumption].
        -- constructor; [|assumption].
           intros Hin.
           apply (in_map_iff NamedModel.name created) in Hin.
           destruct Hin as (o & Eo & Ho).
           destruct (Hnames o Ho). simpl in Eo. congruence.
Qed.

(** [country = CountryModel(...); db.add(country); await db.flush()]. *)
Lemma add_country_flush_inv (code name : string) (s s' : Session)
      (r : Exception + CountryModel.t) :
  pending s = [] ->
  (country <- add_country code name ;; flush constraints ;; ret country) s
  = (r, s') ->
  let country :=
    CountryModel.mk (next_id (map CountryModel.id (countries (working s))))
                    code (Some name) in
  (r = inl IntegrityError /\ committed s' = committed s
   /\ rejecting constraints)
  \/ (r = inr country
      /\ s' = mkSession (committed s)
               (set_countries (countries (working s) ++ [country]) (working s))
               []).
Proof.
  intros Hp H country.
  unfold add_country, bind, query, register, flush, ret in H.
  cbn [working pending committed] in H. rewrite Hp in H. simpl in H.
  fold country in H.
  destruct (constraints (working s) (InsertCountry country)) eqn:E;
    inversion H; subst; [auto|].
  left. split; [reflexivity|]. split; [reflexivity|]. red. eauto.
Qed.

Lemma add_movie_inv (movie : MovieCreateSchema.t) (country : CountryModel.t)
      (genres actors languages : list NamedModel.t) (s s' : Session)
      (r : Exception + MovieModel.t) :
  add_movie movie country genres actors languages s = (r, s') ->
  let movie_id := next_id (map MovieModel.id (movies (working s))) in
  let new_movie := new_movie_row movie movie_id country in
  r = inr new_movie
  /\ s' = mkSession (committed s) (working s)
            (pending s
             ++ [InsertMovie new_movie]
             ++ map (InsertLink GenreModel) (links_to movie_id genres)
             ++ map (InsertLink ActorModel) (links_to movie_id actors)
             ++ map (InsertLink LanguageModel) (links_to movie_id languages)).
Proof.
  intros H movie_id new_movie. unfold add_movie in H.
  fold movie_id in H.
  split_bind H Hq H; step Hq.
  split_bind H Hreg H; step Hreg.
  split_bind H Hg H; apply register_links_inv in Hg; settle.
  split_bind H Ha H; apply register_links_inv in Ha; settle.
  split_bind H Hl H; apply register_links_inv in Hl; settle.
  step H. cbn [committed working pending].
  split; [reflexivity|]. rewrite <- !app_assoc. reflexivity.
Qed.

Lemma commit_inv (s s' : Session) (r : Exception + unit) :
  commit constraints s = (r, s') ->
  (r = inl IntegrityError /\ s' = s /\ rejecting constraints)
  \/ (exists t, run_statements constraints (pending s) (working s) = Some t
                /\ r = inr tt /\ s' = mkSession t t []).
Proof.
  unfold commit. intros H. split_bind H Hf Hp.
  - apply flush_inv in Hf. destruct Hf as [(E & -> & Hrej)|(t & _ & E & _)];
      [settle; auto | discriminate].
  - apply flush_inv in Hf. destruct Hf as [(E & _)|(t & Et & _ & ->)];
      [discriminate|].
    unfold publish in Hp. cbn [working committed pending] in Hp.
    inversion Hp; subst. right. eauto.
Qed.

(** The flush of a new movie and of its link rows. *)
Lemma run_statements_new_movie (m : MovieModel.t)
      (lg la ll : list (Z * Z)) (t t' : Tables) :
  run_statements constraints
    ([InsertMovie m] ++ map (InsertLink GenreModel) lg
       ++ map (InsertLink ActorModel) la
       ++ map (InsertLink LanguageModel) ll) t = Some t' ->
  t' = mkTables (movies t ++ [m]) (countries t) (genres t) (actors t)
                (languages t) (movies_genres t ++ lg)
                (movies_actors t ++ la) (movies_languages t ++ ll).
Proof.
  intros H. rewrite run_statements_app in H.
  destruct (run_statements constraints [InsertMovie m] t) as [t1|] eqn:E1;
    [|discriminate].
  rewrite run_statements_app in H.
  destruct (run_statements constraints (map (InsertLink GenreModel) lg) t1)
    as [t2|] eqn:E2; [|discriminate].
  rewrite run_statements_app in H.
  destruct (run_statements constraints (map (InsertLink ActorModel) la) t2)
    as [t3|] eqn:E3; [|discriminate].
  apply run_statements_links in E2, E3, H. subst t' t3 t2.
  simpl in E1. unfold accepted in E1.
  destruct (constraints t (InsertMovie m)); [|discriminate].
  inversion E1; subst. reflexivity.
Qed.

Lemma refresh_found (movie_id : Z) (s : Session) (m : MovieModel.t) :
  In m (movies (working s)) -> MovieModel.id m = movie_id ->
  refresh movie_id s = (inr tt, s).
Proof.
  intros Hin Hid. unfold refresh, bind, query.
  destruct (find (fun m0 => MovieModel.id m0 =? movie_id)
                 (movies (working s))) eqn:E; [reflexivity|].
  exfalso. apply (find_none _ _ E) in Hin. lia.
Qed.

Lemma find_new_movie (ms : list MovieModel.t) (m : MovieModel.t) :
  MovieModel.id m = next_id (map MovieModel.id ms) ->
  find (fun m0 => MovieModel.id m0 =? MovieModel.id m) (ms ++ [m]) = Some m.
Proof.
  intros Hid. rewrite find_app.
  destruct (find (fun m0 => MovieModel.id m0 =? MovieModel.id m) ms)
    as [m'|] eqn:E.
  - exfalso. apply find_some in E. destruct E as [Hin E].
    apply (next_id_fresh (map MovieModel.id ms)).
    rewrite <- Hid. apply in_map_iff. exists m'. split; [lia | assumption].
  - simpl. rewrite Z.eqb_refl. reflexivity.
Qed.

Lemma post_movie_inv (movie : MovieCreateSchema.t) (store store' : Tables)
      (r : Exception + option MovieDetail.t) :
  request (post_movie pycountry_countries_get constraints movie) store
  = (r, store') ->
  (exists e, r = inl e /\ store' = store
             /\ post_movie_failure pycountry_countries_get constraints
                                   movie store e)
  \/ (exists detail,
        r = inr (Some detail)
        /\ post_movie_effect pycountry_countries_get movie store store' detail).
Proof.
  unfold request.
  destruct (post_movie pycountry_countries_get constraints movie
              (mkSession store store [])) as [r0 s'] eqn:Hrun.
  intros H. inversion H; subst r0 store'; clear H.
  unfold post_movie in Hrun.
  split_bind Hrun Hq Hrun; step Hq. cbn [working] in Hrun.
  destruct (find (name_date_is _ _) (movies store)) as [m|] eqn:Edup.
  { step Hrun. left. eexists. split; [reflexivity|]. split; [reflexivity|].
    left. eauto. }
  split_bind Hrun Hq Hrun; step Hq. cbn [working] in Hrun.
  (* the country *)
  split_bind Hrun Hc Hrun.
  { left. exists e.
    destruct (find _ (countries store)) eqn:Ec; [step Hc|].
    destruct (pycountry_countries_get _) eqn:Eiso.
    - apply add_country_flush_inv in Hc; [|reflexivity].
      destruct Hc as [(E & Hc & Hrej)|[Hc _]]; [|discriminate].
      settle. split; [reflexivity|]. split; [exact Hc|].
      right. right. auto.
    - step Hc. split; [reflexivity|]. split; [reflexivity|].
      right. left. auto. }
  assert (Hcountry : exists created,
             country_resolved pycountry_countries_get (countries store)
               (MovieCreateSchema.country movie) created a
             /\ s = mkSession store
                     (set_countries (countries store ++ created) store) []).
  { unfold country_resolved.
    destruct (find _ (countries store)) as [c|] eqn:Ec.
    - step Hc. exists []. rewrite app_nil_r.
      split; [left; auto | destruct store; reflexivity].
    - destruct (pycountry_countries_get _) as [name|] eqn:Eiso; [|step Hc].
      apply add_country_flush_inv in Hc; [|reflexivity].
      destruct Hc as [(Hc & _)|[Hc ->]]; [discriminate|].
      settle. cbn [working committed]. eexists. split; [|reflexivity].
      right. split; [reflexivity|]. eauto. }
  clear Hc. destruct Hcountry as (new_countries & Hcountry & ->).
  rename a into country.
  (* the genres, the actors, the languages *)
  unfold get_or_create in Hrun.
  split_bind Hrun Hg Hrun;
    (apply get_or_create_loop_inv in Hg; [|reflexivity]);
    cbn [committed working app] in Hg; destruct Hg as [Hcg Hg].
  { left. exists e. destruct Hg as [-> Hrej].
    split; [reflexivity|]. split; [exact Hcg|]. right. right. auto. }
  destruct Hg as (Hpg & new_genres & genres_ & -> & Hwg & Hg).
  split_bind Hrun Ha Hrun;
    (apply get_or_create_loop_inv in Ha; [|assumption]);
    cbn [app] in Ha; destruct Ha as [Hca Ha].
  { left. exists e. destruct Ha as [-> Hrej].
    split; [reflexivity|]. split; [congruence|]. right. right. auto. }
  destruct Ha as (Hpa & new_actors & actors_ & -> & Hwa & Ha).
  split_bind Hrun Hl Hrun;
    (apply get_or_create_loop_inv in Hl; [|assumption]);
    cbn [app] in Hl; destruct Hl as [Hcl Hl].
  { left. exists e. destruct Hl as [-> Hrej].
    split; [reflexivity|]. split; [congruence|]. right. right. auto. }
  destruct Hl as (Hpl & new_languages & languages_ & -> & Hwl & Hl).
  rewrite Hwg in Hwa, Ha. rewrite Hwa in Hwl, Hl.
  cbn [lookup_table set_lookup_table set_countries movies countries genres
       actors languages movies_genres movies_actors movies_languages]
    in Hwl, Ha, Hl, Hg.
  (* the movie *)
  split_bind Hrun Hm Hrun; apply add_movie_inv in Hm;
    destruct Hm as [Hm ->]; [discriminate|].
  match type of Hm with inr ?x = _ => injection Hm as Hm; subst x end.
  rewrite Hpl, Hwl in Hrun.
  cbn [movies app] in Hrun.
  set (new_movie :=
         new_movie_row movie (next_id (map MovieModel.id (movies store)))
                       country) in *.
  split_bind Hrun Hcommit Hrun; apply commit_inv in Hcommit;
    cbn [committed working pending] in Hcommit.
  { destruct Hcommit as [(E & -> & Hrej)|(t & _ & E & _)]; [|discriminate].
    left. exists e. settle. split; [reflexivity|].
    split; [cbn [committed]; congruence|]. right. right. auto. }
  destruct Hcommit as [(E & _)|(t & Et & _ & ->)]; [discriminate|].
  apply (run_statements_new_movie new_movie) in Et.
  cbn [movies countries genres actors languages movies_genres movies_actors
       movies_languages] in Et.
  assert (Hfind : find (fun m => MovieModel.id m =? MovieModel.id new_movie)
                       (movies t) = Some new_movie).
  { subst t. cbn [movies]. apply find_new_movie. reflexivity. }
  unfold bind in Hrun.
  rewrite (refresh_found (MovieModel.id new_movie) _ new_movie) in Hrun.
  - right. step Hrun. cbn [working committed].
    rewrite Hfind. eexists. split; [reflexivity|].
    exists country, new_countries, new_genres, new_actors, new_languages,
      genres_, actors_, languages_.
    cbv zeta. fold new_movie. repeat (split; [assumption|]).
    split; reflexivity.
  - cbn [working]. subst t. cbn [movies]. apply in_or_app. right. left.
    reflexivity.
  - reflexivity.
Qed.

(** A create request succeeds when the (name, date) pair is free, the
    country code is in the countries table or in the reference table, and
    the schema rejects nothing. *)
Lemma post_movie_succeeds (movie : MovieCreateSchema.t) (store : Tables) :
  find (name_date_is (MovieCreateSchema.name movie)
                     (MovieCreateSchema.date movie)) (movies store) = None ->
  (In (MovieCreateSchema.country movie)
      (map CountryModel.code (countries store))
   \/ pycountry_countries_get (MovieCreateSchema.country movie) <> None) ->
  (forall t stmt, constraints t stmt = true) ->
  exists detail store',
    request (post_movie pycountry_countries_get constraints movie) store
    = (inr (Some detail), store').
Proof.
  intros Hfree Hcode Hok.
  destruct (request (post_movie pycountry_countries_get constraints movie)
                    store) as [r store'] eqn:Hrun.
  apply post_movie_inv in Hrun.
  destruct Hrun as [(e & _ & _ & Hfail)|(detail & -> & _)]; [exfalso | eauto].
  destruct Hfail as [(_ & m & Hm)|[(_ & Hnone & Hiso)|(_ & t & stmt & Hrej)]].
  - congruence.
  - destruct Hcode as [Hin|Hknown]; [|contradiction].
    apply in_map_iff in Hin. destruct Hin as (c & Hc & Hin).
    apply (find_none _ _ Hnone) in Hin. rewrite Hc, String.eqb_refl in Hin.
    discriminate.
  - rewrite Hok in Hrej. discriminate.
Qed.

Lemma resolved_name (table created items : list NamedModel.t)
      (name_list : list string) (name : string) :
  resolved table name_list created items -> In name name_list ->
  exists obj, In obj items
              /\ find (has_name name) (table ++ created) = Some obj.
Proof.
  intros (Hfa & _ & _). revert name.
  induction Hfa as [|n obj name_list items Hn Hfa IH]; intros name Hin.
  - destruct Hin.
  - destruct Hin as [->|Hin].
    + exists obj. split; [left; reflexivity | assumption].
    + destruct (IH name Hin) as (o & Ho & Hf). exists o.
      split; [right; assumption | assumption].
Qed.

Lemma resolved_NoDup (table created items : list NamedModel.t)
      (name_list : list string) :
  resolved table name_list created items ->
  NoDup (names table) -> NoDup (names (table ++ created)).
Proof.
  intros (_ & Hcr & Hnd) Ht. unfold names in *. rewrite map_app.
  apply NoDup_app; [assumption | assumption |].
  intros name Hin Hin'. apply in_map_iff in Hin'.
  destruct Hin' as (o & <- & Ho). rewrite Forall_forall in Hcr.
  destruct (Hcr o Ho) as [Hno _]. exact (Hno Hin).
Qed.

Lemma resolved_filter (table created items : list NamedModel.t)
      (name_list : list string) (name : string) :
  resolved table name_list created items -> In name (names table) ->
  filter (has_name name) (table ++ created) = filter (has_name name) table.
Proof.
  intros (_ & Hcr & _) Hin. rewrite filter_app.
  replace (filter (has_name name) created) with (@nil NamedModel.t);
    [apply app_nil_r|].
  symmetry. rewrite Forall_forall in Hcr.
  induction created as [|o created IH]; [reflexivity|]. simpl.
  destruct (has_name name o) eqn:E.
  - exfalso. destruct (Hcr o (or_introl eq_refl)) as [Hno _].
    unfold has_name in E. apply String.eqb_eq in E. congruence.
  - apply IH. intros x Hx. apply Hcr. right. exact Hx.
Qed.

Lemma related_linked (model : Lookup) (t : Tables) (movie_id : Z)
      (row : NamedModel.t) :
  In row (lookup_table model t) ->
  In (movie_id, NamedModel.id row) (link_table model t) ->
  In row (related model t movie_id).
Proof.
  intros Hrow Hlink. unfold related. apply in_flat_map.
  exists (movie_id, NamedModel.id row). split; [assumption|].
  simpl. rewrite Z.eqb_refl. apply filter_In. split; [assumption|].
  apply Z.eqb_refl.
Qed.

(** The tables of a lookup model after a successful create request. *)
Lemma post_movie_effect_lookup (movie : MovieCreateSchema.t)
      (store store' : Tables) (detail : MovieDetail.t) (model : Lookup) :
  post_movie_effect pycountry_countries_get movie store store' detail ->
  exists created items,
    resolved (lookup_table model store) (requested movie model) created items
    /\ lookup_table model store' = lookup_table model store ++ created
    /\ link_table model store'
       = link_table model store
         ++ links_to (MovieModel.id (MovieDetail.movie detail)) items
    /\ loaded detail model
       = related model store' (MovieModel.id (MovieDetail.movie detail)).
Proof.
  intros (country & new_countries & cg & ca & cl & og & oa & ol & H).
  cbv zeta in H. destruct H as (_ & _ & Hg & Ha & Hl & -> & ->).
  destruct model; cbn [lookup_table link_table requested loaded];
    [exists cg, og | exists ca, oa | exists cl, ol];
    (split; [assumption|]); repeat split.
Qed.

(** C2. After a create request the names of each lookup table are
    still unique if they were; and when the request succeeds, a
    requested name that the lookup table already held has got no
    further row, and the movie is linked to the row that was there. *)
Theorem post_movie_reuses_existing_rows (movie : MovieCreateSchema.t)
        (store store' : Tables) (r : Exception + option MovieDetail.t) :
  request (post_movie pycountry_countries_get constraints movie) store
  = (r, store') ->
  (forall model,
      NoDup (names (lookup_table model store)) ->
      NoDup (names (lookup_table model store')))
  /\ (forall detail model name,
         r = inr (Some detail) ->
         In name (requested movie model) ->
         In name (names (lookup_table model store)) ->
         exists row,
           find (has_name name) (lookup_table model store) = Some row
           /\ filter (has_name name) (lookup_table model store')
              = filter (has_name name) (lookup_table model store)
           /\ In (MovieModel.id (MovieDetail.movie detail),
                  NamedModel.id row) (link_table model store')
           /\ In row (loaded detail model)).
Proof.
  intros Hrun. apply post_movie_inv in Hrun.
  destruct Hrun as [(e & -> & -> & _)|(detail & -> & Heff)].
  - split; [auto | discriminate].
  - split.
    + intros model Hnd.
      destruct (post_movie_effect_lookup _ _ _ _ model Heff)
        as (created & items & Hres & -> & _).
      eapply resolved_NoDup; eassumption.
    + intros detail' model name E Hreq Hin. injection E as <-.
      destruct (post_movie_effect_lookup _ _ _ _ model Heff)
        as (created & items & Hres & Htable & Hlinks & Hloaded).
      destruct (find (has_name name) (lookup_table model store))
        as [row|] eqn:Efind;
        [|apply find_has_name_none in Efind; contradiction].
      exists row. split; [reflexivity|].
      rewrite Htable, Hlinks, Hloaded.
      split; [eapply resolved_filter; eassumption|].
      destruct (resolved_name _ _ _ _ name Hres Hreq) as (obj & Hobj & Hf).
      rewrite find_app, Efind in Hf. injection Hf as <-.
      assert (Hlink : In (MovieModel.id (MovieDetail.movie detail),
                          NamedModel.id row)
                         (link_table model store
                          ++ links_to (MovieModel.id (MovieDetail.movie detail))
                               items)).
      { apply in_or_app. right. unfold links_to. apply in_map_iff.
        exists row. split; [reflexivity | assumption]. }
      split; [assumption|].
      apply related_linked; rewrite ?Htable, ?Hlinks; [|assumption].
      apply in_or_app. left. apply find_some in Efind. tauto.
Qed.

Lemma name_date_is_found (movie : MovieCreateSchema.t)
      (ms : list MovieModel.t) (m : MovieModel.t) :
  In m ms ->
  MovieModel.name m = Some (MovieCreateSchema.name movie) ->
  MovieModel.date m = Some (MovieCreateSchema.date movie) ->
  exists m', find (name_date_is (MovieCreateSchema.name movie)
                                (MovieCreateSchema.date movie)) ms = Some m'.
Proof.
  intros Hin Hname Hdate.
  destruct (find _ ms) as [m'|] eqn:E; [eauto|].
  apply (find_none _ _ E) in Hin. unfold name_date_is in Hin.
  rewrite Hname, Hdate, String.eqb_refl, Z.eqb_refl in Hin. discriminate.
Qed.

(** C3. A create request for a (name, date) pair that a movie of the
    store already has fails with 409 and leaves the store as it was; in
    particular a create request that follows a successful one for the
    same pair does. *)
Theorem post_movie_conflict :
  (forall (movie : MovieCreateSchema.t) (store : Tables) (m : MovieModel.t),
      In m (movies store) ->
      MovieModel.name m = Some (MovieCreateSchema.name movie) ->
      MovieModel.date m = Some (MovieCreateSchema.date movie) ->
      request (post_movie pycountry_countries_get constraints movie) store
      = (inl (HTTPException 409 (already_exists movie)), store))
  /\ (forall (first second : MovieCreateSchema.t) (store store' : Tables)
             (created : option MovieDetail.t),
         request (post_movie pycountry_countries_get constraints first) store
         = (inr created, store') ->
         MovieCreateSchema.name second = MovieCreateSchema.name first ->
         MovieCreateSchema.date second = MovieCreateSchema.date first ->
         request (post_movie pycountry_countries_get constraints second)
                 store'
         = (inl (HTTPException 409 (already_exists second)), store')).
Proof.
  assert (Hconflict :
    forall (movie : MovieCreateSchema.t) (store : Tables) (m : MovieModel.t),
      In m (movies store) ->
      MovieModel.name m = Some (MovieCreateSchema.name movie) ->
      MovieModel.date m = Some (MovieCreateSchema.date movie) ->
      request (post_movie pycountry_countries_get constraints movie) store
      = (inl (HTTPException 409 (already_exists movie)), store)).
  { intros movie store m Hin Hname Hdate.
    destruct (name_date_is_found movie _ m Hin Hname Hdate) as [m' E].
    unfold request, post_movie, bind, query. cbn [working].
    rewrite E. reflexivity. }
  split; [exact Hconflict|].
  intros first second store store' created Hrun Hname Hdate.
  apply post_movie_inv in Hrun.
  destruct Hrun as [(e & E & _)|(detail & _ & Heff)]; [discriminate|].
  destruct Heff as (country & nc & cg & ca & cl & og & oa & ol & Heff).
  cbv zeta in Heff. destruct Heff as (_ & _ & _ & _ & _ & -> & _).
  eapply Hconflict.
  - cbn [movies]. apply in_or_app. right. left. reflexivity.
  - simpl. congruence.
  - simpl. congruence.
Qed.

(** C5. A create request is all or nothing.  Either it fails (the pair
    is taken, the country code is unknown, or the schema rejects a
    statement at a flush or at the commit) and the store is as it was, or
    it answers with the created movie and the store holds the movie row,
    the country row of the requested code that the movie references, and
    for every requested genre, actor and language a row of that name
    linked to the movie. *)
Theorem post_movie_all_or_nothing (movie : MovieCreateSchema.t)
        (store : Tables) :
  let (r, store') :=
    request (post_movie pycountry_countries_get constraints movie) store in
  (exists e, r = inl e /\ store' = store
             /\ post_movie_failure pycountry_countries_get constraints
                                   movie store e)
  \/ (exists detail,
        let m := MovieDetail.movie detail in
        r = inr (Some detail)
        /\ In m (movies store')
        /\ (exists country,
               In country (countries store')
               /\ CountryModel.code country = MovieCreateSchema.country movie
               /\ MovieModel.country_id m = CountryModel.id country)
        /\ (forall model name,
               In name (requested movie model) ->
               exists row,
                 In row (lookup_table model store')
                 /\ NamedModel.name row = name
                 /\ In (MovieModel.id m, NamedModel.id row)
                       (link_table model store'))).
Proof.
  destruct (request (post_movie pycountry_countries_get constraints movie)
                    store) as [r store'] eqn:Hrun.
  apply post_movie_inv in Hrun.
  destruct Hrun as [(e & -> & -> & Hfail)|(detail & -> & Heff)];
    [left; eauto|].
  right. exists detail. cbv zeta. split; [reflexivity|].
  split; [|split].
  - destruct Heff as (country & nc & cg & ca & cl & og & oa & ol & Heff).
    cbv zeta in Heff. destruct Heff as (_ & _ & _ & _ & _ & -> & ->).
    cbn [movies MovieDetail.movie load_movie]. apply in_or_app. right. left.
    reflexivity.
  - destruct Heff as (country & nc & cg & ca & cl & og & oa & ol & Heff).
    cbv zeta in Heff. destruct Heff as (_ & Hc & _ & _ & _ & -> & ->).
    exists country. cbn [countries MovieDetail.movie load_movie].
    destruct Hc as [[Hc ->]|(Hc & name & _ & -> & ->)].
    + apply find_some in Hc. destruct Hc as [Hin Hcode].
      apply String.eqb_eq in Hcode. rewrite app_nil_r. auto.
    + split; [apply in_or_app; right; left; reflexivity|]. auto.
  - intros model name Hreq.
    destruct (post_movie_effect_lookup _ _ _ _ model Heff)
      as (created & items & Hres & -> & -> & _).
    destruct (resolved_name _ _ _ _ name Hres Hreq) as (obj & Hobj & Hf).
    apply find_has_name_some in Hf. destruct Hf as [Hin Hname].
    exists obj. split; [assumption|]. split; [assumption|].
    apply in_or_app. right. unfold links_to. apply in_map_iff.
    exists obj. auto.
Qed.

(** C8. When a create request succeeds: if no country row had the
    requested code, the reference table names the code, one country row
    with the code and that name has been inserted, and the movie
    references it; if a row had the code, no country row has been
    inserted and the movie references the row with the code. *)
Theorem post_movie_country (movie : MovieCreateSchema.t)
        (store store' : Tables) (detail : MovieDetail.t) :
  request (post_movie pycountry_countries_get constraints movie) store
  = (inr (Some detail), store') ->
  let code := MovieCreateSchema.country movie in
  let m := MovieDetail.movie detail in
  (~ In code (map CountryModel.code (countries store)) ->
   exists name country,
     pycountry_countries_get code = Some name
     /\ CountryModel.code country = code
     /\ CountryModel.name country = Some name
     /\ ~ In (CountryModel.id country)
             (map CountryModel.id (countries store))
     /\ countries store' = countries store ++ [country]
     /\ MovieModel.country_id m = CountryModel.id country)
  /\ (In code (map CountryModel.code (countries store)) ->
      exists country,
        In country (countries store)
        /\ CountryModel.code country = code
        /\ countries store' = countries store
        /\ MovieModel.country_id m = CountryModel.id country).
Proof.
  intros Hrun code m. apply post_movie_inv in Hrun.
  destruct Hrun as [(e & E & _)|(detail' & E & Heff)]; [discriminate|].
  injection E as <-.
  destruct Heff as (country & nc & cg & ca & cl & og & oa & ol & Heff).
  cbv zeta in Heff. destruct Heff as (_ & Hc & _ & _ & _ & -> & ->).
  subst m. cbn [countries MovieDetail.movie load_movie].
  fold code in Hc.
  destruct Hc as [[Hc ->]|(Hc & name & Hiso & -> & ->)].
  - apply find_some in Hc. destruct Hc as [Hin Hcode].
    apply String.eqb_eq in Hcode. split.
    + intros Hno. exfalso. apply Hno. apply in_map_iff. eauto.
    + intros _. exists country. rewrite app_nil_r. auto.
  - split.
    + intros _. exists name.
      exists (CountryModel.mk
                (next_id (map CountryModel.id (countries store)))
                code (Some name)).
      split; [exact Hiso|].
      split; [reflexivity|]. split; [reflexivity|].
      split; [apply next_id_fresh|]. auto.
    + intros Hin. exfalso. apply in_map_iff in Hin.
      destruct Hin as (c & Hcode & Hin).
      apply (find_none _ _ Hc) in Hin. rewrite Hcode in Hin.
      rewrite String.eqb_refl in Hin. discriminate.
Qed.

(** *** Looking a movie up by its key *)

Lemma select_movie_run (movie_id : Z) (s : Session) :
  select_movie movie_id s
  = if in_key_range movie_id
    then match filter (fun m => MovieModel.id m =? movie_id)
                      (movies (working s))
         with
         | [] => (inr None, s)
         | [m] => (inr (Some (load_movie (working s) m)), s)
         | _ :: _ :: _ => (inl MultipleResultsFound, s)
         end
    else (inl OverflowError, s).
Proof.
  unfold select_movie, bind_parameter, bind, query, scalar_one_or_none.
  destruct (in_key_range movie_id); [|reflexivity]. unfold ret at 1.
  destruct (filter _ (movies (working s))) as [|m [|m' ms]]; reflexivity.
Qed.

Lemma filter_absent (movie_id : Z) (ms : list MovieModel.t) :
  ~ In movie_id (map MovieModel.id ms) ->
  filter (fun m => MovieModel.id m =? movie_id) ms = [].
Proof.
  induction ms as [|m ms IH]; simpl; [reflexivity|]. intros Hno.
  destruct (MovieModel.id m =? movie_id) eqn:E; [exfalso; apply Hno; lia|].
  apply IH. tauto.
Qed.

(** Under the primary key, a key selects one row. *)
Lemma filter_primary_key (movie_id : Z) (ms : list MovieModel.t) :
  NoDup (map MovieModel.id ms) -> In movie_id (map MovieModel.id ms) ->
  exists m, In m ms /\ MovieModel.id m = movie_id
            /\ filter (fun m => MovieModel.id m =? movie_id) ms = [m].
Proof.
  induction ms as [|m ms IH]; simpl; intros Hnd Hin; [destruct Hin|].
  inversion Hnd as [|? ? Hno Hnd']; subst.
  destruct (MovieModel.id m =? movie_id) eqn:E.
  - exists m. apply Z.eqb_eq in E. split; [auto|]. split; [assumption|].
    rewrite filter_absent; [reflexivity | congruence].
  - destruct Hin as [Hin|Hin]; [lia|].
    destruct (IH Hnd' Hin) as (m' & Hm' & Hid & Hf).
    exists m'. auto.
Qed.

Lemma filter_key_found (movie_id : Z) (ms : list MovieModel.t)
      (m : MovieModel.t) (rest : list MovieModel.t) :
  filter (fun m => MovieModel.id m =? movie_id) ms = m :: rest ->
  In m ms /\ MovieModel.id m = movie_id.
Proof.
  intros H. assert (Hin : In m (filter (fun m => MovieModel.id m =? movie_id) ms))
    by (rewrite H; left; reflexivity).
  apply filter_In in Hin. destruct Hin as [Hin E]. split; [assumption | lia].
Qed.

(** *** DELETE *)

Lemma delete_movie_inv (movie_id : Z) (store store' : Tables)
      (r : Exception + unit) :
  request (delete_movie constraints movie_id) store = (r, store') ->
  (exists e, r = inl e /\ store' = store
             /\ (in_key_range movie_id = true ->
                 (e = HTTPException 404
                        "Movie with the given ID was not found."
                  <-> ~ In movie_id (map MovieModel.id (movies store))))
             /\ (in_key_range movie_id = false -> e = OverflowError))
  \/ (r = inr tt /\ In movie_id (map MovieModel.id (movies store))
      /\ in_key_range movie_id = true
      /\ store' = apply_statement (DeleteMovie movie_id) store).
Proof.
  unfold request, delete_movie, bind. rewrite select_movie_run.
  cbn [working].
  destruct (in_key_range movie_id) eqn:Hrange;
    [|intros H; injection H as <- <-; left; eexists;
      split; [reflexivity|]; split; [reflexivity|];
      split; [discriminate | reflexivity]].
  destruct (filter _ (movies store)) as [|m [|m' ms]] eqn:Ef.
  - unfold movie_not_found, raise. intros H. injection H as <- <-. left.
    eexists. split; [reflexivity|]. split; [reflexivity|].
    split; [|discriminate]. intros _.
    split; [|reflexivity]. intros _ Hin. apply in_map_iff in Hin.
    destruct Hin as (m & Hid & Hin).
    assert (Hf : In m (filter (fun m => MovieModel.id m =? movie_id)
                              (movies store)))
      by (apply filter_In; split; [assumption | lia]).
    rewrite Ef in Hf. destruct Hf.
  - apply filter_key_found in Ef. destruct Ef as [Hin Hid].
    unfold register, commit, bind, flush, publish.
    cbn [working committed pending app MovieDetail.movie load_movie
         run_statements accepted].
    rewrite Hid. intros H. injection H as <- <-. right.
    split; [reflexivity|]. split; [|split; reflexivity].
    apply in_map_iff. eauto.
  - apply filter_key_found in Ef. destruct Ef as [Hin Hid].
    intros H. injection H as <- <-. left.
    eexists. split; [reflexivity|]. split; [reflexivity|].
    split; [|discriminate]. intros _.
    split; [discriminate|]. intros Hno. exfalso. apply Hno.
    apply in_map_iff. eauto.
Qed.

(** C7. A delete request whose id the driver can bind (an id within
    the range of the key), for an id that no movie has, fails with 404
    and leaves the store as it was.  For the id of a movie (ids being
    the primary key) it succeeds: the movie row and the link rows of the
    movie are gone, the other movies and link rows are kept, and the
    country, genre, actor and language tables are what they were. *)
Theorem delete_movie_frame (movie_id : Z) (store : Tables) :
  in_key_range movie_id = true ->
  (~ In movie_id (map MovieModel.id (movies store)) ->
   request (delete_movie constraints movie_id) store
   = (inl (HTTPException 404 "Movie with the given ID was not found."),
      store))
  /\ (In movie_id (map MovieModel.id (movies store)) ->
      NoDup (map MovieModel.id (movies store)) ->
      exists store',
        request (delete_movie constraints movie_id) store = (inr tt, store')
        /\ movies store'
           = filter (fun m => negb (MovieModel.id m =? movie_id))
                    (movies store)
        /\ ~ In movie_id (map MovieModel.id (movies store'))
        /\ (forall model,
               link_table model store'
               = filter (fun l => negb (fst l =? movie_id))
                        (link_table model store)
               /\ ~ In movie_id (map fst (link_table model store')))
        /\ countries store' = countries store
        /\ (forall model,
               lookup_table model store' = lookup_table model store)).
Proof.
  intros Hrange.
  destruct (request (delete_movie constraints movie_id) store)
    as [r store'] eqn:Hrun.
  pose proof (delete_movie_inv _ _ _ _ Hrun) as Hinv.
  split.
  - intros Hno.
    destruct Hinv as [(e & -> & -> & He & _)|(_ & Hin & _)]; [|contradiction].
    apply (He Hrange) in Hno. subst e. reflexivity.
  - intros Hin Hnd.
    destruct (filter_primary_key movie_id _ Hnd Hin) as (m & Hm & Hid & Hf).
    assert (Hok : r = inr tt
                  /\ store' = apply_statement (DeleteMovie movie_id) store).
    { revert Hrun. unfold request, delete_movie, bind.
      rewrite select_movie_run, Hrange. cbn [working]. rewrite Hf.
      unfold register, commit, bind, flush, publish.
      cbn [working committed pending app MovieDetail.movie load_movie
           run_statements accepted].
      rewrite Hid. intros H. inversion H; subst. auto. }
    destruct Hok as [-> ->]. eexists. split; [reflexivity|].
    cbn [apply_statement delete_movie_rows movies countries].
    split; [reflexivity|].
    split; [|split; [|split; [reflexivity|]]].
    + intros Hin'. apply in_map_iff in Hin'.
      destruct Hin' as (x & Hx & Hin'). apply filter_In in Hin'.
      destruct Hin' as [_ E]. rewrite Hx, Z.eqb_refl in E. discriminate.
    + intros model. split; [destruct model; reflexivity|].
      intros Hin'. apply in_map_iff in Hin'.
      destruct Hin' as (l & Hl & Hin').
      assert (Hl' : In l (delete_links movie_id (link_table model store)))
        by (destruct model; exact Hin').
      apply filter_In in Hl'. destruct Hl' as [_ E].
      rewrite Hl, Z.eqb_refl in E. discriminate.
    + intros model. destruct model; reflexivity.
Qed.

(** *** PATCH *)

(** The [setattr] loop over the set fields is the spec's update. *)
Lemma setattr_loop_spec (u : MovieUpdateSchema.t) (m : MovieModel.t) :
  fold_left setattr (dict_exclude_unset u) m = spec_partial_update u m.
Proof.
  destruct m, u as [n d sc o st b rv].
  unfold dict_exclude_unset, spec_partial_update. cbn [MovieUpdateSchema.name
    MovieUpdateSchema.date MovieUpdateSchema.score MovieUpdateSchema.overview
    MovieUpdateSchema.status MovieUpdateSchema.budget
    MovieUpdateSchema.revenue].
  destruct n, d, sc, o, st, b, rv; reflexivity.
Qed.

Lemma dict_exclude_unset_nil (u : MovieUpdateSchema.t) (m : MovieModel.t) :
  dict_exclude_unset u = [] -> spec_partial_update u m = m.
Proof.
  intros H. rewrite <- setattr_loop_spec, H. reflexivity.
Qed.

Lemma update_movie_inv (movie_id : Z) (u : MovieUpdateSchema.t)
      (store store' : Tables) (r : Exception + string) :
  request (update_movie constraints movie_id u) store = (r, store') ->
  (exists e, r = inl e /\ store' = store)
  \/ (exists m,
        In m (movies store) /\ MovieModel.id m = movie_id
        /\ (forall x, In x (movies store) -> MovieModel.id x = movie_id ->
                      x = m)
        /\ r = inr "Movie updated successfully."
        /\ store' = set_movies
                      (update_rows (spec_partial_update u m) (movies store))
                      store).
Proof.
  unfold request, update_movie. unfold bind at 1. rewrite select_movie_run.
  cbn [working].
  destruct (in_key_range movie_id);
    [|intros H; injection H as <- <-; left; eauto].
  destruct (filter _ (movies store)) as [|m [|m' ms]] eqn:Ef.
  - intros H. injection H as <- <-. left. eauto.
  - destruct (filter_key_found _ _ _ _ Ef) as [Hin Hid].
    cbn [MovieDetail.movie load_movie]. rewrite setattr_loop_spec.
    set (row := spec_partial_update u m).
    assert (Hrow : MovieModel.id row = MovieModel.id m) by reflexivity.
    assert (Hone : forall x, In x (movies store) ->
                             MovieModel.id x = movie_id -> x = m).
    { intros x Hx Ex.
      assert (Hf : In x (filter (fun m => MovieModel.id m =? movie_id)
                                (movies store)))
        by (apply filter_In; split; [assumption | lia]).
      rewrite Ef in Hf. destruct Hf as [Hf|[]]. symmetry. exact Hf. }
    destruct (dict_exclude_unset u) as [|i items] eqn:Eitems.
    + (* nothing to flush *)
      assert (E : row = m) by (apply dict_exclude_unset_nil; exact Eitems).
      unfold bind, ret, commit, bind, flush, publish.
      cbn [working committed pending run_statements].
      rewrite (refresh_found (MovieModel.id row) _ m);
        [|exact Hin | congruence].
      intros H. injection H as <- <-. right. exists m.
      repeat (split; [assumption || reflexivity|]).
      fold row. rewrite E. unfold update_rows.
      rewrite (map_ext_in _ (fun x => x)), map_id;
        [destruct store; reflexivity|].
      intros x Hx.
      destruct (MovieModel.id x =? MovieModel.id m) eqn:Ex; [|reflexivity].
      symmetry. apply Hone; [assumption | lia].
    + unfold bind, register, commit, bind, flush, publish.
      cbn [working committed pending app run_statements accepted].
      destruct (constraints store (UpdateMovie row)).
      * cbn [apply_statement working committed].
        rewrite (refresh_found (MovieModel.id row) _ row).
        -- intros H. injection H as <- <-. right. exists m.
           repeat (split; [assumption || reflexivity|]). reflexivity.
        -- cbn [working movies set_movies]. apply in_map_iff. exists m.
           rewrite Hrow, Z.eqb_refl. auto.
        -- reflexivity.
      * intros H. injection H as <- <-. left. eauto.
  - intros H. injection H as <- <-. left. eauto.
Qed.

(** A request that the handler answers had an id the driver can bind. *)
Lemma update_movie_in_range (movie_id : Z) (u : MovieUpdateSchema.t)
      (store store' : Tables) (msg : string) :
  request (update_movie constraints movie_id u) store = (inr msg, store') ->
  in_key_range movie_id = true.
Proof.
  unfold request, update_movie. unfold bind at 1. rewrite select_movie_run.
  destruct (in_key_range movie_id); [reflexivity|]. discriminate.
Qed.

Lemma Forall2_map_in {A} (R : A -> A -> Prop) (f : A -> A) (l : list A) :
  (forall x, In x l -> R x (f x)) -> Forall2 R l (map f l).
Proof.
  induction l as [|a l IH]; intros H; simpl; constructor.
  - apply H. left. reflexivity.
  - apply IH. intros x Hx. apply H. right. exact Hx.
Qed.

(** What an update request does to the rows of the movies table. *)
Lemma update_movie_rows (movie_id : Z) (u : MovieUpdateSchema.t)
      (store store' : Tables) (r : Exception + string) :
  request (update_movie constraints movie_id u) store = (r, store') ->
  store' = set_movies (movies store') store
  /\ Forall2 (fun m m' =>
                m' = m
                \/ (MovieModel.id m = movie_id
                    /\ m' = spec_partial_update u m))
             (movies store) (movies store')
  /\ (forall m, (exists msg, r = inr msg) -> In m (movies store) ->
                MovieModel.id m = movie_id ->
                In (spec_partial_update u m) (movies store')).
Proof.
  intros Hrun. apply update_movie_inv in Hrun.
  destruct Hrun as [(e & -> & ->)|(m & Hin & Hid & Hone & -> & ->)].
  - split; [destruct store; reflexivity|]. split.
    + rewrite <- (map_id (movies store)) at 2.
      apply Forall2_map_in. auto.
    + intros m [msg E]. discriminate.
  - split; [reflexivity|]. cbn [movies set_movies]. split.
    + apply Forall2_map_in. intros x Hx.
      change (MovieModel.id (spec_partial_update u m)) with (MovieModel.id m).
      destruct (MovieModel.id x =? MovieModel.id m) eqn:Ex; [|auto].
      right. assert (x = m) by (apply Hone; [assumption | lia]).
      subst x. auto.
    + intros x _ Hx Ex. assert (x = m) by (apply Hone; assumption).
      subst x. unfold update_rows. apply in_map_iff. exists m.
      change (MovieModel.id (spec_partial_update u m)) with (MovieModel.id m).
      rewrite Z.eqb_refl. auto.
Qed.

(** C4. An update request changes, in the movie with the given id, only
    the fields the payload sets: every movie row is what it was, or is
    the row with the id and has become the spec's partial update of it,
    in which each absent field has its prior value.  A payload that
    sets only score leaves a row as it was or changes its score alone.
    When the request succeeds the row is the updated one. *)
Theorem update_movie_partial (movie_id : Z) (u : MovieUpdateSchema.t)
        (store store' : Tables) (r : Exception + string) :
  request (update_movie constraints movie_id u) store = (r, store') ->
  Forall2
    (fun m m' =>
       (m' = m
        \/ (MovieModel.id m = movie_id /\ m' = spec_partial_update u m))
       /\ MovieModel.id m' = MovieModel.id m
       /\ MovieModel.country_id m' = MovieModel.country_id m
       /\ (MovieUpdateSchema.name u = NotSet ->
           MovieModel.name m' = MovieModel.name m)
       /\ (MovieUpdateSchema.date u = NotSet ->
           MovieModel.date m' = MovieModel.date m)
       /\ (MovieUpdateSchema.score u = NotSet ->
           MovieModel.score m' = MovieModel.score m)
       /\ (MovieUpdateSchema.overview u = NotSet ->
           MovieModel.overview m' = MovieModel.overview m)
       /\ (MovieUpdateSchema.status u = NotSet ->
           MovieModel.status m' = MovieModel.status m)
       /\ (MovieUpdateSchema.budget u = NotSet ->
           MovieModel.budget m' = MovieModel.budget m)
       /\ (MovieUpdateSchema.revenue u = NotSet ->
           MovieModel.revenue m' = MovieModel.revenue m))
    (movies store) (movies store')
  /\ (forall value,
         u = MovieUpdateSchema.mk NotSet NotSet (IsSet value) NotSet NotSet
                                  NotSet NotSet ->
         Forall2
           (fun m m' =>
              m' = m
              \/ m' = MovieModel.mk
                        (MovieModel.id m) (MovieModel.name m)
                        (MovieModel.date m) value (MovieModel.overview m)
                        (MovieModel.status m) (MovieModel.budget m)
                        (MovieModel.revenue m) (MovieModel.country_id m))
           (movies store) (movies store'))
  /\ (forall m,
         (exists msg, r = inr msg) -> In m (movies store) ->
         MovieModel.id m = movie_id ->
         In (spec_partial_update u m) (movies store'))
  /\ store' = set_movies (movies store') store.
Proof.
  intros Hrun. apply update_movie_rows in Hrun.
  destruct Hrun as (Hstore & Hrows & Hdone).
  split; [|split; [|split; assumption]].
  - eapply Forall2_impl; [|exact Hrows]. intros m m' [->|[Hid ->]].
    + repeat split; auto.
    + split; [auto|]. unfold spec_partial_update. cbn.
      repeat split; intros ->; reflexivity.
  - intros value ->. eapply Forall2_impl; [|exact Hrows].
    intros m m' [->|[Hid ->]]; [left | right]; reflexivity.
Qed.

(** C10. Whatever the payload, an update request leaves the country,
    genre, actor and language tables and the three association tables
    as they were, and every movie keeps its id and its country
    reference. *)
Theorem update_movie_keeps_relations (movie_id : Z)
        (u : MovieUpdateSchema.t) (store store' : Tables)
        (r : Exception + string) :
  request (update_movie constraints movie_id u) store = (r, store') ->
  countries store' = countries store
  /\ (forall model,
         lookup_table model store' = lookup_table model store
         /\ link_table model store' = link_table model store)
  /\ Forall2 (fun m m' =>
                MovieModel.id m' = MovieModel.id m
                /\ MovieModel.country_id m' = MovieModel.country_id m)
             (movies store) (movies store')
  /\ (forall model m m',
         In (m, m') (combine (movies store) (movies store')) ->
         related model store' (MovieModel.id m')
         = related model store (MovieModel.id m)).
Proof.
  intros Hrun. apply update_movie_rows in Hrun.
  destruct Hrun as (Hstore & Hrows & _).
  assert (Hkeys : Forall2 (fun m m' =>
                     MovieModel.id m' = MovieModel.id m
                     /\ MovieModel.country_id m' = MovieModel.country_id m)
                    (movies store) (movies store')).
  { eapply Forall2_impl; [|exact Hrows].
    intros m m' [->|[_ ->]]; split; reflexivity. }
  assert (Htables : forall model,
             lookup_table model store' = lookup_table model store
             /\ link_table model store' = link_table model store).
  { intros model. rewrite Hstore. destruct model; split; reflexivity. }
  split; [rewrite Hstore; reflexivity|].
  split; [exact Htables|]. split; [exact Hkeys|].
  intros model m m' Hin.
  assert (Hid : MovieModel.id m' = MovieModel.id m).
  { clear - Hkeys Hin. induction Hkeys as [|x y l l' [Hxy _] _ IH];
      simpl in Hin; [destruct Hin|].
    destruct Hin as [E|Hin]; [injection E as <- <-; assumption | auto]. }
  unfold related. destruct (Htables model) as [-> ->]. rewrite Hid.
  reflexivity.
Qed.

(** *** The primary key *)

(** Removing rows keeps the remaining keys distinct. *)
Lemma primary_key_filter (keep : MovieModel.t -> bool)
      (ms : list MovieModel.t) :
  NoDup (map MovieModel.id ms) -> NoDup (map MovieModel.id (filter keep ms)).
Proof.
  intros Hnd. induction ms as [|m ms IH]; simpl; [constructor|].
  simpl in Hnd. apply NoDup_cons_iff in Hnd. destruct Hnd as [Hfresh Hnd].
  destruct (keep m); [|exact (IH Hnd)].
  simpl. apply NoDup_cons; [|exact (IH Hnd)].
  intros Hin. apply Hfresh. apply in_map_iff in Hin.
  destruct Hin as (m' & Hid & Hin). apply filter_In in Hin.
  apply in_map_iff. exists m'. tauto.
Qed.

(** The ids of the movies stay distinct under every handler that writes:
    the primary key is an invariant of the store. *)
Lemma primary_key_kept (store store' : Tables) :
  NoDup (map MovieModel.id (movies store)) ->
  (forall movie r,
      request (post_movie pycountry_countries_get constraints movie) store
      = (r, store') -> NoDup (map MovieModel.id (movies store')))
  /\ (forall movie_id r,
         request (delete_movie constraints movie_id) store = (r, store') ->
         NoDup (map MovieModel.id (movies store')))
  /\ (forall movie_id u r,
         request (update_movie constraints movie_id u) store = (r, store') ->
         NoDup (map MovieModel.id (movies store'))).
Proof.
  intros Hnd. split; [|split].
  - intros movie r Hrun. apply post_movie_inv in Hrun.
    destruct Hrun as [(e & _ & -> & _)|(detail & _ & Heff)]; [assumption|].
    destruct Heff as (country & nc & cg & ca & cl & og & oa & ol & Heff).
    cbv zeta in Heff. destruct Heff as (_ & _ & _ & _ & _ & -> & _).
    cbn [movies]. rewrite map_app. apply NoDup_app; [assumption| |].
    + constructor; [intros [] | constructor].
    + intros i Hi [<-|[]]. exact (next_id_fresh _ Hi).
  - intros movie_id r Hrun. apply delete_movie_inv in Hrun.
    destruct Hrun as [(e & _ & -> & _)|(_ & _ & _ & ->)]; [assumption|].
    cbn [apply_statement delete_movie_rows movies].
    apply primary_key_filter. assumption.
  - intros movie_id u r Hrun. apply update_movie_rows in Hrun.
    destruct Hrun as (_ & Hrows & _).
    replace (map MovieModel.id (movies store'))
      with (map MovieModel.id (movies store)); [assumption|].
    clear - Hrows. induction Hrows as [|m m' l l' H _ IH]; [reflexivity|].
    simpl. rewrite IH. destruct H as [->|[_ ->]]; reflexivity.
Qed.

End HandlerProperties.

(** ** The sample catalog *)

(** The example of the spec: creating Dune resolves the country and the
    genre, and repeating the request is a conflict. *)
Example post_dune :
  request (post_movie iso3166 no_constraints dune) empty_tables
  = (inr (Some dune_detail), catalog1).
Proof. vm_compute. reflexivity. Qed.

Example post_dune_again :
  request (post_movie iso3166 no_constraints dune) catalog1
  = (inl (HTTPException 409
       "A movie with the name 'Dune' and release date '2026-11-13' already exists."),
     catalog1).
Proof. vm_compute. reflexivity. Qed.

Example post_solaris :
  request (post_movie iso3166 no_constraints solaris) catalog1
  = (inr (Some solaris_detail), catalog2).
Proof. vm_compute. reflexivity. Qed.

(** A flush that fails after the country row has been flushed: nothing of
    the request is in the store. *)
Example post_rolled_back :
  request
    (post_movie iso3166 short_names
       (MovieCreateSchema.mk "Dune" 739933 90%float "Arrakis." Released
          1%float 1%float "USA" ["Sci-Fi"; "Science fiction"] [] []))
    empty_tables
  = (inl IntegrityError, empty_tables).
Proof. vm_compute. reflexivity. Qed.

Example post_unknown_country :
  request
    (post_movie iso3166 no_constraints
       (MovieCreateSchema.mk "Tenet" 737664 78%float "Inversion." Released
          1%float 1%float "XXX" ["Sci-Fi"] [] []))
    catalog1
  = (inl AttributeError, catalog1).
Proof. vm_compute. reflexivity. Qed.

Example get_second_page :
  request (get_movies 2 1) catalog2
  = (inr (MovieListResponse.mk
            [new_movie_row dune 1 usa]
            (Some "/theater/movies/?page=1&per_page=1") None 2 2),
     catalog2).
Proof. vm_compute. reflexivity. Qed.

Example patch_score :
  request (update_movie no_constraints 1 (only_score 55%float)) catalog2
  = (inr "Movie updated successfully.", catalog2_rescored).
Proof. vm_compute. reflexivity. Qed.

Example delete_dune :
  request (delete_movie no_constraints 1) catalog2
  = (inr tt, catalog2_without_dune).
Proof. vm_compute. reflexivity. Qed.

(** ** The theorems at the sample catalog *)

Lemma get_movies_pagination_witness :
  (0 < Z.of_nat (List.length (movies catalog2))
   /\ 1 <= 2 /\ 1 <= 1 <= 20
   /\ 2 <= spec_total_pages (Z.of_nat (List.length (movies catalog2))) 1)
  /\ exists response,
      request (get_movies 2 1) catalog2 = (inr response, catalog2)
      /\ MovieListResponse.total_items response
         = Z.of_nat (List.length (movies catalog2))
      /\ MovieListResponse.total_pages response
         = spec_total_pages (Z.of_nat (List.length (movies catalog2))) 1
      /\ (MovieListResponse.prev_page response = None <-> 2 = 1)
      /\ (MovieListResponse.next_page response = None
          <-> 2 = MovieListResponse.total_pages response).
Proof.
  assert (H : 0 < Z.of_nat (List.length (movies catalog2))
              /\ 1 <= 2 /\ 1 <= 1 <= 20
              /\ 2 <= spec_total_pages
                        (Z.of_nat (List.length (movies catalog2))) 1)
    by (vm_compute; repeat split; discriminate).
  split; [exact H|].
  apply (get_movies_pagination catalog2 2 1); apply H.
Defined.

Lemma get_movies_not_found_witness :
  (1 <= 3 /\ 1 <= 1 <= 20)
  /\ (request (get_movies 3 1) catalog2
      = (inl (HTTPException 404 "No movies found."), catalog2)
      <-> Z.of_nat (List.length (movies catalog2)) = 0
          \/ spec_total_pages (Z.of_nat (List.length (movies catalog2))) 1 < 3).
Proof.
  assert (H : 1 <= 3 /\ 1 <= 1 <= 20) by lia.
  split; [exact H|].
  apply (proj1 get_movies_not_found catalog2 3 1); apply H.
Defined.

Lemma date_validation_one_year_witness :
  (date_min <= 739923 /\ 739923 + 365 <= date_max)
  /\ date_validation 739923 (739923 + 365) = inr (739923 + 365)
  /\ (date_validation 739923 (739923 + 366)
      = inl (ValueError "The date must not be more than one year in the future.")
      <-> 739923 + 365 < 739923 + 366).
Proof.
  assert (H : date_min <= 739923 /\ 739923 + 365 <= date_max)
    by (unfold date_min, date_max; lia).
  split; [exact H|].
  destruct (date_validation_one_year 739923 (proj1 H) (proj2 H))
    as (Hfail & _ & _ & Hexact & _).
  split; [exact Hexact | exact (Hfail (739923 + 366))].
Defined.

Lemma post_movie_reuses_existing_rows_witness :
  request (post_movie iso3166 no_constraints solaris) catalog1
  = (inr (Some solaris_detail), catalog2)
  /\ (NoDup (names (lookup_table GenreModel catalog1)) ->
      NoDup (names (lookup_table GenreModel catalog2)))
  /\ exists row,
      find (has_name "Sci-Fi") (lookup_table GenreModel catalog1) = Some row
      /\ filter (has_name "Sci-Fi") (lookup_table GenreModel catalog2)
         = filter (has_name "Sci-Fi") (lookup_table GenreModel catalog1)
      /\ In (MovieModel.id (MovieDetail.movie solaris_detail),
             NamedModel.id row)
            (link_table GenreModel catalog2)
      /\ In row (loaded solaris_detail GenreModel).
Proof.
  assert (H : request (post_movie iso3166 no_constraints solaris) catalog1
              = (inr (Some solaris_detail), catalog2))
    by (vm_compute; reflexivity).
  split; [exact H|].
  destruct (post_movie_reuses_existing_rows iso3166 no_constraints solaris
              catalog1 catalog2 _ H) as [Hnames Hrows].
  split; [exact (Hnames GenreModel)|].
  apply (Hrows solaris_detail GenreModel "Sci-Fi" eq_refl);
    left; reflexivity.
Defined.

Lemma post_movie_conflict_witness :
  request (post_movie iso3166 no_constraints dune) empty_tables
  = (inr (Some dune_detail), catalog1)
  /\ request (post_movie iso3166 no_constraints dune) catalog1
     = (inl (HTTPException 409 (already_exists dune)), catalog1).
Proof.
  assert (H : request (post_movie iso3166 no_constraints dune) empty_tables
              = (inr (Some dune_detail), catalog1))
    by (vm_compute; reflexivity).
  split; [exact H|].
  exact (proj2 (post_movie_conflict iso3166 no_constraints)
               dune dune empty_tables catalog1 _ H eq_refl eq_refl).
Defined.

Lemma post_movie_country_witness :
  (request (post_movie iso3166 no_constraints dune) empty_tables
   = (inr (Some dune_detail), catalog1)
   /\ ~ In "USA" (map CountryModel.code (countries empty_tables)))
  /\ exists name country,
      iso3166 "USA" = Some name
      /\ CountryModel.code country = "USA"
      /\ CountryModel.name country = Some name
      /\ ~ In (CountryModel.id country)
              (map CountryModel.id (countries empty_tables))
      /\ countries catalog1 = countries empty_tables ++ [country]
      /\ MovieModel.country_id (MovieDetail.movie dune_detail)
         = CountryModel.id country.
Proof.
  assert (H : request (post_movie iso3166 no_constraints dune) empty_tables
              = (inr (Some dune_detail), catalog1))
    by (vm_compute; reflexivity).
  assert (Hno : ~ In "USA" (map CountryModel.code (countries empty_tables)))
    by (intros []).
  split; [exact (conj H Hno)|].
  exact (proj1 (post_movie_country iso3166 no_constraints dune
                  empty_tables catalog1 dune_detail H) Hno).
Defined.

(** The claim C8 as the spec states it, for every create request, does
    not hold.  A code that neither the table nor the reference table
    knows makes the handler raise on [None.name]; and a request for a
    (name, date) pair that is taken is answered by 409 before the
    country is resolved.  Either way no country row is inserted. *)
Lemma post_movie_country_fails :
  (~ In (MovieCreateSchema.country tenet)
        (map CountryModel.code (countries catalog1))
   /\ iso3166 (MovieCreateSchema.country tenet) = None
   /\ request (post_movie iso3166 no_constraints tenet) catalog1
      = (inl AttributeError, catalog1))
  /\ (~ In (MovieCreateSchema.country dune)
           (map CountryModel.code (countries catalog_france))
      /\ iso3166 (MovieCreateSchema.country dune) = Some "United States"
      /\ request (post_movie iso3166 no_constraints dune) catalog_france
         = (inl (HTTPException 409 (already_exists dune)), catalog_france)).
Proof.
  split; (split; [intros [E|[]]; discriminate E|]);
    (split; [reflexivity | vm_compute; reflexivity]).
Qed.

Lemma delete_movie_frame_witness :
  (in_key_range 1 = true
   /\ In 1 (map MovieModel.id (movies catalog2))
   /\ NoDup (map MovieModel.id (movies catalog2)))
  /\ exists store',
      request (delete_movie no_constraints 1) catalog2 = (inr tt, store')
      /\ ~ In 1 (map MovieModel.id (movies store'))
      /\ countries store' = countries catalog2
      /\ lookup_table ActorModel store' = lookup_table ActorModel catalog2.
Proof.
  assert (Hrange : in_key_range 1 = true) by reflexivity.
  assert (H : In 1 (map MovieModel.id (movies catalog2))
              /\ NoDup (map MovieModel.id (movies catalog2))).
  { split; [left; reflexivity|]. simpl.
    constructor; [intros [E|[]]; discriminate E|].
    constructor; [intros []|constructor]. }
  split; [split; [exact Hrange | exact H]|].
  destruct (proj2 (delete_movie_frame no_constraints 1 catalog2 Hrange)
                  (proj1 H) (proj2 H))
    as (store' & Hrun & _ & Hgone & _ & Hcountries & Hlookup).
  exists store'. auto.
Defined.

(** The claim C7 as the spec states it, for every id, does not hold: an
    id that no movie has and that the driver cannot bind is not answered
    by 404 but by an [OverflowError]. *)
Lemma delete_movie_out_of_range :
  ~ In (2 ^ 63) (map MovieModel.id (movies catalog2))
  /\ request (delete_movie no_constraints (2 ^ 63)) catalog2
     = (inl OverflowError, catalog2)
  /\ request (delete_movie no_constraints (2 ^ 63)) catalog2
     <> (inl (HTTPException 404 "Movie with the given ID was not found."),
         catalog2).
Proof.
  assert (H : request (delete_movie no_constraints (2 ^ 63)) catalog2
              = (inl OverflowError, catalog2))
    by (vm_compute; reflexivity).
  split; [|split; [exact H | rewrite H; discriminate]].
  intros [E|[E|[]]]; discriminate E.
Qed.

Lemma update_movie_partial_witness :
  request (update_movie no_constraints 1 (only_score 55%float)) catalog2
  = (inr "Movie updated successfully.", catalog2_rescored)
  /\ Forall2
       (fun m m' =>
          m' = m
          \/ m' = MovieModel.mk
                    (MovieModel.id m) (MovieModel.name m) (MovieModel.date m)
                    (Some 55%float) (MovieModel.overview m)
                    (MovieModel.status m) (MovieModel.budget m)
                    (MovieModel.revenue m) (MovieModel.country_id m))
       (movies catalog2) (movies catalog2_rescored).
Proof.
  assert (H : request (update_movie no_constraints 1 (only_score 55%float))
                      catalog2
              = (inr "Movie updated successfully.", catalog2_rescored))
    by (vm_compute; reflexivity).
  split; [exact H|].
  destruct (update_movie_partial no_constraints 1 (only_score 55%float)
              catalog2 _ _ H) as (_ & Hscore & _).
  exact (Hscore (Some 55%float) eq_refl).
Defined.

Lemma update_movie_keeps_relations_witness :
  request (update_movie no_constraints 1 (only_score 55%float)) catalog2
  = (inr "Movie updated successfully.", catalog2_rescored)
  /\ countries catalog2_rescored = countries catalog2
  /\ (forall model,
         lookup_table model catalog2_rescored = lookup_table model catalog2
         /\ link_table model catalog2_rescored = link_table model catalog2).
Proof.
  assert (H : request (update_movie no_constraints 1 (only_score 55%float))
                      catalog2
              = (inr "Movie updated successfully.", catalog2_rescored))
    by (vm_compute; reflexivity).
  split; [exact H|].
  destruct (update_movie_keeps_relations no_constraints 1
              (only_score 55%float) catalog2 _ _ H)
    as (Hcountries & Htables & _).
  split; [exact Hcountries | exact Htables].
Defined.

(** * Further properties of the handlers *)

(** ** The list of movies *)

Lemma insert_desc_perm (m : MovieModel.t) (ms : list MovieModel.t) :
  Permutation (insert_desc m ms) (m :: ms).
Proof.
  induction ms as [|m' ms IH]; simpl; [apply Permutation_refl|].
  destruct (MovieModel.id m' <? MovieModel.id m); [apply Permutation_refl|].
  eapply Permutation_trans; [apply perm_skip; exact IH | apply perm_swap].
Qed.

Lemma order_by_desc_id_perm (ms : list MovieModel.t) :
  Permutation (order_by_desc_id ms) ms.
Proof.
  induction ms as [|m ms IH]; simpl; [constructor|].
  eapply Permutation_trans; [apply insert_desc_perm|].
  apply perm_skip. exact IH.
Qed.

Lemma insert_desc_sorted (m : MovieModel.t) (ms : list MovieModel.t) :
  StronglySorted id_desc ms -> StronglySorted id_desc (insert_desc m ms).
Proof.
  induction 1 as [|m' ms Hs IH Hall]; simpl.
  - constructor; constructor.
  - destruct (MovieModel.id m' <? MovieModel.id m) eqn:E.
    + constructor; [constructor; assumption|].
      constructor; [unfold id_desc; lia|].
      eapply Forall_impl; [|exact Hall]. unfold id_desc. intros; lia.
    + constructor; [exact IH|].
      eapply Permutation_Forall;
        [apply Permutation_sym; apply insert_desc_perm|].
      constructor; [unfold id_desc; lia | exact Hall].
Qed.

Lemma order_by_desc_id_sorted (ms : list MovieModel.t) :
  StronglySorted id_desc (order_by_desc_id ms).
Proof.
  induction ms as [|m ms IH]; simpl; [constructor|].
  apply insert_desc_sorted. exact IH.
Qed.

Lemma sorted_skipn (n : nat) (l : list MovieModel.t) :
  StronglySorted id_desc l -> StronglySorted id_desc (skipn n l).
Proof.
  revert l. induction n as [|n IH]; intros l H; [exact H|].
  destruct l as [|a l]; [constructor|]. simpl. apply IH.
  inversion H; assumption.
Qed.

Lemma firstn_In {A} (n : nat) (l : list A) (x : A) :
  In x (firstn n l) -> In x l.
Proof.
  intros H. rewrite <- (firstn_skipn n l). apply in_or_app. left. exact H.
Qed.

Lemma skipn_In {A} (n : nat) (l : list A) (x : A) :
  In x (skipn n l) -> In x l.
Proof.
  intros H. rewrite <- (firstn_skipn n l). apply in_or_app. right. exact H.
Qed.

Lemma sorted_firstn (n : nat) (l : list MovieModel.t) :
  StronglySorted id_desc l -> StronglySorted id_desc (firstn n l).
Proof.
  revert l. induction n as [|n IH]; intros l H; [constructor|].
  destruct l as [|a l]; [constructor|]. simpl.
  inversion H as [|? ? Hs Hall]; subst. constructor; [apply IH; exact Hs|].
  rewrite Forall_forall in *. intros x Hx. apply Hall.
  eapply firstn_In. exact Hx.
Qed.

(** [get_movies], branch by branch. *)
Lemma get_movies_run (store : Tables) (page per_page : Z) :
  let total_items := Z.of_nat (List.length (movies store)) in
  let total_pages := (total_items + per_page - 1) / per_page in
  request (get_movies page per_page) store
  = if total_items =? 0
    then (inl (HTTPException 404 "No movies found."), store)
    else if per_page =? 0 then (inl ZeroDivisionError, store)
    else if page >? total_pages
    then (inl (HTTPException 404 "No movies found."), store)
    else match page_slice store page per_page with
         | [] => (inl (HTTPException 404 "No movies found."), store)
         | _ :: _ =>
             (inr (MovieListResponse.mk
                     (page_slice store page per_page)
                     (if page >? 1 then Some (page_link (page - 1) per_page)
                      else None)
                     (if page <? total_pages
                      then Some (page_link (page + 1) per_page) else None)
                     total_pages total_items), store)
         end.
Proof.
  intros total_items total_pages.
  unfold request, get_movies, bind, count_movies, select_movies_page, query,
    floordiv, no_movies_found, raise, ret; cbn [working committed].
  fold total_items.
  destruct (total_items =? 0); [reflexivity|].
  destruct (per_page =? 0); [reflexivity|]. cbn [working committed].
  fold total_pages.
  destruct (page >? total_pages); [reflexivity|]. cbn [working committed].
  fold (page_slice store page per_page).
  destruct (page_slice store page per_page); reflexivity.
Qed.

(** X1. A request for a page of movies never changes the store, and
    when it answers, the movies of the answer are the rows of the page
    in the catalog ordered by descending id: at least one row, at most
    [per_page] rows, rows of the store, no row before a row with a larger
    id; and [total_items] counts the movies of the store. *)
Theorem get_movies_page_rows (store store' : Tables) (page per_page : Z)
        (response : MovieListResponse.t) :
  request (get_movies page per_page) store = (inr response, store') ->
  let rows := MovieListResponse.movies response in
  store' = store
  /\ rows = page_slice store page per_page
  /\ rows <> []
  /\ (List.length rows <= Z.to_nat per_page)%nat
  /\ StronglySorted id_desc rows
  /\ incl rows (movies store)
  /\ MovieListResponse.total_items response
     = Z.of_nat (List.length (movies store)).
Proof.
  rewrite get_movies_run. cbv zeta.
  destruct (_ =? 0); [discriminate|].
  destruct (per_page =? 0); [discriminate|].
  destruct (page >? _); [discriminate|].
  destruct (page_slice store page per_page) as [|row rows] eqn:E;
    [discriminate|].
  intros H. injection H as <- <-. cbn [MovieListResponse.movies
    MovieListResponse.total_items].
  split; [reflexivity|]. split; [reflexivity|]. split; [discriminate|].
  rewrite <- E. unfold page_slice. split; [apply firstn_le_length|].
  split.
  - apply sorted_firstn, sorted_skipn, order_by_desc_id_sorted.
  - split; [|reflexivity]. intros x Hx. apply firstn_In, skipn_In in Hx.
    eapply Permutation_in; [apply order_by_desc_id_perm | exact Hx].
Qed.

Lemma chunks_concat {A} (n : nat) :
  forall (k : nat) (l : list A),
    (List.length l <= k * n)%nat ->
    List.concat (map (fun i => firstn n (skipn (i * n) l)) (seq 0 k)) = l.
Proof.
  induction k as [|k IH]; intros l Hlen.
  - destruct l; [reflexivity | simpl in Hlen; lia].
  - cbn [seq map List.concat]. rewrite <- seq_shift, map_map.
    cbn [Nat.mul skipn].
    rewrite (map_ext _ (fun i => firstn n (skipn (i * n) (skipn n l)))).
    + rewrite IH; [apply firstn_skipn|]. rewrite length_skipn. lia.
    + intros i. rewrite skipn_skipn. f_equal. f_equal. lia.
Qed.

(** The pages of a catalog, one after the other, are the catalog by
    descending id. *)
Lemma page_slices_concat (store : Tables) (per_page : Z) :
  1 <= per_page ->
  let total_items := Z.of_nat (List.length (movies store)) in
  let total_pages := (total_items + per_page - 1) / per_page in
  List.concat (map (fun page => page_slice store (Z.of_nat page) per_page)
              (seq 1 (Z.to_nat total_pages)))
  = order_by_desc_id (movies store).
Proof.
  intros Hp total_items total_pages.
  pose proof (total_pages_bracket total_items per_page ltac:(lia)) as Hb.
  cbv zeta in Hb. fold total_pages in Hb.
  assert (Htp : 0 <= total_pages).
  { apply Z.div_pos; unfold total_items; lia. }
  rewrite <- seq_shift, map_map.
  rewrite (map_ext _ (fun i =>
             firstn (Z.to_nat per_page)
                    (skipn (i * Z.to_nat per_page)
                           (order_by_desc_id (movies store))))).
  - apply chunks_concat. rewrite order_by_desc_id_length.
    unfold total_items in Hb. nia.
  - intros i. unfold page_slice. f_equal. f_equal. nia.
Qed.

Lemma get_movies_in_range (store : Tables) (page per_page : Z) :
  1 <= per_page ->
  1 <= page <= (Z.of_nat (List.length (movies store)) + per_page - 1)
               / per_page ->
  request (get_movies page per_page) store
  = (inr (page_response store page per_page), store).
Proof.
  intros Hp Hpage. rewrite get_movies_run. cbv zeta.
  destruct (Z.of_nat (List.length (movies store)) =? 0) eqn:E0.
  { exfalso. apply Z.eqb_eq in E0. rewrite E0 in Hpage.
    rewrite Z.div_small in Hpage; lia. }
  destruct (per_page =? 0) eqn:Ep; [lia|].
  destruct (page >? _) eqn:Egt; [lia|].
  pose proof (page_slice_not_empty (movies store) page per_page
                ltac:(lia) ltac:(lia) ltac:(lia)) as Hne.
  fold (page_slice store page per_page) in Hne.
  destruct (page_slice store page per_page) eqn:E; [contradiction|].
  unfold page_response. rewrite E. reflexivity.
Qed.

Lemma Forall2_map_each {A B} (R : A -> B -> Prop) (f : A -> B)
      (l : list A) :
  (forall x, In x l -> R x (f x)) -> Forall2 R l (map f l).
Proof.
  induction l as [|a l IH]; intros H; simpl; constructor.
  - apply H. left. reflexivity.
  - apply IH. intros x Hx. apply H. right. exact Hx.
Qed.

(** X2. For a page size of at least one, every page from 1 to
    [total_pages] is answered, and the movies of these answers, one page
    after the other, are the catalog by descending id: every movie of
    the store is on exactly one page. *)
Theorem get_movies_pages_cover (store : Tables) (per_page : Z) :
  1 <= per_page ->
  let total_items := Z.of_nat (List.length (movies store)) in
  let total_pages := (total_items + per_page - 1) / per_page in
  exists responses,
    Forall2 (fun page response =>
               request (get_movies (Z.of_nat page) per_page) store
               = (inr response, store))
            (seq 1 (Z.to_nat total_pages)) responses
    /\ List.concat (map MovieListResponse.movies responses)
       = order_by_desc_id (movies store)
    /\ Permutation (List.concat (map MovieListResponse.movies responses))
                   (movies store).
Proof.
  intros Hp total_items total_pages.
  exists (map (fun page => page_response store (Z.of_nat page) per_page)
              (seq 1 (Z.to_nat total_pages))).
  assert (Hcat : List.concat
                   (map MovieListResponse.movies
                      (map (fun page =>
                              page_response store (Z.of_nat page) per_page)
                           (seq 1 (Z.to_nat total_pages))))
                 = order_by_desc_id (movies store)).
  { rewrite map_map. cbn [page_response MovieListResponse.movies].
    apply page_slices_concat. exact Hp. }
  split; [|split; [exact Hcat|]].
  - assert (Hall : forall page, In page (seq 1 (Z.to_nat total_pages)) ->
               request (get_movies (Z.of_nat page) per_page) store
               = (inr (page_response store (Z.of_nat page) per_page), store)).
    { intros page Hin. apply in_seq in Hin.
      apply get_movies_in_range; [exact Hp|]. fold total_items total_pages.
      lia. }
    apply Forall2_map_each. exact Hall.
  - rewrite Hcat. apply order_by_desc_id_perm.
Qed.

(** X3. The links of an answered page lead to answered pages: a
    [next_page] link is the link of page + 1, which is answered and
    links back to this page as its [prev_page]; a [prev_page] link is
    the link of page - 1, which is answered and links to this page as its
    [next_page]. *)
Theorem get_movies_links_lead_to_pages (store : Tables) (page per_page : Z)
        (response : MovieListResponse.t) :
  1 <= page -> 1 <= per_page ->
  request (get_movies page per_page) store = (inr response, store) ->
  (forall link,
      MovieListResponse.next_page response = Some link ->
      link = page_link (page + 1) per_page
      /\ exists next,
          request (get_movies (page + 1) per_page) store = (inr next, store)
          /\ MovieListResponse.prev_page next
             = Some (page_link page per_page))
  /\ (forall link,
         MovieListResponse.prev_page response = Some link ->
         link = page_link (page - 1) per_page
         /\ exists prev,
             request (get_movies (page - 1) per_page) store
             = (inr prev, store)
             /\ MovieListResponse.next_page prev
                = Some (page_link page per_page)).
Proof.
  intros Hpage Hp Hrun.
  assert (Hrange : page <= (Z.of_nat (List.length (movies store))
                            + per_page - 1) / per_page).
  { rewrite get_movies_run in Hrun. cbv zeta in Hrun.
    destruct (_ =? 0); [discriminate|].
    destruct (per_page =? 0); [discriminate|].
    destruct (page >? _) eqn:E; [discriminate | lia]. }
  rewrite get_movies_in_range in Hrun by lia.
  injection Hrun as <-. cbn [page_response MovieListResponse.next_page
                               MovieListResponse.prev_page].
  split; intros link Hlink.
  - destruct (page <? _) eqn:E; [|discriminate]. injection Hlink as <-.
    split; [reflexivity|].
    exists (page_response store (page + 1) per_page).
    split; [apply get_movies_in_range; lia|].
    cbn [page_response MovieListResponse.prev_page].
    destruct (page + 1 >? 1) eqn:E1; [|lia].
    replace (page + 1 - 1) with page by lia. reflexivity.
  - destruct (page >? 1) eqn:E; [|discriminate]. injection Hlink as <-.
    split; [reflexivity|].
    exists (page_response store (page - 1) per_page).
    split; [apply get_movies_in_range; lia|].
    cbn [page_response MovieListResponse.next_page].
    destruct (page - 1 <? _) eqn:E1; [|lia].
    replace (page - 1 + 1) with page by lia. reflexivity.
Qed.



(** ** The handlers together *)

Section MoreHandlerProperties.

Variable pycountry_countries_get : string -> option string.
Variable constraints : Tables -> Statement -> bool.

(** The rows [get_or_create] inserts get keys the table does not hold. *)
Lemma get_or_create_loop_ids (model : Lookup) :
  forall (name_list : list string) (items items' : list NamedModel.t)
         (s s' : Session),
    pending s = [] ->
    get_or_create_loop constraints model name_list items s = (inr items', s') ->
    NoDup (map NamedModel.id (lookup_table model (working s))) ->
    NoDup (map NamedModel.id (lookup_table model (working s'))).
Proof.
  induction name_list as [|name name_list IH]; intros items items' s s' Hp H Hnd;
    simpl in H.
  - step H. assumption.
  - split_bind H Hsel Hrest; step Hsel.
    destruct (find (has_name name) (lookup_table model (working s)))
      as [found|] eqn:Efind.
    + split_bind Hrest Hobj Hloop; step Hobj.
      eapply IH; eassumption.
    + split_bind Hrest Hrun Hloop; [discriminate|].
      apply add_lookup_flush_inv in Hrun; [|assumption].
      destruct Hrun as [(E & _)|[E Hs]]; [discriminate|]. settle.
      eapply IH in Hloop; [exact Hloop | reflexivity |].
      cbn [working]. rewrite lookup_table_set_same, map_app.
      apply NoDup_app; [assumption | constructor; [intros []|constructor] |].
      intros i Hi [<-|[]]. exact (next_id_fresh _ Hi).
Qed.

(** A successful create request, step by step: the sessions between the
    three [get_or_create] calls, and the store it leaves. *)
Lemma post_movie_trace (movie : MovieCreateSchema.t) (store store' : Tables)
      (detail : MovieDetail.t) :
  request (post_movie pycountry_countries_get constraints movie) store
  = (inr (Some detail), store') ->
  exists country new_countries s2 s3 s4 genres_ actors_ languages_,
    let s1 := mkSession store
                (set_countries (countries store ++ new_countries) store) [] in
    let new_movie :=
      new_movie_row movie (next_id (map MovieModel.id (movies store)))
                    country in
    country_resolved pycountry_countries_get (countries store)
                     (MovieCreateSchema.country movie) new_countries country
    /\ get_or_create_loop constraints GenreModel
                          (MovieCreateSchema.genres movie) [] s1
       = (inr genres_, s2)
    /\ get_or_create_loop constraints ActorModel
                          (MovieCreateSchema.actors movie) [] s2
       = (inr actors_, s3)
    /\ get_or_create_loop constraints LanguageModel
                          (MovieCreateSchema.languages movie) [] s3
       = (inr languages_, s4)
    /\ (pending s2 = [] /\ pending s3 = [])
    /\ (actors (working s2) = actors store
        /\ languages (working s3) = languages store)
    /\ store'
       = mkTables
           (movies store ++ [new_movie])
           (countries store ++ new_countries)
           (genres (working s2)) (actors (working s3)) (languages (working s4))
           (movies_genres store ++ links_to (MovieModel.id new_movie) genres_)
           (movies_actors store ++ links_to (MovieModel.id new_movie) actors_)
           (movies_languages store
            ++ links_to (MovieModel.id new_movie) languages_)
    /\ detail = load_movie store' new_movie.
Proof.
  unfold request.
  destruct (post_movie pycountry_countries_get constraints movie
              (mkSession store store [])) as [r0 s'] eqn:Hrun.
  intros H. inversion H; subst r0 store'; clear H.
  unfold post_movie in Hrun.
  split_bind Hrun Hq Hrun; [discriminate|]. step Hq. cbn [working] in Hrun.
  destruct (find (name_date_is _ _) (movies store)) as [m|] eqn:Edup;
    [step Hrun|].
  split_bind Hrun Hq Hrun; [discriminate|]. step Hq. cbn [working] in Hrun.
  split_bind Hrun Hc Hrun; [discriminate|].
  assert (Hcountry : exists created,
             country_resolved pycountry_countries_get (countries store)
               (MovieCreateSchema.country movie) created a
             /\ s = mkSession store
                     (set_countries (countries store ++ created) store) []).
  { unfold country_resolved.
    destruct (find _ (countries store)) as [c|] eqn:Ec.
    - step Hc. exists []. rewrite app_nil_r.
      split; [left; auto | destruct store; reflexivity].
    - destruct (pycountry_countries_get _) as [name|] eqn:Eiso; [|step Hc].
      apply add_country_flush_inv in Hc; [|reflexivity].
      destruct Hc as [(Hc & _)|[Hc ->]]; [discriminate|].
      settle. cbn [working committed]. eexists. split; [|reflexivity].
      right. split; [reflexivity|]. eauto. }
  clear Hc. destruct Hcountry as (new_countries & Hcountry & ->).
  rename a into country.
  unfold get_or_create in Hrun.
  split_bind Hrun Hg Hrun; [discriminate|].
  pose proof Hg as Ig.
  apply (get_or_create_loop_inv pycountry_countries_get) in Ig; [|reflexivity].
  cbn [committed working app] in Ig.
  destruct Ig as (Hcg & Hpg & new_genres & og & Eg & Hwg & _).
  cbn [app] in Eg. subst og.
  split_bind Hrun Ha Hrun; [discriminate|].
  pose proof Ha as Ia.
  apply (get_or_create_loop_inv pycountry_countries_get) in Ia; [|assumption].
  destruct Ia as (Hca & Hpa & new_actors & oa & Ea & Hwa & _).
  cbn [app] in Ea. subst oa.
  split_bind Hrun Hl Hrun; [discriminate|].
  pose proof Hl as Il.
  apply (get_or_create_loop_inv pycountry_countries_get) in Il; [|assumption].
  destruct Il as (Hcl & Hpl & new_languages & ol & El & Hwl & _).
  cbn [app] in El. subst ol.
  split_bind Hrun Hm Hrun; [discriminate|]. apply add_movie_inv in Hm.
  destruct Hm as [Hm ->].
  match type of Hm with inr ?x = _ => injection Hm as Hm; subst x end.
  assert (Hmovies : movies (working s1) = movies store).
  { rewrite Hwl, Hwa, Hwg. reflexivity. }
  rewrite Hpl, Hmovies in Hrun. cbn [app] in Hrun.
  set (new_movie :=
         new_movie_row movie (next_id (map MovieModel.id (movies store)))
                       country) in *.
  split_bind Hrun Hcommit Hrun; [discriminate|]. apply commit_inv in Hcommit.
  cbn [committed working pending] in Hcommit.
  destruct Hcommit as [(E & _)|(t & Et & _ & ->)]; [discriminate|].
  apply (run_statements_new_movie constraints new_movie) in Et.
  assert (Hfind : find (fun m => MovieModel.id m =? MovieModel.id new_movie)
                       (movies t) = Some new_movie).
  { subst t. cbn [movies]. rewrite Hmovies. apply find_new_movie.
    reflexivity. }
  unfold bind in Hrun.
  rewrite (refresh_found (MovieModel.id new_movie) _ new_movie) in Hrun;
    [| cbn [working]; subst t; cbn [movies]; apply in_or_app; right; left;
       reflexivity
     | reflexivity].
  unfold query in Hrun. cbn [working] in Hrun. rewrite Hfind in Hrun.
  cbn [option_map] in Hrun. injection Hrun as <- <-. cbn [committed].
  exists country, new_countries, s, s0, s1, a, a0, a1.
  cbv zeta. fold new_movie.
  split; [assumption|]. split; [assumption|]. split; [assumption|].
  split; [assumption|]. split; [auto|].
  assert (Et' : t = mkTables
           (movies store ++ [new_movie])
           (countries store ++ new_countries)
           (genres (working s)) (actors (working s0)) (languages (working s1))
           (movies_genres store ++ links_to (MovieModel.id new_movie) a)
           (movies_actors store ++ links_to (MovieModel.id new_movie) a0)
           (movies_languages store
            ++ links_to (MovieModel.id new_movie) a1)).
  { rewrite Et, Hwl, Hwa, Hwg. destruct store; reflexivity. }
  split; [split; [rewrite Hwg | rewrite Hwa, Hwg]; reflexivity|].
  split; [exact Et' | rewrite Et'; reflexivity].
Qed.

Lemma filter_fresh_key (ms : list MovieModel.t) (m : MovieModel.t) :
  ~ In (MovieModel.id m) (map MovieModel.id ms) ->
  filter (fun x => MovieModel.id x =? MovieModel.id m) (ms ++ [m]) = [m].
Proof.
  intros Hfresh. rewrite filter_app, filter_absent by assumption.
  simpl. rewrite Z.eqb_refl. reflexivity.
Qed.

(** X5. After a successful create request, getting the movie by the
    id of the answer gives the answer of the create request again (the
    id the engine gave the movie being, as every stored id is, within
    the range of the key). *)
Theorem post_movie_then_get_movie (movie : MovieCreateSchema.t)
        (store store' : Tables) (detail : MovieDetail.t) :
  request (post_movie pycountry_countries_get constraints movie) store
  = (inr (Some detail), store') ->
  in_key_range (MovieModel.id (MovieDetail.movie detail)) = true ->
  request (get_movie (MovieModel.id (MovieDetail.movie detail))) store'
  = (inr detail, store').
Proof.
  intros Hrun Hrange. apply post_movie_inv in Hrun.
  destruct Hrun as [(e & E & _)|(detail' & E & Heff)]; [discriminate|].
  injection E as <-.
  destruct Heff as (country & nc & cg & ca & cl & og & oa & ol & Heff).
  cbv zeta in Heff. destruct Heff as (_ & _ & _ & _ & _ & Hstore & ->).
  cbn [MovieDetail.movie load_movie] in *.
  unfold request, get_movie, bind. rewrite select_movie_run, Hrange.
  cbn [working].
  replace (movies store') with
    (movies store
     ++ [new_movie_row movie (next_id (map MovieModel.id (movies store)))
                       country]) by (rewrite Hstore; reflexivity).
  rewrite filter_fresh_key by apply next_id_fresh. reflexivity.
Qed.

(** X6. A create request only appends: whatever it answers, every
    table of the store afterwards is the table before followed by new
    rows, at most one new movie and at most one new country; no row is
    changed or removed. *)
Theorem post_movie_appends_only (movie : MovieCreateSchema.t)
        (store store' : Tables) (r : Exception + option MovieDetail.t) :
  request (post_movie pycountry_countries_get constraints movie) store
  = (r, store') ->
  exists new_movies new_countries,
    movies store' = movies store ++ new_movies
    /\ countries store' = countries store ++ new_countries
    /\ (List.length new_movies <= 1)%nat
    /\ (List.length new_countries <= 1)%nat
    /\ forall model,
        exists rows links,
          lookup_table model store' = lookup_table model store ++ rows
          /\ link_table model store' = link_table model store ++ links.
Proof.
  intros Hrun. apply post_movie_inv in Hrun.
  destruct Hrun as [(e & _ & -> & _)|(detail & _ & Heff)].
  - exists [], []. rewrite !app_nil_r. repeat split; auto.
    intros model. exists [], []. rewrite !app_nil_r. auto.
  - pose proof (fun model =>
                  post_movie_effect_lookup _ _ _ _ _ model Heff) as Hlookup.
    destruct Heff as (country & nc & cg & ca & cl & og & oa & ol & Heff).
    cbv zeta in Heff. destruct Heff as (_ & Hc & _ & _ & _ & Hstore & _).
    eexists. exists nc. rewrite Hstore. cbn [movies countries].
    split; [reflexivity|]. split; [reflexivity|]. split; [simpl; lia|].
    split.
    + destruct Hc as [[_ ->]|(_ & name & _ & _ & ->)]; simpl; lia.
    + intros model. destruct (Hlookup model) as (rows & items & _ & E1 & E2 & _).
      rewrite Hstore in E1, E2. eauto.
Qed.

Lemma next_id_greater (ids : list Z) (i : Z) : In i ids -> i < next_id ids.
Proof.
  unfold next_id. induction ids as [|j ids IH]; cbn [In fold_right]; [tauto|].
  intros [->|Hi]; [lia|]. specialize (IH Hi). lia.
Qed.

(** X7. A create request that succeeds answers with a movie, never
    with nothing; the movie is a row of the store, its columns hold the
    values of the payload, its id is larger than the id of every movie
    the store held, and the store holds one movie more. *)
Theorem post_movie_answer (movie : MovieCreateSchema.t)
        (store store' : Tables) (answer : option MovieDetail.t) :
  request (post_movie pycountry_countries_get constraints movie) store
  = (inr answer, store') ->
  exists detail,
    let m := MovieDetail.movie detail in
    answer = Some detail
    /\ In m (movies store')
    /\ MovieModel.name m = Some (MovieCreateSchema.name movie)
    /\ MovieModel.date m = Some (MovieCreateSchema.date movie)
    /\ MovieModel.score m = Some (MovieCreateSchema.score movie)
    /\ MovieModel.overview m = Some (MovieCreateSchema.overview movie)
    /\ MovieModel.status m = Some (MovieCreateSchema.status movie)
    /\ MovieModel.budget m = Some (MovieCreateSchema.budget movie)
    /\ MovieModel.revenue m = Some (MovieCreateSchema.revenue movie)
    /\ (forall old, In old (movies store) ->
                    MovieModel.id old < MovieModel.id m)
    /\ List.length (movies store') = S (List.length (movies store)).
Proof.
  intros Hrun. apply post_movie_inv in Hrun.
  destruct Hrun as [(e & E & _)|(detail & E & Heff)]; [discriminate|].
  injection E as ->. exists detail. cbv zeta.
  destruct Heff as (country & nc & cg & ca & cl & og & oa & ol & Heff).
  cbv zeta in Heff. destruct Heff as (_ & _ & _ & _ & _ & -> & ->).
  cbn [MovieDetail.movie load_movie movies new_movie_row MovieModel.name
       MovieModel.date MovieModel.score MovieModel.overview MovieModel.status
       MovieModel.budget MovieModel.revenue MovieModel.id].
  split; [reflexivity|].
  split; [apply in_or_app; right; left; reflexivity|].
  repeat (split; [reflexivity|]). split.
  - intros old Hold. apply next_id_greater. apply in_map. exact Hold.
  - rewrite length_app. simpl. lia.
Qed.

Lemma distinct_keys_snoc {K} (ids : list K) (i : K) :
  NoDup ids -> ~ In i ids -> NoDup (ids ++ [i]).
Proof.
  intros Hids Hi. induction ids as [|j ids IH]; simpl.
  - constructor; [tauto | constructor].
  - inversion Hids as [|? ? Hj Hrest]; subst. constructor.
    + rewrite in_app_iff. simpl. intros [H|[H|[]]]; [tauto|].
      apply Hi. left. symmetry. exact H.
    + apply IH; [assumption|]. intros H. apply Hi. right. exact H.
Qed.

Lemma country_resolved_in (table created : list CountryModel.t)
      (code : string) (country : CountryModel.t) :
  country_resolved pycountry_countries_get table code created country ->
  In country (table ++ created) /\ CountryModel.code country = code.
Proof.
  intros [[Hfind ->]|(_ & name & _ & -> & ->)].
  - apply find_some in Hfind. destruct Hfind as [Hin Hcode].
    apply String.eqb_eq in Hcode. rewrite app_nil_r. tauto.
  - split; [apply in_or_app; right; left|]; reflexivity.
Qed.

Lemma country_resolved_keys (table created : list CountryModel.t)
      (code : string) (country : CountryModel.t) :
  country_resolved pycountry_countries_get table code created country ->
  NoDup (map CountryModel.id table) ->
  NoDup (map CountryModel.id (table ++ created)).
Proof.
  intros [[_ ->]|(_ & name & _ & -> & ->)] Hkeys.
  - rewrite app_nil_r. exact Hkeys.
  - rewrite map_app. apply distinct_keys_snoc; [exact Hkeys|].
    apply next_id_fresh.
Qed.

Lemma resolved_in (table created items : list NamedModel.t)
      (name_list : list string) (obj : NamedModel.t) :
  resolved table name_list created items -> In obj items ->
  In obj (table ++ created) /\ In (NamedModel.name obj) name_list.
Proof.
  intros [Hres _]. induction Hres as [|name o names_ items_ Hfind _ IH];
    simpl; [tauto|].
  intros [->|Hin].
  - apply find_has_name_some in Hfind. destruct Hfind as [Hin <-]. auto.
  - destruct (IH Hin). auto.
Qed.

Lemma post_movie_primary_keys (movie : MovieCreateSchema.t)
      (store store' : Tables) (detail : MovieDetail.t) :
  request (post_movie pycountry_countries_get constraints movie) store
  = (inr (Some detail), store') ->
  primary_keys store -> primary_keys store'.
Proof.
  intros Hrun (Hm & Hc & Hl). apply post_movie_trace in Hrun.
  destruct Hrun as (country & nc & s2 & s3 & s4 & og & oa & ol & Htrace).
  cbv zeta in Htrace.
  destruct Htrace as (Hcountry & Hg & Ha & Hlang & [P2 P3] & [A2 L3] & -> & _).
  unfold primary_keys. cbn [movies countries].
  split; [|split].
  - rewrite map_app. apply distinct_keys_snoc; [exact Hm|].
    apply next_id_fresh.
  - eapply country_resolved_keys; eassumption.
  - intros [| |]; cbn [lookup_table genres actors languages].
    + refine (get_or_create_loop_ids GenreModel _ _ _ _ _ _ Hg _);
        [reflexivity|]. exact (Hl GenreModel).
    + apply (get_or_create_loop_ids ActorModel _ _ _ _ _ P2 Ha).
      cbn [lookup_table]. rewrite A2. exact (Hl ActorModel).
    + apply (get_or_create_loop_ids LanguageModel _ _ _ _ _ P3 Hlang).
      cbn [lookup_table]. rewrite L3. exact (Hl LanguageModel).
Qed.

Lemma post_movie_references (movie : MovieCreateSchema.t)
      (store store' : Tables) (detail : MovieDetail.t) :
  request (post_movie pycountry_countries_get constraints movie) store
  = (inr (Some detail), store') ->
  references_hold store -> references_hold store'.
Proof.
  intros Hrun [Hcountry Hlinks]. apply post_movie_inv in Hrun.
  destruct Hrun as [(e & E & _)|(detail' & E & Heff)]; [discriminate|].
  injection E as <-.
  pose proof (fun model => post_movie_effect_lookup _ _ _ _ _ model Heff)
    as Hlookup.
  destruct Heff as (country & nc & cg & ca & cl & og & oa & ol & Heff).
  cbv zeta in Heff. destruct Heff as (_ & Hc & _ & _ & _ & Hstore & Hdetail).
  assert (Em : movies store'
               = movies store
                 ++ [new_movie_row movie
                       (next_id (map MovieModel.id (movies store))) country])
    by (rewrite Hstore; reflexivity).
  assert (Ec : countries store' = countries store ++ nc)
    by (rewrite Hstore; reflexivity).
  assert (Eid : MovieModel.id (MovieDetail.movie detail)
                = next_id (map MovieModel.id (movies store)))
    by (rewrite Hdetail; reflexivity).
  split.
  - intros m. rewrite Em, Ec, map_app, !in_app_iff.
    intros [Hold|[<-|[]]].
    + left. apply Hcountry. exact Hold.
    + cbn [new_movie_row MovieModel.country_id]. rewrite <- in_app_iff.
      rewrite <- map_app. apply in_map.
      apply (country_resolved_in _ _ _ _ Hc).
  - intros model l.
    destruct (Hlookup model) as (created & items & Hres & -> & -> & _).
    rewrite Em, Eid. rewrite !map_app, !in_app_iff.
    intros [Hold|Hnew].
    + destruct (Hlinks model l Hold). tauto.
    + unfold links_to in Hnew. apply in_map_iff in Hnew.
      destruct Hnew as (obj & <- & Hobj). cbn [fst snd]. split.
      * right. left. reflexivity.
      * rewrite <- in_app_iff, <- map_app. apply in_map.
        eapply resolved_in; eassumption.
Qed.

(** X8. A create request keeps the store consistent: if the ids of
    each table are unique and every reference (the country of a movie,
    the two ends of a link row) leads to a row, the same holds
    afterwards, whatever the request answers. *)
Theorem post_movie_keeps_consistency (movie : MovieCreateSchema.t)
        (store store' : Tables) (r : Exception + option MovieDetail.t) :
  primary_keys store -> references_hold store ->
  request (post_movie pycountry_countries_get constraints movie) store
  = (r, store') ->
  primary_keys store' /\ references_hold store'.
Proof.
  intros Hkeys Hrefs Hrun. pose proof Hrun as Hinv. apply post_movie_inv in Hinv.
  destruct Hinv as [(e & _ & -> & _)|(detail & -> & _)]; [tauto|].
  split; [eapply post_movie_primary_keys | eapply post_movie_references];
    eassumption.
Qed.

Lemma delete_movie_rows_keys (movie_id : Z) (store : Tables) :
  primary_keys store -> primary_keys (delete_movie_rows movie_id store).
Proof.
  intros (Hm & Hc & Hl). unfold primary_keys. cbn [delete_movie_rows movies countries].
  split; [apply primary_key_filter; exact Hm|]. split; [exact Hc|].
  intros model. specialize (Hl model). destruct model; exact Hl.
Qed.

Lemma delete_movie_rows_references (movie_id : Z) (store : Tables) :
  references_hold store -> references_hold (delete_movie_rows movie_id store).
Proof.
  intros [Hcountry Hlinks]. split.
  - intros m. cbn [delete_movie_rows movies countries]. rewrite filter_In.
    intros [Hin _]. apply Hcountry. exact Hin.
  - intros model l Hl.
    assert (Hold : In l (link_table model store) /\ fst l <> movie_id).
    { destruct model; cbn [delete_movie_rows link_table movies_genres
                           movies_actors movies_languages] in Hl;
        unfold delete_links in Hl; apply filter_In in Hl;
        destruct Hl as [Hin Hne]; apply negb_true_iff, Z.eqb_neq in Hne;
        auto. }
    destruct Hold as [Hin Hne]. destruct (Hlinks model l Hin) as [Hfst Hsnd].
    split.
    + cbn [delete_movie_rows movies]. apply in_map_iff in Hfst.
      destruct Hfst as (m & Em & Hm). apply in_map_iff. exists m.
      split; [exact Em|]. apply filter_In. split; [exact Hm|].
      apply negb_true_iff, Z.eqb_neq. congruence.
    + destruct model; exact Hsnd.
Qed.

(** X9. A delete request keeps the store consistent: unique ids and
    references that lead to rows are kept; no link row is left that
    references the deleted movie. *)
Theorem delete_movie_keeps_consistency (movie_id : Z)
        (store store' : Tables) (r : Exception + unit) :
  primary_keys store -> references_hold store ->
  request (delete_movie constraints movie_id) store = (r, store') ->
  primary_keys store' /\ references_hold store'.
Proof.
  intros Hkeys Hrefs Hrun. apply delete_movie_inv in Hrun.
  destruct Hrun as [(e & _ & -> & _)|(_ & _ & _ & ->)]; [tauto|].
  cbn [apply_statement].
  split; [apply delete_movie_rows_keys | apply delete_movie_rows_references];
    assumption.
Qed.

Lemma update_movie_columns (movie_id : Z) (u : MovieUpdateSchema.t)
      (store store' : Tables) (r : Exception + string) :
  request (update_movie constraints movie_id u) store = (r, store') ->
  map MovieModel.id (movies store') = map MovieModel.id (movies store)
  /\ map MovieModel.country_id (movies store')
     = map MovieModel.country_id (movies store).
Proof.
  intros Hrun. apply update_movie_rows in Hrun. destruct Hrun as (_ & Hrows & _).
  induction Hrows as [|m m' ms ms' Hm _ IH]; [auto|].
  destruct IH as [IH1 IH2]. cbn [map]. rewrite IH1, IH2.
  destruct Hm as [->|[_ ->]]; auto.
Qed.

(** X10. An update request keeps the store consistent: unique ids and
    references that lead to rows are kept. *)
Theorem update_movie_keeps_consistency (movie_id : Z) (u : MovieUpdateSchema.t)
        (store store' : Tables) (r : Exception + string) :
  primary_keys store -> references_hold store ->
  request (update_movie constraints movie_id u) store = (r, store') ->
  primary_keys store' /\ references_hold store'.
Proof.
  intros (Hm & Hc & Hl) [Hcountry Hlinks] Hrun.
  destruct (update_movie_columns _ _ _ _ _ Hrun) as [Eid Ecid].
  apply update_movie_rows in Hrun. destruct Hrun as (Hstore & _ & _).
  assert (Ec : countries store' = countries store)
    by (rewrite Hstore; destruct store; reflexivity).
  assert (Et : forall model, lookup_table model store'
                             = lookup_table model store
                             /\ link_table model store'
                                = link_table model store)
    by (intros model; rewrite Hstore; destruct store, model; split;
        reflexivity).
  split.
  - unfold primary_keys. rewrite Eid, Ec. split; [exact Hm|].
    split; [exact Hc|]. intros model. destruct (Et model) as [-> _].
    apply Hl.
  - split.
    + intros m Hin. rewrite Ec.
      assert (H : In (MovieModel.country_id m)
                     (map MovieModel.country_id (movies store')))
        by (apply in_map; exact Hin).
      rewrite Ecid in H. apply in_map_iff in H.
      destruct H as (m0 & <- & Hm0). apply Hcountry. exact Hm0.
    + intros model l. destruct (Et model) as [-> ->]. rewrite Eid.
      apply Hlinks.
Qed.

Lemma find_country_by_key (table : list CountryModel.t)
      (country : CountryModel.t) :
  NoDup (map CountryModel.id table) -> In country table ->
  find (fun c => CountryModel.id c =? CountryModel.id country) table
  = Some country.
Proof.
  induction table as [|c table IH]; simpl; [tauto|].
  intros Hkeys Hin. inversion Hkeys as [|? ? Hc Hrest]; subst.
  destruct Hin as [->|Hin]; [rewrite Z.eqb_refl; reflexivity|].
  destruct (CountryModel.id c =? CountryModel.id country) eqn:E;
    [|apply IH; assumption].
  apply Z.eqb_eq in E. exfalso. apply Hc. rewrite E. apply in_map. exact Hin.
Qed.

Lemma lookup_row_by_key (rows : list NamedModel.t) (a b : NamedModel.t) :
  NoDup (map NamedModel.id rows) -> In a rows -> In b rows ->
  NamedModel.id a = NamedModel.id b -> a = b.
Proof.
  induction rows as [|r rows IH]; simpl; [tauto|].
  intros Hkeys Ha Hb E. inversion Hkeys as [|? ? Hr Hrest]; subst.
  destruct Ha as [->|Ha], Hb as [->|Hb]; auto.
  - exfalso. apply Hr. rewrite E. apply in_map. exact Hb.
  - exfalso. apply Hr. rewrite <- E. apply in_map. exact Ha.
Qed.

Lemma related_inv (model : Lookup) (t : Tables) (movie_id : Z)
      (row : NamedModel.t) :
  In row (related model t movie_id) ->
  In row (lookup_table model t)
  /\ In (movie_id, NamedModel.id row) (link_table model t).
Proof.
  unfold related. rewrite in_flat_map. intros ([i j] & Hl & Hrow).
  cbn [fst snd] in Hrow. destruct (i =? movie_id) eqn:E; [|contradiction].
  apply Z.eqb_eq in E. subst i. apply filter_In in Hrow.
  destruct Hrow as [Hin Hid]. apply Z.eqb_eq in Hid. rewrite Hid. auto.
Qed.

(** X11. Over a consistent store, the answer of a successful create
    request carries a country row of the store with the code of the
    payload, and for each of genres, actors and languages rows of the
    lookup table whose names are the names the payload gives: every
    requested name, and no other. *)
Theorem post_movie_answer_relations (movie : MovieCreateSchema.t)
        (store store' : Tables) (detail : MovieDetail.t) :
  primary_keys store -> references_hold store ->
  request (post_movie pycountry_countries_get constraints movie) store
  = (inr (Some detail), store') ->
  (exists country,
      MovieDetail.country detail = Some country
      /\ In country (countries store')
      /\ CountryModel.code country = MovieCreateSchema.country movie)
  /\ forall model,
      incl (loaded detail model) (lookup_table model store')
      /\ forall name, In name (names (loaded detail model))
                      <-> In name (requested movie model).
Proof.
  intros Hkeys [_ Hlinks] Hrun.
  pose proof (post_movie_primary_keys _ _ _ _ Hrun Hkeys) as (_ & Hc' & Hl').
  apply post_movie_inv in Hrun.
  destruct Hrun as [(e & E & _)|(detail' & E & Heff)]; [discriminate|].
  injection E as <-.
  pose proof (fun model => post_movie_effect_lookup _ _ _ _ _ model Heff)
    as Hlookup.
  destruct Heff as (country & nc & cg & ca & cl & og & oa & ol & Heff).
  cbv zeta in Heff. destruct Heff as (_ & Hc & _ & _ & _ & Hstore & Hdetail).
  assert (Ec : countries store' = countries store ++ nc)
    by (rewrite Hstore; reflexivity).
  assert (Eid : MovieModel.id (MovieDetail.movie detail)
                = next_id (map MovieModel.id (movies store)))
    by (rewrite Hdetail; reflexivity).
  destruct (country_resolved_in _ _ _ _ Hc) as [Hin Hcode].
  split.
  - exists country. rewrite Ec. split; [|tauto].
    rewrite Hdetail. cbn [load_movie MovieDetail.country new_movie_row
                          MovieModel.country_id].
    rewrite Ec in *. apply find_country_by_key; assumption.
  - intros model.
    destruct (Hlookup model) as (created & items & Hres & Htable & Hlk & ->).
    split.
    + intros row Hrow. apply related_inv in Hrow. tauto.
    + intros name. unfold names. rewrite in_map_iff. split.
      * intros (row & <- & Hrow). apply related_inv in Hrow.
        destruct Hrow as [Hrow Hlink]. rewrite Hlk, in_app_iff in Hlink.
        destruct Hlink as [Hold|Hnew].
        -- exfalso. destruct (Hlinks model _ Hold) as [Hfst _].
           cbn [fst] in Hfst. rewrite Eid in Hfst.
           exact (next_id_fresh _ Hfst).
        -- unfold links_to in Hnew. apply in_map_iff in Hnew.
           destruct Hnew as (obj & E & Hobj). injection E as E.
           destruct (resolved_in _ _ _ _ _ Hres Hobj) as [Hin' Hname].
           rewrite <- Htable in Hin'.
           rewrite (lookup_row_by_key _ row obj (Hl' model) Hrow Hin');
             auto.
      * intros Hreq.
        destruct (resolved_name _ _ _ _ name Hres Hreq) as (obj & Hobj & Hf).
        apply find_has_name_some in Hf. destruct Hf as [Hin' Hname].
        exists obj. split; [exact Hname|]. apply related_linked.
        -- rewrite Htable. exact Hin'.
        -- rewrite Hlk. apply in_or_app. right. unfold links_to.
           apply in_map_iff. exists obj. auto.
Qed.

Lemma order_by_desc_id_newest (m : MovieModel.t) (ms rest : list MovieModel.t) :
  (forall x, In x ms -> MovieModel.id x < MovieModel.id m) ->
  fold_right insert_desc (m :: rest) ms
  = m :: fold_right insert_desc rest ms.
Proof.
  induction ms as [|x ms IH]; intros Hlt; [reflexivity|].
  cbn [fold_right]. rewrite IH by (intros y Hy; apply Hlt; right; exact Hy).
  cbn [insert_desc].
  assert (Hx : MovieModel.id x < MovieModel.id m) by (apply Hlt; left; reflexivity).
  destruct (MovieModel.id m <? MovieModel.id x) eqn:E; [|reflexivity].
  apply Z.ltb_lt in E. lia.
Qed.

(** X12. After a successful create request, the first page of the
    list, for any page size of at least one, is answered and starts with
    the created movie; it has no [prev_page], and [total_items] has
    grown by one. *)
Theorem post_movie_then_get_movies (movie : MovieCreateSchema.t)
        (store store' : Tables) (detail : MovieDetail.t) (per_page : Z) :
  1 <= per_page ->
  request (post_movie pycountry_countries_get constraints movie) store
  = (inr (Some detail), store') ->
  exists response,
    request (get_movies 1 per_page) store' = (inr response, store')
    /\ hd_error (MovieListResponse.movies response)
       = Some (MovieDetail.movie detail)
    /\ MovieListResponse.prev_page response = None
    /\ MovieListResponse.total_items response
       = Z.of_nat (List.length (movies store)) + 1.
Proof.
  intros Hper Hrun. apply post_movie_inv in Hrun.
  destruct Hrun as [(e & E & _)|(detail' & E & Heff)]; [discriminate|].
  injection E as <-.
  destruct Heff as (country & nc & cg & ca & cl & og & oa & ol & Heff).
  cbv zeta in Heff. destruct Heff as (_ & _ & _ & _ & _ & Hstore & Hdetail).
  set (new_movie := new_movie_row movie
                      (next_id (map MovieModel.id (movies store))) country)
    in *.
  assert (Em : movies store' = movies store ++ [new_movie])
    by (rewrite Hstore; reflexivity).
  assert (Elen : Z.of_nat (List.length (movies store'))
                 = Z.of_nat (List.length (movies store)) + 1)
    by (rewrite Em, length_app; simpl; lia).
  exists (page_response store' 1 per_page). split; [|split; [|split]].
  - apply get_movies_in_range; [exact Hper|]. split; [lia|].
    apply Z.div_le_lower_bound; lia.
  - unfold page_response, page_slice. cbn [MovieListResponse.movies].
    unfold order_by_desc_id. rewrite Em, fold_right_app. cbn [fold_right insert_desc].
    rewrite order_by_desc_id_newest.
    + replace ((1 - 1) * per_page) with 0 by lia.
      destruct (Z.to_nat per_page) as [|k] eqn:Ek; [lia|].
      rewrite Hdetail. reflexivity.
    + intros x Hx. apply next_id_greater. apply in_map. exact Hx.
  - reflexivity.
  - unfold page_response. cbn [MovieListResponse.total_items]. exact Elen.
Qed.

(** X13. If the country codes of the store are unique, they are still
    unique after a create request: a country row is created only for a
    code the table does not hold. *)
Theorem post_movie_country_codes (movie : MovieCreateSchema.t)
        (store store' : Tables) (r : Exception + option MovieDetail.t) :
  NoDup (map CountryModel.code (countries store)) ->
  request (post_movie pycountry_countries_get constraints movie) store
  = (r, store') ->
  NoDup (map CountryModel.code (countries store')).
Proof.
  intros Hcodes Hrun. apply post_movie_inv in Hrun.
  destruct Hrun as [(e & _ & -> & _)|(detail & _ & Heff)]; [exact Hcodes|].
  destruct Heff as (country & nc & cg & ca & cl & og & oa & ol & Heff).
  cbv zeta in Heff. destruct Heff as (_ & Hc & _ & _ & _ & -> & _).
  cbn [countries].
  destruct Hc as [[_ ->]|(Hnone & name & _ & -> & ->)];
    [rewrite app_nil_r; exact Hcodes|].
  rewrite map_app. cbn [map CountryModel.code].
  apply NoDup_rev in Hcodes. rewrite <- (rev_involutive (_ ++ _)).
  apply NoDup_rev. rewrite rev_app_distr. cbn [rev app]. constructor.
  - rewrite <- in_rev. intros Hin. apply in_map_iff in Hin.
    destruct Hin as (c & Ecode & Hin).
    apply (find_none _ _ Hnone) in Hin. rewrite Ecode, String.eqb_refl in Hin.
    discriminate.
  - exact Hcodes.
Qed.

Lemma find_rejects_all {A} (f : A -> bool) (rows : list A) :
  (forall x, In x rows -> f x = false) -> find f rows = None.
Proof.
  induction rows as [|r rows IH]; intros Hall; [reflexivity|].
  cbn [find]. rewrite (Hall r) by (left; reflexivity).
  apply IH. intros x Hx. apply Hall. right. exact Hx.
Qed.

Lemma name_date_is_free (name : string) (d : date) (m : MovieModel.t) :
  ~ (MovieModel.name m = Some name /\ MovieModel.date m = Some d) ->
  name_date_is name d m = false.
Proof.
  unfold name_date_is. intros Hfree.
  destruct (MovieModel.name m) as [n'|], (MovieModel.date m) as [d'|]; auto.
  destruct (String.eqb n' name) eqn:E1; [|reflexivity].
  destruct (d' =? d) eqn:E2; [|reflexivity].
  apply String.eqb_eq in E1. apply Z.eqb_eq in E2. subst.
  exfalso. apply Hfree. auto.
Qed.

Lemma find_code_absent (code : string) (table : list CountryModel.t) :
  ~ In code (map CountryModel.code table) ->
  find (fun c => String.eqb (CountryModel.code c) code) table = None.
Proof.
  intros Habsent. apply find_rejects_all. intros c Hc.
  destruct (String.eqb (CountryModel.code c) code) eqn:E; [|reflexivity].
  apply String.eqb_eq in E. exfalso. apply Habsent. rewrite <- E.
  apply in_map. exact Hc.
Qed.

(** X14. A create request whose (name, date) pair is free, and whose
    country code is neither in the countries table nor known to
    pycountry, fails with the AttributeError of [country.name] on
    [None], not with an HTTP error; the store is unchanged. *)
Theorem post_movie_unknown_country (movie : MovieCreateSchema.t)
        (store : Tables) :
  (forall m, In m (movies store) ->
             ~ (MovieModel.name m = Some (MovieCreateSchema.name movie)
                /\ MovieModel.date m = Some (MovieCreateSchema.date movie))) ->
  ~ In (MovieCreateSchema.country movie)
       (map CountryModel.code (countries store)) ->
  pycountry_countries_get (MovieCreateSchema.country movie) = None ->
  request (post_movie pycountry_countries_get constraints movie) store
  = (inl AttributeError, store).
Proof.
  intros Hfree Hcode Hname.
  unfold request, post_movie, bind, query. cbn [working].
  rewrite find_rejects_all
    by (intros m Hm; apply name_date_is_free, Hfree, Hm).
  rewrite find_code_absent by exact Hcode. rewrite Hname. reflexivity.
Qed.

Lemma filter_keeps_distinct {K} (key : MovieModel.t -> K)
      (keep : MovieModel.t -> bool) (ms : list MovieModel.t) :
  NoDup (map key ms) -> NoDup (map key (filter keep ms)).
Proof.
  induction ms as [|m ms IH]; intros Hkeys; [constructor|].
  cbn [map] in Hkeys. inversion Hkeys as [|? ? Hm Hrest]; subst.
  cbn [filter]. destruct (keep m); [|auto]. cbn [map]. constructor; [|auto].
  intros Hin. apply Hm. apply in_map_iff in Hin.
  destruct Hin as (x & E & Hx). apply filter_In in Hx. rewrite <- E.
  apply in_map. tauto.
Qed.

(** X15. If no two movies of the store have the same name and date,
    the same holds after a create request and after a delete
    request. *)
Theorem name_date_pairs_kept (store store' : Tables) :
  NoDup (map name_date (movies store)) ->
  (forall movie r,
      request (post_movie pycountry_countries_get constraints movie) store
      = (r, store') -> NoDup (map name_date (movies store')))
  /\ (forall movie_id r,
         request (delete_movie constraints movie_id) store = (r, store') ->
         NoDup (map name_date (movies store'))).
Proof.
  intros Hpairs. split.
  - intros movie r Hrun. apply post_movie_inv in Hrun.
    destruct Hrun as [(e & _ & -> & _)|(detail & _ & Heff)]; [exact Hpairs|].
    destruct Heff as (country & nc & cg & ca & cl & og & oa & ol & Heff).
    cbv zeta in Heff. destruct Heff as (Hfree & _ & _ & _ & _ & -> & _).
    cbn [movies]. rewrite map_app. apply distinct_keys_snoc; [exact Hpairs|].
    cbn [map]. intros Hin. apply in_map_iff in Hin.
    destruct Hin as (m & E & Hm). unfold name_date in E.
    cbn [new_movie_row MovieModel.name MovieModel.date] in E.
    injection E as En Ed.
    destruct (name_date_is_found movie _ m Hm En Ed) as [m' Hfound].
    congruence.
  - intros movie_id r Hrun. apply delete_movie_inv in Hrun.
    destruct Hrun as [(e & _ & -> & _)|(_ & _ & _ & ->)]; [exact Hpairs|].
    cbn [apply_statement delete_movie_rows movies].
    apply filter_keeps_distinct. exact Hpairs.
Qed.

Lemma select_one (movie_id : Z) (ms : list MovieModel.t) (m : MovieModel.t) :
  NoDup (map MovieModel.id ms) -> In m ms -> MovieModel.id m = movie_id ->
  filter (fun x => MovieModel.id x =? movie_id) ms = [m].
Proof.
  intros Hkeys Hin Hid.
  destruct (filter_primary_key movie_id ms Hkeys) as (m0 & _ & _ & Hf).
  - rewrite <- Hid. apply in_map. exact Hin.
  - assert (H : In m (filter (fun x => MovieModel.id x =? movie_id) ms))
      by (apply filter_In; split; [exact Hin | apply Z.eqb_eq; exact Hid]).
    rewrite Hf in H. destruct H as [->|[]]. exact Hf.
Qed.

Lemma get_movie_run (movie_id : Z) (store : Tables) (m : MovieModel.t) :
  in_key_range movie_id = true ->
  filter (fun x => MovieModel.id x =? movie_id) (movies store) = [m] ->
  request (get_movie movie_id) store = (inr (load_movie store m), store).
Proof.
  intros Hrange Hf. unfold request, get_movie, bind.
  rewrite select_movie_run, Hrange. cbn [working]. rewrite Hf. reflexivity.
Qed.

Lemma get_movie_missing (movie_id : Z) (store : Tables) :
  in_key_range movie_id = true ->
  ~ In movie_id (map MovieModel.id (movies store)) ->
  request (get_movie movie_id) store
  = (inl (HTTPException 404 "Movie with the given ID was not found."), store).
Proof.
  intros Hrange Habsent. unfold request, get_movie, bind.
  rewrite select_movie_run, Hrange.
  cbn [working]. rewrite filter_absent by exact Habsent. reflexivity.
Qed.

Lemma delete_movie_missing (movie_id : Z) (store : Tables) :
  in_key_range movie_id = true ->
  ~ In movie_id (map MovieModel.id (movies store)) ->
  request (delete_movie constraints movie_id) store
  = (inl (HTTPException 404 "Movie with the given ID was not found."), store).
Proof.
  intros Hrange Habsent. unfold request, delete_movie, bind.
  rewrite select_movie_run, Hrange.
  cbn [working]. rewrite filter_absent by exact Habsent. reflexivity.
Qed.

Lemma update_movie_missing (movie_id : Z) (u : MovieUpdateSchema.t)
      (store : Tables) :
  in_key_range movie_id = true ->
  ~ In movie_id (map MovieModel.id (movies store)) ->
  request (update_movie constraints movie_id u) store
  = (inl (HTTPException 404 "Movie with the given ID was not found."), store).
Proof.
  intros Hrange Habsent. unfold request, update_movie, bind.
  rewrite select_movie_run, Hrange.
  cbn [working]. rewrite filter_absent by exact Habsent. reflexivity.
Qed.

Lemma delete_movie_run (movie_id : Z) (store : Tables) (m : MovieModel.t) :
  in_key_range movie_id = true ->
  filter (fun x => MovieModel.id x =? movie_id) (movies store) = [m] ->
  request (delete_movie constraints movie_id) store
  = (inr tt, delete_movie_rows (MovieModel.id m) store).
Proof.
  intros Hrange Hf. unfold request, delete_movie, bind.
  rewrite select_movie_run, Hrange. cbn [working]. rewrite Hf. reflexivity.
Qed.

Lemma update_movie_run (movie_id : Z) (u : MovieUpdateSchema.t)
      (store : Tables) (m : MovieModel.t) :
  in_key_range movie_id = true ->
  filter (fun x => MovieModel.id x =? movie_id) (movies store) = [m] ->
  request (update_movie constraints movie_id u) store
  = match dict_exclude_unset u with
    | [] => (inr "Movie updated successfully.", store)
    | _ :: _ =>
        if constraints store (UpdateMovie (spec_partial_update u m))
        then (inr "Movie updated successfully.",
              set_movies
                (update_rows (spec_partial_update u m) (movies store)) store)
        else (inl IntegrityError, store)
    end.
Proof.
  intros Hrange Hf. destruct (filter_key_found _ _ _ _ Hf) as [Hin Hid].
  unfold request, update_movie, bind at 1. rewrite select_movie_run, Hrange.
  cbn [working]. rewrite Hf. cbn [MovieDetail.movie load_movie].
  rewrite setattr_loop_spec.
  destruct (dict_exclude_unset u) as [|item rest] eqn:Ed.
  - rewrite (dict_exclude_unset_nil u m Ed).
    unfold bind, ret, commit, bind, flush, publish.
    cbn [pending working committed run_statements].
    rewrite (refresh_found _ _ m) by (cbn [working]; auto). reflexivity.
  - unfold bind, register, commit, bind, flush, publish.
    cbn [pending working committed run_statements app accepted].
    destruct (constraints store (UpdateMovie (spec_partial_update u m)));
      [|reflexivity].
    cbn [working committed apply_statement].
    rewrite (refresh_found _ _ (spec_partial_update u m)); [reflexivity| |
      reflexivity].
    cbn [working set_movies movies].
    unfold update_rows. apply in_map_iff. exists m.
    cbn [spec_partial_update MovieModel.id]. rewrite Z.eqb_refl. auto.
Qed.

(** The three handlers that look a movie up, case by case of the
    lookup. *)
Lemma get_movie_cases (movie_id : Z) (store : Tables) :
  request (get_movie movie_id) store
  = if in_key_range movie_id
    then match filter (fun x => MovieModel.id x =? movie_id) (movies store)
         with
         | [] => (inl (HTTPException 404
                         "Movie with the given ID was not found."), store)
         | [m] => (inr (load_movie store m), store)
         | _ :: _ :: _ => (inl MultipleResultsFound, store)
         end
    else (inl OverflowError, store).
Proof.
  unfold request, get_movie, bind. rewrite select_movie_run. cbn [working].
  destruct (in_key_range movie_id); [|reflexivity].
  destruct (filter _ (movies store)) as [|m [|m' ms]]; reflexivity.
Qed.

Lemma delete_movie_cases (movie_id : Z) (store : Tables) :
  request (delete_movie constraints movie_id) store
  = if in_key_range movie_id
    then match filter (fun x => MovieModel.id x =? movie_id) (movies store)
         with
         | [] => (inl (HTTPException 404
                         "Movie with the given ID was not found."), store)
         | [m] => (inr tt, delete_movie_rows (MovieModel.id m) store)
         | _ :: _ :: _ => (inl MultipleResultsFound, store)
         end
    else (inl OverflowError, store).
Proof.
  unfold request, delete_movie, bind. rewrite select_movie_run.
  cbn [working].
  destruct (in_key_range movie_id); [|reflexivity].
  destruct (filter _ (movies store)) as [|m [|m' ms]]; reflexivity.
Qed.

Lemma update_movie_lookup_fails (movie_id : Z) (u : MovieUpdateSchema.t)
      (store : Tables) :
  request (update_movie constraints movie_id u) store
  = if in_key_range movie_id
    then match filter (fun x => MovieModel.id x =? movie_id) (movies store)
         with
         | [] => (inl (HTTPException 404
                         "Movie with the given ID was not found."), store)
         | [m] => request (update_movie constraints movie_id u) store
         | _ :: _ :: _ => (inl MultipleResultsFound, store)
         end
    else (inl OverflowError, store).
Proof.
  destruct (in_key_range movie_id) eqn:Hrange;
    [destruct (filter _ (movies store)) as [|m [|m' ms]] eqn:Ef;
     [|reflexivity|]|];
    unfold request, update_movie, bind; rewrite select_movie_run, Hrange;
    cbn [working]; rewrite ?Ef; reflexivity.
Qed.

(** Under the primary key no id selects two rows. *)
Lemma two_rows_not_distinct (movie_id : Z) (ms rest : list MovieModel.t)
      (m m' : MovieModel.t) :
  filter (fun x => MovieModel.id x =? movie_id) ms = m :: m' :: rest ->
  ~ NoDup (map MovieModel.id ms).
Proof.
  intros Ef Hkeys. destruct (filter_key_found _ _ _ _ Ef) as [Hin Hid].
  destruct (filter_primary_key movie_id ms Hkeys) as (m0 & _ & _ & Hf).
  - rewrite <- Hid. apply in_map. exact Hin.
  - rewrite Hf in Ef. discriminate.
Qed.

Lemma filter_empty_absent (movie_id : Z) (ms : list MovieModel.t) :
  filter (fun x => MovieModel.id x =? movie_id) ms = [] ->
  ~ In movie_id (map MovieModel.id ms).
Proof.
  intros Ef Hin. apply in_map_iff in Hin. destruct Hin as (m & Hid & Hin).
  assert (Hf : In m (filter (fun x => MovieModel.id x =? movie_id) ms))
    by (apply filter_In; split; [exact Hin | apply Z.eqb_eq; exact Hid]).
  rewrite Ef in Hf. destruct Hf.
Qed.

(** X4. Getting a movie by id never changes the store.  An id the
    driver cannot bind (outside the range of the key) is answered by an
    [OverflowError], not by 404; an id within the range that no movie has
    is answered by 404 "Movie with the given ID was not found."; and
    where ids are unique, the id of a movie is answered by that movie,
    loaded with its country and its relations.  The three handlers look
    the movie up alike: an id on which a get fails makes a delete and an
    update fail with the same error, the store unchanged. *)
Theorem get_movie_by_key (movie_id : Z) (store : Tables) :
  (in_key_range movie_id = false ->
   request (get_movie movie_id) store = (inl OverflowError, store))
  /\ (in_key_range movie_id = true ->
      ~ In movie_id (map MovieModel.id (movies store)) ->
      request (get_movie movie_id) store
      = (inl (HTTPException 404 "Movie with the given ID was not found."),
         store))
  /\ (in_key_range movie_id = true ->
      NoDup (map MovieModel.id (movies store)) ->
      forall m, In m (movies store) -> MovieModel.id m = movie_id ->
                request (get_movie movie_id) store
                = (inr (load_movie store m), store))
  /\ (forall r store',
         request (get_movie movie_id) store = (r, store') -> store' = store)
  /\ (forall e,
         request (get_movie movie_id) store = (inl e, store) ->
         request (delete_movie constraints movie_id) store = (inl e, store)
         /\ forall u,
             request (update_movie constraints movie_id u) store
             = (inl e, store)).
Proof.
  split; [|split; [|split; [|split]]].
  - intros Hrange. rewrite get_movie_cases, Hrange. reflexivity.
  - intros Hrange Hno. apply get_movie_missing; assumption.
  - intros Hrange Hkeys m Hin Hid. apply get_movie_run; [exact Hrange|].
    apply select_one; assumption.
  - intros r store'. rewrite get_movie_cases.
    destruct (in_key_range movie_id);
      [destruct (filter _ (movies store)) as [|m [|m' ms]]|];
      intros H; injection H as _ <-; reflexivity.
  - intros e. rewrite get_movie_cases, delete_movie_cases.
    destruct (in_key_range movie_id) eqn:Hrange.
    + destruct (filter _ (movies store)) as [|m [|m' ms]] eqn:Ef;
        [|discriminate|];
        intros H; injection H as <-; (split; [reflexivity|]); intros u;
        rewrite update_movie_lookup_fails, Hrange, Ef; reflexivity.
    + intros H. injection H as <-. split; [reflexivity|]. intros u.
      rewrite update_movie_lookup_fails, Hrange. reflexivity.
Qed.

(** X16. The outcomes of an update request.  A request that fails
    leaves the store unchanged, and it fails with an [OverflowError]
    exactly when the driver cannot bind the id, with 404 for an id
    within the range that no movie has, with [MultipleResultsFound] only
    if the ids are not unique, and with an [IntegrityError] only for the
    id of a movie, a payload that sets a field, and a schema that
    rejects a statement.  A request that succeeds answers
    "Movie updated successfully." for the id of a movie; when its payload
    sets no field, the store is unchanged. *)
Theorem update_movie_outcomes (movie_id : Z) (u : MovieUpdateSchema.t)
        (store store' : Tables) (r : Exception + string) :
  request (update_movie constraints movie_id u) store = (r, store') ->
  match r with
  | inl e =>
      store' = store
      /\ ((e = OverflowError /\ in_key_range movie_id = false)
          \/ (e = HTTPException 404 "Movie with the given ID was not found."
              /\ in_key_range movie_id = true
              /\ ~ In movie_id (map MovieModel.id (movies store)))
          \/ (e = MultipleResultsFound
              /\ ~ NoDup (map MovieModel.id (movies store)))
          \/ (e = IntegrityError
              /\ In movie_id (map MovieModel.id (movies store))
              /\ dict_exclude_unset u <> []
              /\ rejecting constraints))
  | inr msg =>
      msg = "Movie updated successfully."
      /\ in_key_range movie_id = true
      /\ In movie_id (map MovieModel.id (movies store))
      /\ (dict_exclude_unset u = [] -> store' = store)
  end.
Proof.
  rewrite update_movie_lookup_fails.
  destruct (in_key_range movie_id) eqn:Hrange;
    [|intros H; injection H as <- <-; auto].
  destruct (filter _ (movies store)) as [|m [|m' ms]] eqn:Ef.
  - intros H. injection H as <- <-. split; [reflexivity|]. right. left.
    split; [reflexivity|]. split; [reflexivity|].
    apply filter_empty_absent. exact Ef.
  - destruct (filter_key_found _ _ _ _ Ef) as [Hin Hid].
    assert (Hfound : In movie_id (map MovieModel.id (movies store)))
      by (rewrite <- Hid; apply in_map; exact Hin).
    rewrite (update_movie_run _ u _ m Hrange Ef).
    destruct (dict_exclude_unset u) as [|item items] eqn:Ed.
    + intros H. injection H as <- <-. auto.
    + destruct (constraints store (UpdateMovie (spec_partial_update u m)))
        eqn:Ec; intros H; injection H as <- <-.
      * split; [reflexivity|]. split; [reflexivity|]. split; [exact Hfound|].
        discriminate.
      * split; [reflexivity|]. right. right. right.
        split; [reflexivity|]. split; [exact Hfound|].
        split; [discriminate|]. unfold rejecting. eauto.
  - intros H. injection H as <- <-. split; [reflexivity|]. right. right. left.
    split; [reflexivity|]. eapply two_rows_not_distinct. exact Ef.
Qed.

(** X17. An update request does not repeat the conflict check of a
    create request: unless the schema itself rejects the UPDATE, giving a
    movie the name of another movie released on the same date succeeds,
    and the store then holds two movies with that name and date. *)
Theorem update_movie_no_conflict_check (store : Tables)
        (m1 m2 : MovieModel.t) :
  let u := MovieUpdateSchema.mk (IsSet (MovieModel.name m1))
                                NotSet NotSet NotSet NotSet NotSet NotSet in
  NoDup (map MovieModel.id (movies store)) ->
  In m1 (movies store) -> In m2 (movies store) ->
  MovieModel.id m1 <> MovieModel.id m2 ->
  MovieModel.date m2 = MovieModel.date m1 ->
  in_key_range (MovieModel.id m2) = true ->
  constraints store (UpdateMovie (spec_partial_update u m2)) = true ->
  exists store',
    request (update_movie constraints (MovieModel.id m2) u) store
    = (inr "Movie updated successfully.", store')
    /\ In m1 (movies store')
    /\ In (spec_partial_update u m2) (movies store')
    /\ MovieModel.id (spec_partial_update u m2) <> MovieModel.id m1
    /\ name_date (spec_partial_update u m2) = name_date m1.
Proof.
  intros u Hkeys H1 H2 Hne Hdate Hrange Hok.
  eexists. split; [|split; [|split; [|split]]].
  - rewrite (update_movie_run _ u _ m2 Hrange)
      by (apply select_one; auto).
    cbn [dict_exclude_unset]. unfold u in *. cbn. rewrite Hok. reflexivity.
  - cbn [set_movies movies]. unfold update_rows. apply in_map_iff.
    exists m1. split; [|exact H1].
    cbn [spec_partial_update MovieModel.id].
    destruct (MovieModel.id m1 =? MovieModel.id m2) eqn:E; [|reflexivity].
    apply Z.eqb_eq in E. contradiction.
  - cbn [set_movies movies]. unfold update_rows. apply in_map_iff.
    exists m2. split; [|exact H2].
    cbn [spec_partial_update MovieModel.id]. rewrite Z.eqb_refl. reflexivity.
  - cbn [spec_partial_update MovieModel.id]. congruence.
  - unfold name_date, u. cbn. rewrite Hdate. reflexivity.
Qed.

Lemma spec_partial_update_twice (u : MovieUpdateSchema.t) (m : MovieModel.t) :
  spec_partial_update u (spec_partial_update u m) = spec_partial_update u m.
Proof.
  unfold spec_partial_update. cbn [MovieModel.id MovieModel.name MovieModel.date
    MovieModel.score MovieModel.overview MovieModel.status MovieModel.budget
    MovieModel.revenue MovieModel.country_id].
  destruct u as [n d s o st b r]. cbn.
  destruct n, d, s, o, st, b, r; reflexivity.
Qed.

Lemma update_rows_twice (row : MovieModel.t) (ms : list MovieModel.t) :
  update_rows row (update_rows row ms) = update_rows row ms.
Proof.
  unfold update_rows. rewrite map_map. apply map_ext. intros m.
  destruct (MovieModel.id m =? MovieModel.id row) eqn:E;
    [rewrite Z.eqb_refl | rewrite E]; reflexivity.
Qed.

(** X18. An update request is idempotent: the same request on the
    store that the first one left changes nothing more. *)
Theorem update_movie_twice (movie_id : Z) (u : MovieUpdateSchema.t)
        (store store1 store2 : Tables) (r1 r2 : Exception + string) :
  request (update_movie constraints movie_id u) store = (r1, store1) ->
  request (update_movie constraints movie_id u) store1 = (r2, store2) ->
  store2 = store1.
Proof.
  intros Hrun1 Hrun2. pose proof Hrun1 as Hinv1.
  apply update_movie_inv in Hinv1.
  destruct Hinv1 as [(e & _ & E1)|(m & Hm & Hid & _ & _ & E1)].
  - subst store1. rewrite Hrun1 in Hrun2. congruence.
  - apply update_movie_inv in Hrun2.
    destruct Hrun2 as [(e & _ & E2)|(m2 & Hm2 & Hid2 & _ & _ & E2)];
      [exact E2|].
    assert (Em2 : m2 = spec_partial_update u m).
    { rewrite E1 in Hm2. cbn [set_movies movies] in Hm2.
      unfold update_rows in Hm2. apply in_map_iff in Hm2.
      destruct Hm2 as (x & Ex & _).
      cbn [spec_partial_update MovieModel.id] in Ex.
      destruct (MovieModel.id x =? MovieModel.id m) eqn:E; [auto|].
      apply Z.eqb_neq in E. congruence. }
    rewrite E2, Em2, spec_partial_update_twice, E1.
    cbn [set_movies movies countries genres actors languages movies_genres
         movies_actors movies_languages].
    rewrite update_rows_twice. reflexivity.
Qed.

Lemma filter_update_rows (movie_id : Z) (row : MovieModel.t)
      (ms : list MovieModel.t) :
  filter (fun x => MovieModel.id x =? movie_id) (update_rows row ms)
  = update_rows row (filter (fun x => MovieModel.id x =? movie_id) ms).
Proof.
  unfold update_rows. induction ms as [|m ms IH]; [reflexivity|].
  cbn [map filter].
  assert (E : MovieModel.id
                (if MovieModel.id m =? MovieModel.id row then row else m)
              = MovieModel.id m).
  { destruct (MovieModel.id m =? MovieModel.id row) eqn:E; [|reflexivity].
    apply Z.eqb_eq in E. auto. }
  rewrite E. destruct (MovieModel.id m =? movie_id); cbn [map]; rewrite IH;
    reflexivity.
Qed.

Lemma load_movie_set_movies (ms : list MovieModel.t) (store : Tables)
      (m : MovieModel.t) :
  load_movie (set_movies ms store) m
  = MovieDetail.mk m
      (find (fun c => CountryModel.id c =? MovieModel.country_id m)
            (countries store))
      (related GenreModel store (MovieModel.id m))
      (related ActorModel store (MovieModel.id m))
      (related LanguageModel store (MovieModel.id m)).
Proof. reflexivity. Qed.

(** X19. After a successful update request (ids being unique),
    getting the movie by its id gives the movie with the fields of the
    payload set and every other field as before, and with the country,
    genres, actors and languages it had before. *)
Theorem update_movie_then_get_movie (movie_id : Z) (u : MovieUpdateSchema.t)
        (store store' : Tables) (msg : string) (m : MovieModel.t) :
  NoDup (map MovieModel.id (movies store)) ->
  In m (movies store) -> MovieModel.id m = movie_id ->
  request (update_movie constraints movie_id u) store = (inr msg, store') ->
  let before := load_movie store m in
  request (get_movie movie_id) store'
  = (inr (MovieDetail.mk (spec_partial_update u m)
            (MovieDetail.country before) (MovieDetail.genres before)
            (MovieDetail.actors before) (MovieDetail.languages before)),
     store').
Proof.
  intros Hkeys Hin Hid Hrun before.
  pose proof (select_one _ _ _ Hkeys Hin Hid) as Hf.
  pose proof (update_movie_in_range _ _ _ _ _ _ Hrun) as Hrange.
  rewrite (update_movie_run _ u _ m Hrange Hf) in Hrun.
  destruct (dict_exclude_unset u) as [|item rest] eqn:Ed.
  - injection Hrun as _ <-. rewrite (get_movie_run _ _ m Hrange Hf).
    rewrite (dict_exclude_unset_nil u m Ed). reflexivity.
  - destruct (constraints store (UpdateMovie (spec_partial_update u m)));
      [|discriminate].
    injection Hrun as _ <-.
    rewrite (get_movie_run _ _ (spec_partial_update u m) Hrange).
    + rewrite load_movie_set_movies. reflexivity.
    + cbn [set_movies movies]. rewrite filter_update_rows, Hf.
      unfold update_rows. cbn [map spec_partial_update MovieModel.id].
      rewrite Z.eqb_refl. reflexivity.
Qed.

Lemma filter_split_length (movie_id : Z) (ms : list MovieModel.t) :
  (List.length (filter (fun m => (MovieModel.id m =? movie_id)%Z) ms)
   + List.length (filter (fun m => negb (MovieModel.id m =? movie_id)%Z) ms)
   = List.length ms)%nat.
Proof.
  induction ms as [|m ms IH]; [reflexivity|]. cbn [filter].
  destruct (MovieModel.id m =? movie_id); cbn [negb List.length]; lia.
Qed.

Lemma deleted_key_gone (movie_id : Z) (store : Tables) :
  ~ In movie_id
       (map MovieModel.id (movies (delete_movie_rows movie_id store))).
Proof.
  cbn [delete_movie_rows movies]. intros Hin. apply in_map_iff in Hin.
  destruct Hin as (m & Hid & Hm). apply filter_In in Hm.
  destruct Hm as [_ Hne]. apply negb_true_iff, Z.eqb_neq in Hne. contradiction.
Qed.

(** X20. After a successful delete request the movie is gone:
    getting, deleting or updating the same id is answered by 404, and
    the store holds exactly one movie less. *)
Theorem delete_movie_then_gone (movie_id : Z) (store store' : Tables) :
  request (delete_movie constraints movie_id) store = (inr tt, store') ->
  let not_found :=
    HTTPException 404 "Movie with the given ID was not found." in
  request (get_movie movie_id) store' = (inl not_found, store')
  /\ request (delete_movie constraints movie_id) store'
     = (inl not_found, store')
  /\ (forall u, request (update_movie constraints movie_id u) store'
                = (inl not_found, store'))
  /\ S (List.length (movies store')) = List.length (movies store).
Proof.
  intros Hrun not_found. rewrite delete_movie_cases in Hrun.
  destruct (in_key_range movie_id) eqn:Hrange; [|discriminate].
  pose proof (filter_split_length movie_id (movies store)) as Hlen.
  destruct (filter (fun m => MovieModel.id m =? movie_id) (movies store))
    as [|m [|m' rest]] eqn:Hf; [discriminate| |discriminate].
  destruct (filter_key_found _ _ _ _ Hf) as [_ Hid].
  injection Hrun as <-. rewrite Hid.
  pose proof (deleted_key_gone movie_id store) as Hgone.
  split; [apply get_movie_missing; assumption|].
  split; [apply delete_movie_missing; assumption|].
  split; [intros u; apply update_movie_missing; assumption|].
  cbn [delete_movie_rows movies]. cbn [List.length] in Hlen. lia.
Qed.

Lemma filter_keeps_old_rows (ms : list MovieModel.t) (m : MovieModel.t) :
  ~ In (MovieModel.id m) (map MovieModel.id ms) ->
  filter (fun x => negb (MovieModel.id x =? MovieModel.id m)) (ms ++ [m]) = ms.
Proof.
  intros Hfresh. rewrite filter_app. cbn [filter]. rewrite Z.eqb_refl.
  cbn [negb]. rewrite app_nil_r. induction ms as [|x ms IH]; [reflexivity|].
  cbn [filter]. destruct (MovieModel.id x =? MovieModel.id m) eqn:E.
  - apply Z.eqb_eq in E. exfalso. apply Hfresh. left. exact E.
  - cbn [negb]. f_equal. apply IH. intros Hin. apply Hfresh. right. exact Hin.
Qed.

Lemma delete_links_new (movie_id : Z) (links : list (Z * Z))
      (items : list NamedModel.t) :
  (forall l, In l links -> fst l <> movie_id) ->
  delete_links movie_id (links ++ links_to movie_id items) = links.
Proof.
  intros Hold. unfold delete_links. rewrite filter_app.
  replace (filter _ (links_to movie_id items)) with (@nil (Z * Z)).
  - rewrite app_nil_r. induction links as [|l links IH]; [reflexivity|].
    cbn [filter].
    destruct (fst l =? movie_id) eqn:E.
    + apply Z.eqb_eq in E. exfalso. apply (Hold l); [left; reflexivity|exact E].
    + cbn [negb]. f_equal. apply IH. intros l' Hl'. apply Hold. right. exact Hl'.
  - unfold links_to. induction items as [|obj items IH]; [reflexivity|].
    cbn [map filter fst]. rewrite Z.eqb_refl. cbn [negb]. exact IH.
Qed.

(** X21. Deleting the movie that a create request has just created
    succeeds and restores the movies and the three link tables as they
    were before the create request; the country and the lookup rows
    that the create request added stay (the store's references being
    sound before, and the id the engine gave the movie being within the
    range of the key). *)
Theorem post_movie_then_delete_movie (movie : MovieCreateSchema.t)
        (store store1 : Tables) (detail : MovieDetail.t) :
  references_hold store ->
  request (post_movie pycountry_countries_get constraints movie) store
  = (inr (Some detail), store1) ->
  in_key_range (MovieModel.id (MovieDetail.movie detail)) = true ->
  exists store2,
    request (delete_movie constraints
                          (MovieModel.id (MovieDetail.movie detail))) store1
    = (inr tt, store2)
    /\ movies store2 = movies store
    /\ countries store2 = countries store1
    /\ forall model,
        link_table model store2 = link_table model store
        /\ lookup_table model store2 = lookup_table model store1.
Proof.
  intros [_ Hlinks] Hrun Hrange. apply post_movie_inv in Hrun.
  destruct Hrun as [(e & E & _)|(detail' & E & Heff)]; [discriminate|].
  injection E as <-.
  destruct Heff as (country & nc & cg & ca & cl & og & oa & ol & Heff).
  cbv zeta in Heff. destruct Heff as (_ & _ & _ & _ & _ & Hstore & ->).
  set (new_movie := new_movie_row movie
                      (next_id (map MovieModel.id (movies store))) country)
    in *.
  cbn [load_movie MovieDetail.movie] in *.
  assert (Hfresh : ~ In (MovieModel.id new_movie)
                        (map MovieModel.id (movies store)))
    by apply next_id_fresh.
  assert (Hold : forall model l, In l (link_table model store) ->
                                 fst l <> MovieModel.id new_movie).
  { intros model l Hl E. destruct (Hlinks model l Hl) as [Hfst _].
    rewrite E in Hfst. exact (Hfresh Hfst). }
  eexists. split.
  - apply (delete_movie_run _ _ new_movie); [exact Hrange|].
    rewrite Hstore. cbn [movies]. apply filter_fresh_key. exact Hfresh.
  - rewrite Hstore. cbn [delete_movie_rows movies countries].
    split; [apply filter_keeps_old_rows; exact Hfresh|].
    split; [reflexivity|].
    intros [| |]; cbn [link_table lookup_table movies_genres movies_actors
                       movies_languages genres actors languages];
      (split; [|reflexivity]); apply delete_links_new.
    + exact (Hold GenreModel).
    + exact (Hold ActorModel).
    + exact (Hold LanguageModel).
Qed.

End MoreHandlerProperties.

(** ** [get_or_create] *)

Section GetOrCreate.

Variable constraints : Tables -> Statement -> bool.

Lemma resolved_names (table created items : list NamedModel.t)
      (name_list : list string) :
  resolved table name_list created items -> names items = name_list.
Proof.
  intros [Hres _]. unfold names.
  induction Hres as [|name obj names_ items_ Hfind _ IH]; [reflexivity|].
  cbn [map]. apply find_has_name_some in Hfind. destruct Hfind as [_ ->].
  rewrite IH. reflexivity.
Qed.

Lemma get_or_create_loop_found (schema : Tables -> Statement -> bool)
      (model : Lookup) (s : Session) :
  forall (name_list : list string) (objs items : list NamedModel.t),
    Forall2 (fun name obj =>
               find (has_name name) (lookup_table model (working s))
               = Some obj) name_list objs ->
    get_or_create_loop schema model name_list items s
    = (inr (items ++ objs), s).
Proof.
  intros name_list objs items Hall. revert items.
  induction Hall as [|name obj names_ objs_ Hfind _ IH]; intros items.
  - cbn [get_or_create_loop]. rewrite app_nil_r. reflexivity.
  - cbn [get_or_create_loop]. unfold bind at 1. unfold query at 1.
    rewrite Hfind. unfold bind at 1. unfold ret at 1.
    rewrite IH, <- app_assoc. reflexivity.
Qed.

(** X22. [get_or_create], run with nothing pending, returns one row
    per name of the list, in the order of the list; each returned row is
    in the lookup table afterwards; and running it again over the same
    names returns the same rows and inserts nothing, whatever the
    schema. *)
Theorem get_or_create_names (model : Lookup) (name_list : list string)
        (s s' : Session) (items : list NamedModel.t) :
  pending s = [] ->
  get_or_create constraints model name_list s = (inr items, s') ->
  names items = name_list
  /\ incl items (lookup_table model (working s'))
  /\ forall schema : Tables -> Statement -> bool,
      get_or_create schema model name_list s' = (inr items, s').
Proof.
  intros Hp Hrun. unfold get_or_create in *.
  apply (get_or_create_loop_inv (fun _ => None) constraints) in Hrun;
    [|exact Hp].
  destruct Hrun as (_ & _ & created & objs & -> & Hw & Hres).
  cbn [app].
  assert (Et : lookup_table model (working s')
               = lookup_table model (working s) ++ created)
    by (rewrite Hw; apply lookup_table_set_same).
  split; [eapply resolved_names; exact Hres|].
  split.
  - intros obj Hobj. rewrite Et. eapply resolved_in; eassumption.
  - intros schema.
    apply (get_or_create_loop_found schema model s' name_list objs []).
    rewrite Et. exact (proj1 Hres).
Qed.

End GetOrCreate.

(** ** The further properties at the sample catalog *)

(** Settles [primary_keys] and [references_hold] of a literal store. *)
Ltac literal_store :=
  unfold primary_keys, references_hold; cbn;
  repeat match goal with
         | |- _ /\ _ => split
         | |- forall _ : Lookup, _ => intros [| |]; cbn
         | |- forall _, _ => intro
         | |- NoDup _ => constructor
         | |- ~ _ => intro
         | H : In _ _ |- _ => progress cbn in H
         | H : _ \/ _ |- _ => destruct H
         | H : False |- _ => destruct H
         | H : ?x = _ |- _ => is_var x; subst x; cbn
         | H : _ = ?x |- _ => is_var x; subst x; cbn
         | H : _ = _ |- _ => discriminate H
         end;
  auto 6.

Lemma get_movies_page_rows_witness :
  request (get_movies 2 1) catalog2 = (inr second_page, catalog2)
  /\ MovieListResponse.movies second_page = page_slice catalog2 2 1
  /\ StronglySorted id_desc (MovieListResponse.movies second_page)
  /\ incl (MovieListResponse.movies second_page) (movies catalog2).
Proof.
  assert (H : request (get_movies 2 1) catalog2 = (inr second_page, catalog2))
    by (vm_compute; reflexivity).
  split; [exact H|].
  destruct (get_movies_page_rows catalog2 catalog2 2 1 second_page H)
    as (_ & Hrows & _ & _ & Hsorted & Hincl & _).
  split; [exact Hrows|]. split; [exact Hsorted | exact Hincl].
Defined.

Lemma get_movies_pages_cover_witness :
  1 <= 1
  /\ exists responses,
      Forall2 (fun page response =>
                 request (get_movies (Z.of_nat page) 1) catalog2
                 = (inr response, catalog2))
              (seq 1 (Z.to_nat ((Z.of_nat (List.length (movies catalog2))
                                 + 1 - 1) / 1)))
              responses
      /\ List.concat (map MovieListResponse.movies responses)
         = order_by_desc_id (movies catalog2)
      /\ Permutation (List.concat (map MovieListResponse.movies responses))
                     (movies catalog2).
Proof.
  assert (H : 1 <= 1) by lia.
  split; [exact H|].
  exact (get_movies_pages_cover catalog2 1 H).
Defined.

Lemma get_movies_links_lead_to_pages_witness :
  (1 <= 1 /\ 1 <= 1
   /\ request (get_movies 1 1) catalog2 = (inr first_page, catalog2))
  /\ exists next,
      request (get_movies (1 + 1) 1) catalog2 = (inr next, catalog2)
      /\ MovieListResponse.prev_page next = Some (page_link 1 1).
Proof.
  assert (H1 : 1 <= 1) by lia.
  assert (H : request (get_movies 1 1) catalog2 = (inr first_page, catalog2))
    by (vm_compute; reflexivity).
  split; [auto|].
  destruct (get_movies_links_lead_to_pages catalog2 1 1 first_page H1 H1 H)
    as [Hnext _].
  exact (proj2 (Hnext _ eq_refl)).
Defined.

Lemma post_movie_then_get_movie_witness :
  (request (post_movie iso3166 no_constraints solaris) catalog1
   = (inr (Some solaris_detail), catalog2)
   /\ in_key_range (MovieModel.id (MovieDetail.movie solaris_detail)) = true)
  /\ request (get_movie (MovieModel.id (MovieDetail.movie solaris_detail)))
             catalog2
     = (inr solaris_detail, catalog2).
Proof.
  assert (H : request (post_movie iso3166 no_constraints solaris) catalog1
              = (inr (Some solaris_detail), catalog2))
    by (vm_compute; reflexivity).
  assert (Hrange : in_key_range
                     (MovieModel.id (MovieDetail.movie solaris_detail))
                   = true) by reflexivity.
  split; [auto|].
  exact (post_movie_then_get_movie iso3166 no_constraints solaris
           catalog1 catalog2 solaris_detail H Hrange).
Defined.

Lemma post_movie_appends_only_witness :
  request (post_movie iso3166 no_constraints solaris) catalog1
  = (inr (Some solaris_detail), catalog2)
  /\ exists new_movies new_countries,
      movies catalog2 = movies catalog1 ++ new_movies
      /\ countries catalog2 = countries catalog1 ++ new_countries
      /\ (List.length new_movies <= 1)%nat
      /\ (List.length new_countries <= 1)%nat
      /\ forall model,
          exists rows links,
            lookup_table model catalog2 = lookup_table model catalog1 ++ rows
            /\ link_table model catalog2
               = link_table model catalog1 ++ links.
Proof.
  assert (H : request (post_movie iso3166 no_constraints solaris) catalog1
              = (inr (Some solaris_detail), catalog2))
    by (vm_compute; reflexivity).
  split; [exact H|].
  exact (post_movie_appends_only iso3166 no_constraints solaris
           catalog1 catalog2 _ H).
Defined.

Lemma post_movie_answer_witness :
  request (post_movie iso3166 no_constraints solaris) catalog1
  = (inr (Some solaris_detail), catalog2)
  /\ exists detail,
      Some solaris_detail = Some detail
      /\ In (MovieDetail.movie detail) (movies catalog2)
      /\ MovieModel.name (MovieDetail.movie detail)
         = Some (MovieCreateSchema.name solaris)
      /\ forall old, In old (movies catalog1) ->
                     MovieModel.id old < MovieModel.id (MovieDetail.movie detail).
Proof.
  assert (H : request (post_movie iso3166 no_constraints solaris) catalog1
              = (inr (Some solaris_detail), catalog2))
    by (vm_compute; reflexivity).
  split; [exact H|].
  destruct (post_movie_answer iso3166 no_constraints solaris
              catalog1 catalog2 _ H) as (detail & W).
  cbv zeta in W. exists detail.
  split; [apply W|]. split; [apply W|]. split; apply W.
Defined.

Lemma post_movie_keeps_consistency_witness :
  (primary_keys catalog1 /\ references_hold catalog1
   /\ request (post_movie iso3166 no_constraints solaris) catalog1
      = (inr (Some solaris_detail), catalog2))
  /\ primary_keys catalog2 /\ references_hold catalog2.
Proof.
  assert (Hk : primary_keys catalog1) by literal_store.
  assert (Hr : references_hold catalog1) by literal_store.
  assert (H : request (post_movie iso3166 no_constraints solaris) catalog1
              = (inr (Some solaris_detail), catalog2))
    by (vm_compute; reflexivity).
  split; [auto|].
  exact (post_movie_keeps_consistency iso3166 no_constraints solaris
           catalog1 catalog2 _ Hk Hr H).
Defined.

Lemma delete_movie_keeps_consistency_witness :
  (primary_keys catalog2 /\ references_hold catalog2
   /\ request (delete_movie no_constraints 1) catalog2
      = (inr tt, catalog2_without_dune))
  /\ primary_keys catalog2_without_dune
  /\ references_hold catalog2_without_dune.
Proof.
  assert (Hk : primary_keys catalog2) by literal_store.
  assert (Hr : references_hold catalog2) by literal_store.
  assert (H : request (delete_movie no_constraints 1) catalog2
              = (inr tt, catalog2_without_dune))
    by (vm_compute; reflexivity).
  split; [auto|].
  exact (delete_movie_keeps_consistency no_constraints 1
           catalog2 catalog2_without_dune _ Hk Hr H).
Defined.

Lemma update_movie_keeps_consistency_witness :
  (primary_keys catalog2 /\ references_hold catalog2
   /\ request (update_movie no_constraints 1 (only_score 55%float)) catalog2
      = (inr "Movie updated successfully.", catalog2_rescored))
  /\ primary_keys catalog2_rescored /\ references_hold catalog2_rescored.
Proof.
  assert (Hk : primary_keys catalog2) by literal_store.
  assert (Hr : references_hold catalog2) by literal_store.
  assert (H : request (update_movie no_constraints 1 (only_score 55%float))
                      catalog2
              = (inr "Movie updated successfully.", catalog2_rescored))
    by (vm_compute; reflexivity).
  split; [auto|].
  exact (update_movie_keeps_consistency no_constraints 1
           (only_score 55%float) catalog2 catalog2_rescored _ Hk Hr H).
Defined.

Lemma post_movie_answer_relations_witness :
  (primary_keys catalog1 /\ references_hold catalog1
   /\ request (post_movie iso3166 no_constraints solaris) catalog1
      = (inr (Some solaris_detail), catalog2))
  /\ (exists country,
         MovieDetail.country solaris_detail = Some country
         /\ In country (countries catalog2)
         /\ CountryModel.code country = MovieCreateSchema.country solaris)
  /\ forall model,
      incl (loaded solaris_detail model) (lookup_table model catalog2)
      /\ forall name, In name (names (loaded solaris_detail model))
                      <-> In name (requested solaris model).
Proof.
  assert (Hk : primary_keys catalog1) by literal_store.
  assert (Hr : references_hold catalog1) by literal_store.
  assert (H : request (post_movie iso3166 no_constraints solaris) catalog1
              = (inr (Some solaris_detail), catalog2))
    by (vm_compute; reflexivity).
  split; [auto|].
  exact (post_movie_answer_relations iso3166 no_constraints solaris
           catalog1 catalog2 solaris_detail Hk Hr H).
Defined.

Lemma post_movie_then_get_movies_witness :
  (1 <= 10
   /\ request (post_movie iso3166 no_constraints solaris) catalog1
      = (inr (Some solaris_detail), catalog2))
  /\ exists response,
      request (get_movies 1 10) catalog2 = (inr response, catalog2)
      /\ hd_error (MovieListResponse.movies response)
         = Some (MovieDetail.movie solaris_detail)
      /\ MovieListResponse.prev_page response = None
      /\ MovieListResponse.total_items response
         = Z.of_nat (List.length (movies catalog1)) + 1.
Proof.
  assert (Hp : 1 <= 10) by lia.
  assert (H : request (post_movie iso3166 no_constraints solaris) catalog1
              = (inr (Some solaris_detail), catalog2))
    by (vm_compute; reflexivity).
  split; [auto|].
  exact (post_movie_then_get_movies iso3166 no_constraints solaris
           catalog1 catalog2 solaris_detail 10 Hp H).
Defined.

Lemma post_movie_country_codes_witness :
  (NoDup (map CountryModel.code (countries empty_tables))
   /\ request (post_movie iso3166 no_constraints dune) empty_tables
      = (inr (Some dune_detail), catalog1))
  /\ NoDup (map CountryModel.code (countries catalog1)).
Proof.
  assert (Hc : NoDup (map CountryModel.code (countries empty_tables)))
    by constructor.
  assert (H : request (post_movie iso3166 no_constraints dune) empty_tables
              = (inr (Some dune_detail), catalog1))
    by (vm_compute; reflexivity).
  split; [auto|].
  exact (post_movie_country_codes iso3166 no_constraints dune
           empty_tables catalog1 _ Hc H).
Defined.

Lemma post_movie_unknown_country_witness :
  ((forall m, In m (movies catalog1) ->
              ~ (MovieModel.name m = Some (MovieCreateSchema.name tenet)
                 /\ MovieModel.date m = Some (MovieCreateSchema.date tenet)))
   /\ ~ In (MovieCreateSchema.country tenet)
           (map CountryModel.code (countries catalog1))
   /\ iso3166 (MovieCreateSchema.country tenet) = None)
  /\ request (post_movie iso3166 no_constraints tenet) catalog1
     = (inl AttributeError, catalog1).
Proof.
  assert (Hfree : forall m, In m (movies catalog1) ->
                    ~ (MovieModel.name m = Some (MovieCreateSchema.name tenet)
                       /\ MovieModel.date m
                          = Some (MovieCreateSchema.date tenet))).
  { intros m [<-|[]] [E _]. discriminate E. }
  assert (Hcode : ~ In (MovieCreateSchema.country tenet)
                       (map CountryModel.code (countries catalog1))).
  { intros [E|[]]. discriminate E. }
  assert (Hname : iso3166 (MovieCreateSchema.country tenet) = None)
    by reflexivity.
  split; [auto|].
  exact (post_movie_unknown_country iso3166 no_constraints tenet catalog1
           Hfree Hcode Hname).
Defined.

Lemma name_date_pairs_kept_witness :
  (NoDup (map name_date (movies catalog1))
   /\ request (post_movie iso3166 no_constraints solaris) catalog1
      = (inr (Some solaris_detail), catalog2))
  /\ NoDup (map name_date (movies catalog2)).
Proof.
  assert (Hp : NoDup (map name_date (movies catalog1)))
    by (repeat constructor; intros []).
  assert (H : request (post_movie iso3166 no_constraints solaris) catalog1
              = (inr (Some solaris_detail), catalog2))
    by (vm_compute; reflexivity).
  split; [auto|].
  exact (proj1 (name_date_pairs_kept iso3166 no_constraints
                  catalog1 catalog2 Hp) solaris _ H).
Defined.

Lemma update_movie_outcomes_witness :
  request (update_movie no_constraints 1 (only_score 55%float)) catalog2
  = (inr "Movie updated successfully.", catalog2_rescored)
  /\ in_key_range 1 = true
  /\ In 1 (map MovieModel.id (movies catalog2)).
Proof.
  assert (H : request (update_movie no_constraints 1 (only_score 55%float))
                      catalog2
              = (inr "Movie updated successfully.", catalog2_rescored))
    by (vm_compute; reflexivity).
  split; [exact H|].
  destruct (update_movie_outcomes no_constraints 1 (only_score 55%float)
              catalog2 catalog2_rescored _ H) as (_ & Hrange & Hin & _).
  split; [exact Hrange | exact Hin].
Defined.

Lemma update_movie_no_conflict_check_witness :
  (NoDup (map MovieModel.id (movies catalog_same_day))
   /\ In (new_movie_row dune 1 usa) (movies catalog_same_day)
   /\ In (new_movie_row arrakis 2 usa) (movies catalog_same_day)
   /\ MovieModel.id (new_movie_row dune 1 usa)
      <> MovieModel.id (new_movie_row arrakis 2 usa)
   /\ MovieModel.date (new_movie_row arrakis 2 usa)
      = MovieModel.date (new_movie_row dune 1 usa)
   /\ in_key_range (MovieModel.id (new_movie_row arrakis 2 usa)) = true
   /\ no_constraints catalog_same_day
        (UpdateMovie
           (spec_partial_update as_dune (new_movie_row arrakis 2 usa)))
      = true)
  /\ exists store',
      request (update_movie no_constraints 2 as_dune) catalog_same_day
      = (inr "Movie updated successfully.", store')
      /\ In (new_movie_row dune 1 usa) (movies store')
      /\ In (spec_partial_update as_dune (new_movie_row arrakis 2 usa))
            (movies store')
      /\ MovieModel.id
           (spec_partial_update as_dune (new_movie_row arrakis 2 usa))
         <> MovieModel.id (new_movie_row dune 1 usa)
      /\ name_date
           (spec_partial_update as_dune (new_movie_row arrakis 2 usa))
         = name_date (new_movie_row dune 1 usa).
Proof.
  assert (Hk : NoDup (map MovieModel.id (movies catalog_same_day)))
    by (repeat constructor; cbn; intuition discriminate).
  assert (H1 : In (new_movie_row dune 1 usa) (movies catalog_same_day))
    by (left; reflexivity).
  assert (H2 : In (new_movie_row arrakis 2 usa) (movies catalog_same_day))
    by (right; left; reflexivity).
  assert (Hne : MovieModel.id (new_movie_row dune 1 usa)
                <> MovieModel.id (new_movie_row arrakis 2 usa))
    by discriminate.
  assert (Hdate : MovieModel.date (new_movie_row arrakis 2 usa)
                  = MovieModel.date (new_movie_row dune 1 usa))
    by reflexivity.
  assert (Hrange : in_key_range (MovieModel.id (new_movie_row arrakis 2 usa))
                   = true) by reflexivity.
  assert (Hok : no_constraints catalog_same_day
                  (UpdateMovie
                     (spec_partial_update as_dune
                        (new_movie_row arrakis 2 usa))) = true)
    by reflexivity.
  split; [auto 8|].
  exact (update_movie_no_conflict_check no_constraints catalog_same_day
           (new_movie_row dune 1 usa) (new_movie_row arrakis 2 usa)
           Hk H1 H2 Hne Hdate Hrange Hok).
Defined.

Lemma update_movie_twice_witness :
  (request (update_movie no_constraints 1 (only_score 55%float)) catalog2
   = (inr "Movie updated successfully.", catalog2_rescored)
   /\ request (update_movie no_constraints 1 (only_score 55%float))
              catalog2_rescored
      = (inr "Movie updated successfully.", catalog2_rescored))
  /\ catalog2_rescored = catalog2_rescored.
Proof.
  assert (H1 : request (update_movie no_constraints 1 (only_score 55%float))
                       catalog2
               = (inr "Movie updated successfully.", catalog2_rescored))
    by (vm_compute; reflexivity).
  assert (H2 : request (update_movie no_constraints 1 (only_score 55%float))
                       catalog2_rescored
               = (inr "Movie updated successfully.", catalog2_rescored))
    by (vm_compute; reflexivity).
  split; [auto|].
  exact (update_movie_twice no_constraints 1 (only_score 55%float)
           catalog2 catalog2_rescored catalog2_rescored _ _ H1 H2).
Defined.

Lemma update_movie_then_get_movie_witness :
  (NoDup (map MovieModel.id (movies catalog2))
   /\ In (new_movie_row dune 1 usa) (movies catalog2)
   /\ MovieModel.id (new_movie_row dune 1 usa) = 1
   /\ request (update_movie no_constraints 1 (only_score 55%float)) catalog2
      = (inr "Movie updated successfully.", catalog2_rescored))
  /\ request (get_movie 1) catalog2_rescored
     = (inr (MovieDetail.mk
               (spec_partial_update (only_score 55%float)
                                    (new_movie_row dune 1 usa))
               (MovieDetail.country
                  (load_movie catalog2 (new_movie_row dune 1 usa)))
               (MovieDetail.genres
                  (load_movie catalog2 (new_movie_row dune 1 usa)))
               (MovieDetail.actors
                  (load_movie catalog2 (new_movie_row dune 1 usa)))
               (MovieDetail.languages
                  (load_movie catalog2 (new_movie_row dune 1 usa)))),
        catalog2_rescored).
Proof.
  assert (Hk : NoDup (map MovieModel.id (movies catalog2)))
    by (repeat constructor; cbn; intuition discriminate).
  assert (Hin : In (new_movie_row dune 1 usa) (movies catalog2))
    by (left; reflexivity).
  assert (Hid : MovieModel.id (new_movie_row dune 1 usa) = 1) by reflexivity.
  assert (H : request (update_movie no_constraints 1 (only_score 55%float))
                      catalog2
              = (inr "Movie updated successfully.", catalog2_rescored))
    by (vm_compute; reflexivity).
  split; [auto|].
  exact (update_movie_then_get_movie no_constraints 1 (only_score 55%float)
           catalog2 catalog2_rescored _ (new_movie_row dune 1 usa)
           Hk Hin Hid H).
Defined.

Lemma delete_movie_then_gone_witness :
  request (delete_movie no_constraints 1) catalog2
  = (inr tt, catalog2_without_dune)
  /\ request (get_movie 1) catalog2_without_dune
     = (inl (HTTPException 404 "Movie with the given ID was not found."),
        catalog2_without_dune)
  /\ S (List.length (movies catalog2_without_dune))
     = List.length (movies catalog2).
Proof.
  assert (H : request (delete_movie no_constraints 1) catalog2
              = (inr tt, catalog2_without_dune))
    by (vm_compute; reflexivity).
  split; [exact H|].
  destruct (delete_movie_then_gone no_constraints 1 catalog2
              catalog2_without_dune H) as (Hget & _ & _ & Hlen).
  split; [exact Hget | exact Hlen].
Defined.

Lemma post_movie_then_delete_movie_witness :
  (references_hold catalog1
   /\ request (post_movie iso3166 no_constraints solaris) catalog1
      = (inr (Some solaris_detail), catalog2)
   /\ in_key_range (MovieModel.id (MovieDetail.movie solaris_detail)) = true)
  /\ exists store2,
      request (delete_movie no_constraints
                 (MovieModel.id (MovieDetail.movie solaris_detail))) catalog2
      = (inr tt, store2)
      /\ movies store2 = movies catalog1
      /\ countries store2 = countries catalog2
      /\ forall model,
          link_table model store2 = link_table model catalog1
          /\ lookup_table model store2 = lookup_table model catalog2.
Proof.
  assert (Hr : references_hold catalog1) by literal_store.
  assert (H : request (post_movie iso3166 no_constraints solaris) catalog1
              = (inr (Some solaris_detail), catalog2))
    by (vm_compute; reflexivity).
  assert (Hrange : in_key_range
                     (MovieModel.id (MovieDetail.movie solaris_detail))
                   = true) by reflexivity.
  split; [auto|].
  exact (post_movie_then_delete_movie iso3166 no_constraints solaris
           catalog1 catalog2 solaris_detail Hr H Hrange).
Defined.

Lemma get_or_create_names_witness :
  (pending session1 = []
   /\ get_or_create no_constraints GenreModel ["Sci-Fi"; "Drama"] session1
      = (inr [sci_fi; drama], session1_genres))
  /\ names [sci_fi; drama] = ["Sci-Fi"; "Drama"]
  /\ incl [sci_fi; drama] (lookup_table GenreModel (working session1_genres))
  /\ forall schema : Tables -> Statement -> bool,
      get_or_create schema GenreModel ["Sci-Fi"; "Drama"] session1_genres
      = (inr [sci_fi; drama], session1_genres).
Proof.
  assert (Hp : pending session1 = []) by reflexivity.
  assert (H : get_or_create no_constraints GenreModel ["Sci-Fi"; "Drama"]
                            session1
              = (inr [sci_fi; drama], session1_genres))
    by (vm_compute; reflexivity).
  split; [auto|].
  exact (get_or_create_names no_constraints GenreModel ["Sci-Fi"; "Drama"]
           session1 session1_genres [sci_fi; drama] Hp H).
Defined.
